(** * KIChat retrieval pipeline: chunking, embedding, vector index,
    chat orchestration and document ingestion.

  A shallow embedding of the Python sources under
  [services/backend/app] together with the properties of the
  specification that are settled against it.

  Conventions of the embedding:
  - a Python [str] is a list of Unicode code points ([N]); [len] and all
    slice indices are Python integers ([Z]);
  - a Python [dict] with string keys is a [gmap] over such strings;
  - services run in a state-and-exception monad over a [World] that holds
    the Qdrant collection, the embedding model handle, the log of calls
    made to the embedding model, the supply of fresh UUIDs, and what the
    database does to a call besides its documented behaviour (the calls
    it fails). *)

From Stdlib Require Import ZArith NArith QArith Ascii String.
From stdpp Require Import base decidable option list sorting strings gmap pretty.

Local Open Scope Z_scope.

(* ================================================================== *)
(** * Python strings *)
(* ================================================================== *)

Module PyStr.

(** A [str] is a sequence of code points. *)
Abbreviation str := (list N).

(** Decoding of UTF-8 bytes into code points (well-formed input). *)
Fixpoint utf8_decode (bs : list N) : str :=
  match bs with
  | [] => []
  | b :: r =>
      if (b <? 128)%N then b :: utf8_decode r
      else if (b <? 224)%N then
        match r with
        | b1 :: r' => ((b mod 32) * 64 + b1 mod 64)%N :: utf8_decode r'
        | _ => []
        end
      else if (b <? 240)%N then
        match r with
        | b1 :: b2 :: r' =>
            ((b mod 16) * 4096 + (b1 mod 64) * 64 + b2 mod 64)%N
              :: utf8_decode r'
        | _ => []
        end
      else
        match r with
        | b1 :: b2 :: b3 :: r' =>
            ((b mod 8) * 262144 + (b1 mod 64) * 4096
             + (b2 mod 64) * 64 + b3 mod 64)%N :: utf8_decode r'
        | _ => []
        end
  end.

(** The bytes of a literal, one code point each. *)
Definition of_ascii (s : string) : str :=
  N_of_ascii <$> list_ascii_of_string s.

(** A string literal of the source as a [str]: the literal is stored as
    its UTF-8 bytes and decoded. *)
Definition py (s : string) : str := utf8_decode (of_ascii s).

Definition len (s : str) : Z := Z.of_nat (length s).

(** [str.isspace] on one code point: the table of
    [_PyUnicode_IsWhitespace]. *)
Definition isspace (c : N) : bool :=
  ((9 <=? c) && (c <=? 13) || (28 <=? c) && (c <=? 32)
   || (c =? 133) || (c =? 160) || (c =? 5760)
   || (8192 <=? c) && (c <=? 8202)
   || (c =? 8232) || (c =? 8233) || (c =? 8239) || (c =? 8287)
   || (c =? 12288))%N.

Fixpoint lstrip (s : str) : str :=
  match s with
  | c :: s' => if isspace c then lstrip s' else s
  | [] => []
  end.

Definition rstrip (s : str) : str := rev (lstrip (rev s)).

(** [s.strip()] *)
Definition strip (s : str) : str := rstrip (lstrip s).

(** Index adjustment shared by slicing and [find]/[rfind]
    (negative indices count from the end, everything is clamped to
    [0 .. len]). *)
Definition adjust (n i : Z) : Z :=
  if i <? 0 then Z.max 0 (i + n) else Z.min i n.

(** [s[a:b]] *)
Definition slice (s : str) (a b : Z) : str :=
  let a' := adjust (len s) a in
  let b' := adjust (len s) b in
  take (Z.to_nat (b' - a')) (drop (Z.to_nat a') s).

(** [s[a:]] *)
Definition slice_from (s : str) (a : Z) : str :=
  drop (Z.to_nat (adjust (len s) a)) s.

(** Does [sub] occur in [s] at (adjusted) position [i]? *)
Definition occurs_at (s sub : str) (i : Z) : bool :=
  bool_decide (take (length sub) (drop (Z.to_nat i) s) = sub).

(** Candidates [lo + k - 1], ..., [lo], highest first. *)
Fixpoint rfind_from (s sub : str) (lo : Z) (k : nat) : Z :=
  match k with
  | O => -1
  | S k' =>
      let i := lo + Z.of_nat k' in
      if occurs_at s sub i then i else rfind_from s sub lo k'
  end.

(** [s.rfind(sub, a, b)]: the highest index [i] with
    [s[i:i+len(sub)] == sub] lying inside [s[a:b]], or [-1].  The end is
    adjusted as in a slice; a start beyond the end of [s] is left as it
    is, and nothing is found then. *)
Definition rfind (s sub : str) (a b : Z) : Z :=
  let a' := if a <? 0 then Z.max 0 (a + len s) else a in
  let b' := adjust (len s) b in
  rfind_from s sub a' (Z.to_nat (b' - len sub - a' + 1)).

(** [s.endswith(suffix)] *)
Definition endswith (s suffix : str) : bool :=
  bool_decide (drop (length s - length suffix) s = suffix)
  && bool_decide (length suffix ≤ length s)%nat.

(** [str(n)] for an integer. *)
Definition str_of_Z (z : Z) : str := of_ascii (pretty z).

End PyStr.
Import PyStr.

(* ================================================================== *)
(** * app/rag/chunking.py *)
(* ================================================================== *)

Module Chunking.

(** The two settings read by [TextChunker.__init__]. *)
Record TextChunker := {
  chunk_size : Z;   (* settings.rag_chunk_size *)
  overlap : Z;      (* settings.rag_chunk_overlap *)
}.

(** Defaults of [config.py]: [RAG_CHUNK_SIZE = 512],
    [RAG_CHUNK_OVERLAP = 64]. *)
Definition default_chunker : TextChunker :=
  {| chunk_size := 512; overlap := 64 |}.

(** [self._separators], in priority order. *)
Definition separators : list str :=
  [ [10; 10; 10]%N; [10; 10]%N; [10]%N;
    py ". "; py "! "; py "? "; py "; "; py ", "; py " " ].

(** The [for sep in self._separators] search: the first separator whose
    right-most occurrence inside the window lies strictly after
    [start] decides the split; otherwise the raw window end. *)
Fixpoint best_split_of (text : str) (start end_ : Z) (seps : list str) : Z :=
  match seps with
  | [] => end_
  | sep :: seps' =>
      let split_pos := rfind text sep start end_ in
      if start <? split_pos then split_pos + len sep
      else best_split_of text start end_ seps'
  end.

(** [if chunk and len(chunk) >= 50: chunks.append(chunk)] *)
Definition keep (chunk : str) (chunks : list str) : list str :=
  if negb (bool_decide (chunk = [])) && (50 <=? len chunk)
  then chunks ++ [chunk] else chunks.

(** One pass through the body of [while start < len(text)]. *)
Inductive LoopStep :=
| Continue (start : Z) (chunks : list str)
| Break (chunks : list str).

Definition loop_body (c : TextChunker) (text : str)
    (start : Z) (chunks : list str) : LoopStep :=
  let end_ := start + chunk_size c in
  if len text <=? end_ then
    Break (keep (strip (slice_from text start)) chunks)
  else
    let best_split := best_split_of text start end_ separators in
    let chunks' := keep (strip (slice text start best_split)) chunks in
    let start' := best_split - overlap c in
    Continue (if start' <? 0 then 0 else start') chunks'.

(** The [while] loop; [None] when [fuel] iterations were not enough. *)
Fixpoint chunk_loop (c : TextChunker) (fuel : nat) (text : str)
    (start : Z) (chunks : list str) : option (list str) :=
  match fuel with
  | O => None
  | S fuel' =>
      if start <? len text then
        match loop_body c text start chunks with
        | Break chunks' => Some chunks'
        | Continue start' chunks' => chunk_loop c fuel' text start' chunks'
        end
      else Some chunks
  end.

(** [TextChunker.chunk] *)
Definition chunk (c : TextChunker) (fuel : nat) (text : str)
    : option (list str) :=
  if bool_decide (text = []) || bool_decide (strip text = []) then Some []
  else
    let text := strip text in
    if len text <=? chunk_size c then Some [text]
    else chunk_loop c fuel text 0 [].

End Chunking.

(* ================================================================== *)
(** * Values, process state and the service monad *)
(* ================================================================== *)

Module Py.

(** The payload values the pipeline stores: strings, integers and
    floats (a finite float is the rational it denotes). *)
Inductive Value :=
| VStr (s : str)
| VInt (z : Z)
| VFloat (q : Q).

#[global] Instance Q_eq_dec : EqDecision Q.
Proof. solve_decision. Defined.

#[global] Instance Value_eq_dec : EqDecision Value.
Proof. solve_decision. Defined.

(** A [dict] with string keys. *)
Abbreviation dict := (gmap str Value).

(** An embedding vector. *)
Abbreviation Vector := (list Q).

(** [qdrant_client.models.PointStruct] *)
Record Point := {
  point_id : str;
  vector : Vector;
  payload : dict;
}.

(** The fields of [config.Settings] the pipeline reads. *)
Record Settings := {
  stt_language : str;
  llm_model : str;
  llm_max_tokens : Z;
  llm_temperature : Q;
  rag_chunk_size : Z;
  rag_chunk_overlap : Z;
  rag_top_k : Z;
  rag_similarity_threshold : Q;
}.

(** [Settings()] with no environment overrides.  The two float defaults
    are the doubles nearest to [0.3] and [0.7]. *)
Definition default_settings : Settings := {|
  stt_language := py "de";
  llm_model := py "Qwen/Qwen2.5-72B-Instruct";
  llm_max_tokens := 4096;
  llm_temperature := (5404319552844595 # 18014398509481984)%Q;
  rag_chunk_size := 512;
  rag_chunk_overlap := 64;
  rag_top_k := 5;
  rag_similarity_threshold := (3152519739159347 # 4503599627370496)%Q;
|}.

(** What the vector database and its client library add to the
    documented behaviour of a call.  [upsert_error stored points] and
    [query_error stored query limit] give the text of the exception when
    that call fails (the server cannot be reached, the request is
    refused); a call that fails writes nothing.  Scrolling and deleting
    are taken to be answered.  [limit_message] and
    [match_message] are the wording of the library's own errors for a
    limit below 1 and for a match value it does not accept. *)
Record Client := {
  upsert_error : list Point → list Point → option str;
  query_error : list Point → Vector → Z → option str;
  limit_message : Z → str;
  match_message : Value → str;
}.

(** The state of one backend process together with its Qdrant
    collection.
    - [emb_model] is [EmbeddingService._model]: [None] until loaded, then
      the [encode] function of the sentence transformer;
    - [encode_calls] records every batch handed to [encode];
    - [distance] is the similarity the collection was created with
      ([Distance.COSINE]), computed by the database engine;
    - [uuid_next] drives [uuid.uuid4]: identifiers are drawn from a supply
      of pairwise distinct strings;
    - [client] says which calls to the database fail. *)
Record World := {
  settings : Settings;
  emb_model : option (list str → list Vector);
  encode_calls : list (list str);
  distance : Vector → Vector → Q;
  collection : list Point;
  uuid_next : nat;
  client : Client;
}.

Definition set_collection (pts : list Point) (w : World) : World :=
  {| settings := settings w; emb_model := emb_model w;
     encode_calls := encode_calls w; distance := distance w;
     collection := pts; uuid_next := uuid_next w; client := client w |}.

Definition log_encode (texts : list str) (w : World) : World :=
  {| settings := settings w; emb_model := emb_model w;
     encode_calls := encode_calls w ++ [texts]; distance := distance w;
     collection := collection w; uuid_next := uuid_next w;
     client := client w |}.

Definition bump_uuid (w : World) : World :=
  {| settings := settings w; emb_model := emb_model w;
     encode_calls := encode_calls w; distance := distance w;
     collection := collection w; uuid_next := S (uuid_next w);
     client := client w |}.

(** The exceptions that occur in the modelled code. *)
Inductive Exn :=
| RuntimeError (msg : str)
| IndexError
| ValueError (msg : str)         (* json.JSONDecodeError included *)
| ValidationError (msg : str)                 (* pydantic *)
| ClientError (msg : str)        (* raised by a call of the Qdrant client *)
| HTTPError (msg : str)                       (* httpx.HTTPError *)
| HTTPException (status_code : Z) (detail : str).  (* fastapi *)

(** [str(e)] *)
Definition exn_str (e : Exn) : str :=
  match e with
  | RuntimeError msg => msg
  | IndexError => py "list index out of range"
  | ValueError msg => msg
  | ValidationError msg => msg
  | ClientError msg => msg
  | HTTPError msg => msg
  | HTTPException c d => str_of_Z c ++ py ": " ++ d
  end.

(** How a call ends: with a value, with an exception, or not at all
    (the chunking loop had not finished when the fuel ran out). *)
Inductive Outcome (A : Type) :=
| Ok (a : A)
| Raise (e : Exn)
| Hang.
Arguments Ok {A} a.
Arguments Raise {A} e.
Arguments Hang {A}.

Definition M (A : Type) : Type := World → Outcome A * World.

#[global] Instance M_ret : MRet M := λ A a w, (Ok a, w).

#[global] Instance M_bind : MBind M := λ A B k m w,
  match m w with
  | (Ok a, w') => k a w'
  | (Raise e, w') => (Raise e, w')
  | (Hang, w') => (Hang, w')
  end.

Definition raise {A} (e : Exn) : M A := λ w, (Raise e, w).

(** [try: m  except Exception as e: handler e] *)
Definition try_except {A} (m : M A) (handler : Exn → M A) : M A := λ w,
  match m w with
  | (Raise e, w') => handler e w'
  | r => r
  end.

Definition get_settings : M Settings := λ w, (Ok (settings w), w).

(** [str(uuid.uuid4())] *)
Definition uuid_str (n : nat) : str := py "uuid-" ++ str_of_Z (Z.of_nat n).

Definition uuid4 : M str := λ w, (Ok (uuid_str (uuid_next w)), bump_uuid w).

End Py.
Import Py.

(* ================================================================== *)
(** * app/rag/embedding.py *)
(* ================================================================== *)

Module Embedding.

(** The argument of [embed]: [Union[str, list[str]]]. *)
Inductive Texts :=
| Single (s : str)
| Batch (l : list str).

(** [EmbeddingService.embed] *)
Definition embed (texts : Texts) : M (list Vector) := λ w,
  match emb_model w with
  | None =>
      (Raise (RuntimeError (py "Embedding-Modell nicht initialisiert.")), w)
  | Some encode =>
      let texts := match texts with Single s => [s] | Batch l => l end in
      (Ok (encode texts), log_encode texts w)
  end.

(** [EmbeddingService.embed_query] *)
Definition embed_query (query : str) : M Vector :=
  let prefixed := py "query: " ++ query in
  results ← embed (Single prefixed);
  match results with
  | v :: _ => mret v
  | [] => raise IndexError
  end.

(** [EmbeddingService.embed_documents] *)
Definition embed_documents (documents : list str) : M (list Vector) :=
  let prefixed := (λ doc, py "passage: " ++ doc) <$> documents in
  embed (Batch prefixed).

End Embedding.

(* ================================================================== *)
(** * The Qdrant client

    [qdrant_client.AsyncQdrantClient] is an external capability; what
    follows is a reference model of the calls the service makes, after
    the documented behaviour of the engine: [upsert] replaces points by
    id, a [Filter(must=...)] holds when every condition holds,
    [query_points] wants a limit of at least 1 and returns the best
    [limit] hits by decreasing score, [scroll] goes through the points in
    the order of their ids and returns one page of at most [limit] hits
    and the id to continue from, [delete] removes every hit of its
    selector.  [upsert] and [query_points] fail when the [client] of the
    state says so; the listing and deletion calls are taken to answer. *)
(* ================================================================== *)

Module Qdrant.

(** [MatchValue(value=v)]: the library admits a string or an integer
    (and a boolean, which the pipeline never stores), not a float. *)
Inductive MatchValue :=
| MatchStr (s : str)
| MatchInt (z : Z).

(** The payload value a condition asks for. *)
Definition matched (m : MatchValue) : Value :=
  match m with
  | MatchStr s => VStr s
  | MatchInt z => VInt z
  end.

(** [Filter(must=[FieldCondition(key=k, match=MatchValue(value=v)), ...])] *)
Record Filter := { must : list (str * MatchValue) }.

Definition satisfies (p : dict) (cond : str * MatchValue) : bool :=
  bool_decide (p !! cond.1 = Some (matched cond.2)).

Definition passes (f : option Filter) (p : Point) : bool :=
  match f with
  | None => true
  | Some f => forallb (satisfies (payload p)) (must f)
  end.

(** A hit of [query_points]. *)
Record ScoredPoint := {
  sp_id : str;
  sp_score : Q;
  sp_payload : option dict;
}.

(** A hit of [scroll]. *)
Record ScrollRecord := {
  rec_id : str;
  rec_payload : option dict;
}.

(** [a] ranks no lower than [b]. *)
Definition score_ge (a b : ScoredPoint) : Prop :=
  (sp_score b <= sp_score a)%Q.

#[global] Instance score_ge_dec : RelDecision score_ge.
Proof. intros a b. unfold score_ge, Qle. apply Z.le_dec. Defined.

Definition score_point (d : Vector → Vector → Q) (q : Vector) (p : Point)
    : ScoredPoint :=
  {| sp_id := point_id p; sp_score := d q (vector p);
     sp_payload := Some (payload p) |}.

Definition upsert_points (new old : list Point) : list Point :=
  filter (λ p, point_id p ∉ point_id <$> new) old ++ new.

(** [client.upsert(collection_name, points)] *)
Definition upsert (points : list Point) : M unit := λ w,
  match upsert_error (client w) (collection w) points with
  | Some msg => (Raise (ClientError msg), w)
  | None => (Ok tt, set_collection (upsert_points points (collection w)) w)
  end.

(** [client.query_points(collection_name, query, limit, query_filter,
    with_payload=True)], the [.points] of the response. *)
Definition query_points (query : Vector) (limit : Z)
    (query_filter : option Filter) : M (list ScoredPoint) := λ w,
  if limit <=? 0 then
    (Raise (ValueError (limit_message (client w) limit)), w)
  else
    match query_error (client w) (collection w) query limit with
    | Some msg => (Raise (ClientError msg), w)
    | None =>
        let hits := filter (λ p, passes query_filter p = true) (collection w) in
        let ranked :=
          merge_sort score_ge (score_point (distance w) query <$> hits) in
        (Ok (take (Z.to_nat limit) ranked), w)
    end.

(** The order of two point ids.  The ids of the pipeline are the texts
    of UUIDs, which the engine keeps in the order of their text. *)
Fixpoint id_leb (a b : str) : bool :=
  match a, b with
  | [], _ => true
  | _ :: _, [] => false
  | x :: a', y :: b' =>
      if (x <? y)%N then true
      else if (x =? y)%N then id_leb a' b' else false
  end.

(** [p] is not scrolled after [q]. *)
Definition id_le (p q : Point) : Prop :=
  id_leb (point_id p) (point_id q) = true.

#[global] Instance id_le_dec : RelDecision id_le.
Proof. intros p q. unfold id_le. apply _. Defined.

(** The stored points in the order a scroll goes through them. *)
Definition scroll_order (pts : list Point) : list Point :=
  merge_sort id_le pts.

(** The points whose id is [offset] or comes after it. *)
Definition from_offset (offset : str) (pts : list Point) : list Point :=
  filter (λ p, id_leb offset (point_id p) = true) pts.

(** [client.scroll(collection_name, scroll_filter, limit, offset,
    with_payload, with_vectors=False)] *)
Definition scroll (scroll_filter : option Filter) (limit : Z)
    (offset : option str) (with_payload : bool)
    : M (list ScrollRecord * option str) := λ w,
  let pts := match offset with
             | None => scroll_order (collection w)
             | Some o => from_offset o (scroll_order (collection w))
             end in
  let hits := filter (λ p, passes scroll_filter p = true) pts in
  let page := take (Z.to_nat limit) hits in
  let next := point_id <$> head (drop (Z.to_nat limit) hits) in
  let record p :=
    {| rec_id := point_id p;
       rec_payload := if with_payload then Some (payload p) else None |} in
  (Ok (record <$> page, next), w).

(** [client.delete(collection_name, points_selector=Filter(...))] *)
Definition delete (points_selector : Filter) : M unit := λ w,
  (Ok tt,
   set_collection
     (filter (λ p, passes (Some points_selector) p = false) (collection w)) w).

End Qdrant.

(* ================================================================== *)
(** * app/rag/vectorstore.py *)
(* ================================================================== *)

Module VectorStore.
Import Chunking Embedding Qdrant.

(** [TextChunker()] as built in [VectorStoreService.__init__]. *)
Definition chunker_of (s : Settings) : TextChunker :=
  {| chunk_size := rag_chunk_size s; overlap := rag_chunk_overlap s |}.

(** [self._chunker.chunk(text)]; the call hangs when the loop does not
    finish within [fuel] iterations. *)
Definition run_chunk (fuel : nat) (text : str) : M (list str) := λ w,
  match chunk (chunker_of (settings w)) fuel text with
  | Some chunks => (Ok chunks, w)
  | None => (Hang, w)
  end.

(** The [for chunk_text, embedding in zip(chunks, embeddings)] loop. *)
Fixpoint make_points (pairs : list (str * Vector)) (metadata : dict)
    : M (list Point) :=
  match pairs with
  | [] => mret []
  | (chunk_text, embedding) :: rest =>
      point_id ← uuid4;
      points ← make_points rest metadata;
      mret ({| point_id := point_id; vector := embedding;
               payload := metadata ∪ {[ py "text" := VStr chunk_text ]} |}
              :: points)
  end.

(** [VectorStoreService.add_text] *)
Definition add_text (fuel : nat) (text : str) (metadata : dict) : M Z :=
  chunks ← run_chunk fuel text;
  match chunks with
  | [] => mret 0
  | _ =>
      embeddings ← embed_documents chunks;
      points ← make_points (zip chunks embeddings) metadata;
      _ ← upsert points;
      mret (Z.of_nat (length points))
  end.

(** The transcript dictionary read by [add_transcript]. *)
Record Transcript := {
  tr_text : option str;
  tr_filename : option Value;
  tr_duration : option Value;
}.

(** [VectorStoreService.add_transcript] *)
Definition add_transcript (fuel : nat) (transcript : Transcript)
    (patient_id : str) : M Z :=
  let text := default [] (tr_text transcript) in
  document_id ← uuid4;
  let metadata : dict :=
    {[ py "source" :=
         default (VStr (py "audio_transcript")) (tr_filename transcript);
       py "document_type" := VStr (py "transcript");
       py "patient_id" := VStr patient_id;
       py "duration" := default (VInt 0) (tr_duration transcript);
       py "document_id" := VStr document_id;
       py "page" := VInt 0 ]} in
  add_text fuel text metadata.

(** One entry of the list returned by [search]. *)
Record SearchResult := {
  res_text : Value;
  res_score : Q;
  res_metadata : dict;
}.

Definition format_hit (point : ScoredPoint) : SearchResult :=
  let payload := default ∅ (sp_payload point) in
  {| res_text := default (VStr []) (payload !! py "text");
     res_score := sp_score point;
     res_metadata := filter (λ kv, kv.1 ≠ py "text") payload |}.

(** [MatchValue(value=value)] for a value of the [filters] dictionary:
    the validation of the client library refuses a float. *)
Definition match_value (value : Value) : M MatchValue := λ w,
  match value with
  | VStr s => (Ok (MatchStr s), w)
  | VInt z => (Ok (MatchInt z), w)
  | VFloat _ => (Raise (ValidationError (match_message (client w) value)), w)
  end.

(** The [for key, value in filters.items()] loop. *)
Fixpoint conditions_of (items : list (str * Value))
    : M (list (str * MatchValue)) :=
  match items with
  | [] => mret []
  | (key, value) :: rest =>
      m ← match_value value;
      conditions ← conditions_of rest;
      mret ((key, m) :: conditions)
  end.

(** The filter built from the [filters] argument. *)
Definition build_filter (filters : option dict) : M (option Filter) :=
  match filters with
  | None => mret None
  | Some fs =>
      if bool_decide (fs = ∅) then mret None
      else
        conditions ← conditions_of (map_to_list fs);
        match conditions with
        | [] => mret None
        | _ => mret (Some {| must := conditions |})
        end
  end.

(** [VectorStoreService.search] *)
Definition search (query : str) (top_k : Z) (filters : option dict)
    : M (list SearchResult) :=
  query_embedding ← embed_query query;
  qdrant_filter ← build_filter filters;
  results ← query_points query_embedding top_k qdrant_filter;
  mret (format_hit <$> results).

(** The selector used twice by [delete_document]. *)
Definition document_filter (document_id : str) : Filter :=
  {| must := [(py "document_id", MatchStr document_id)] |}.

(** [VectorStoreService.delete_document] *)
Definition delete_document (document_id : str) : M Z :=
  results ← scroll (Some (document_filter document_id)) 10000 None false;
  let count := Z.of_nat (length results.1) in
  _ ← delete (document_filter document_id);
  mret count.

End VectorStore.

(* ================================================================== *)
(** * app/routes/chat.py *)
(* ================================================================== *)

Module Chat.
Import VectorStore.

(** Python's formatting of floats, a builtin of the interpreter:
    [repr] (used by [f"{x}"]), the [:.2f] format and the [:.0%] format. *)
Record FloatFormat := {
  float_repr : Q → str;
  format_2f : Q → str;
  format_pct : Q → str;
}.

Record ChatMessage := {
  role : str;
  content : str;
}.

Record ChatCompletionRequest := {
  model : str;
  messages : list ChatMessage;
  temperature : option Q;
  max_tokens : option Z;
  stream : option bool;
  top_p : option Q;
  frequency_penalty : option Q;
  presence_penalty : option Q;
}.

(** The request sent to the generation backend. *)
Record LlmPayload := {
  p_model : str;
  p_messages : list ChatMessage;
  p_temperature : Q;
  p_max_tokens : Z;
  p_stream : bool;
  p_top_p : option Q;
}.

(** The JSON body of a completion: the message of each entry of
    ["choices"] (a missing key reads as the empty list); every other key
    is relayed untouched. *)
Record LlmResult := {
  choices : list ChatMessage;
}.

Inductive LlmReply :=
| Reply (result : LlmResult)  (* a completion whose messages carry text *)
| Failed (msg : str)      (* httpx.HTTPError, raise_for_status included *)
| Unreadable (msg : str). (* a body that [resp.json()] cannot decode *)

(** The generation backend as seen through [httpx]: the answer to a
    batched request; for a streamed request the lines received, and the
    exception that ends the stream after them when it breaks. *)
Record LlmBackend := {
  post_completion : LlmPayload → LlmReply;
  stream_lines : LlmPayload → list str;
  stream_failure : LlmPayload → option Exn;
}.

(** What the consumer of an async generator gets: the values it yields
    and, when it does not run to its end, the exception it raises. *)
Record EventStream := {
  events : list str;
  failure : option Exn;
}.

Inductive ChatResponse :=
| StreamingResponse (stream : EventStream)
| JsonResponse (result : LlmResult).

(** One kept citation. *)
Record Source := {
  src_source : Value;
  src_page : Value;
  src_score : Q;
}.

Definition newline : str := [10%N].

(** [sep.join(parts)] *)
Fixpoint join (sep : str) (parts : list str) : str :=
  match parts with
  | [] => []
  | [p] => p
  | p :: rest => p ++ sep ++ join sep rest
  end.

(** [SYSTEM_PROMPT] up to the [{context}] placeholder. *)
Definition SYSTEM_PROMPT_head : str :=
  join newline
    [ py "Du bist ein hochqualifizierter psychiatrischer KI-Assistent für klinische Fachkräfte.";
      [];
      py "REGELN:";
      py "1. Antworte AUSSCHLIESSLICH auf Basis der bereitgestellten Kontextinformationen.";
      py "2. Wenn die bereitgestellten Informationen nicht ausreichen, sage klar:";
      py "   " ++ [34%N]
        ++ py "Die verfügbaren Unterlagen enthalten keine ausreichende Evidenz zu dieser Frage."
        ++ [34%N];
      py "3. Halluziniere NIEMALS Diagnosen, Medikamente, Dosierungen oder Behandlungsempfehlungen.";
      py "4. Zitiere die Quelle (Dokumentname, Seite) bei jeder faktischen Aussage.";
      py "5. Verwende korrekte psychiatrische Fachterminologie (ICD-11, DSM-5-TR).";
      py "6. Kennzeichne deine Reasoning-Schritte klar und nachvollziehbar.";
      py "7. Bei Unsicherheit gib den Konfidenzgrad an (hoch/mittel/niedrig).";
      py "8. Weise bei kritischen Entscheidungen immer darauf hin, dass eine ärztliche Überprüfung erforderlich ist.";
      [];
      py "KONTEXT AUS WISSENSDATENBANK:";
      [] ].

(** [SYSTEM_PROMPT.format(context=context)] *)
Definition SYSTEM_PROMPT_format (context : str) : str :=
  SYSTEM_PROMPT_head ++ context ++ newline.

(** The [for msg in reversed(body.messages)] scan. *)
Fixpoint scan_user (reversed : list ChatMessage) : str :=
  match reversed with
  | [] => []
  | msg :: rest =>
      if bool_decide (role msg = py "user") then content msg
      else scan_user rest
  end.

Definition extract_user_message (body : ChatCompletionRequest) : str :=
  scan_user (rev (messages body)).

Section Formatting.
Variable fmt : FloatFormat.

(** [f"{v}"] for a payload value. *)
Definition py_str (v : Value) : str :=
  match v with
  | VStr s => s
  | VInt z => str_of_Z z
  | VFloat q => float_repr fmt q
  end.

(** One step of [for i, result in enumerate(results, 1)]: the context
    part and the citation of a result that meets the threshold. *)
Definition cite (threshold : Q) (i : Z) (result : SearchResult)
    : option (str * Source) :=
  let score := res_score result in
  if Qle_bool threshold score then
    let text := res_text result in
    let source :=
      default (VStr (py "Unbekannt")) (res_metadata result !! py "source") in
    let page := default (VStr (py "?")) (res_metadata result !! py "page") in
    Some (py "[Quelle " ++ str_of_Z i ++ py ": " ++ py_str source
            ++ py ", S." ++ py_str page ++ py "] (Relevanz: "
            ++ format_2f fmt score ++ py ")" ++ newline ++ py_str text,
          {| src_source := source; src_page := page; src_score := score |})
  else None.

Definition cite_all (threshold : Q) (results : list SearchResult)
    : list (str * Source) :=
  omap id (imap (λ i result, cite threshold (Z.of_nat (S i)) result) results).

(** The retrieval block of [chat_completions]: the context string and
    the list [sources]. *)
Definition retrieve (user_message : str) : M (str * list Source) :=
  settings ← get_settings;
  try_except
    (results ← search user_message (rag_top_k settings) None;
     match results with
     | [] => mret ([], [])
     | _ =>
         let kept := cite_all (rag_similarity_threshold settings) results in
         mret (join (newline ++ newline ++ py "---" ++ newline ++ newline)
                 (fst <$> kept),
               snd <$> kept)
     end)
    (λ e, mret (py "[Wissensdatenbank nicht verfügbar]", [])).

(** [_stream_llm_response]: the generator is run by the framework after
    [chat_completions] has returned; when the stream breaks, the
    exception leaves the generator before the closing event. *)
Definition _stream_llm_response (llm : LlmBackend) (payload : LlmPayload)
    : EventStream :=
  let relayed :=
    (λ line, line ++ newline ++ newline)
      <$> filter (λ line, take 6 line = py "data: ")
            (stream_lines llm payload) in
  match stream_failure llm payload with
  | Some e => {| events := relayed; failure := Some e |}
  | None =>
      {| events := relayed ++ [py "data: [DONE]" ++ newline ++ newline];
         failure := None |}
  end.

(** The text appended when there are sources. *)
Definition source_text (sources : list Source) : str :=
  fold_left
    (λ acc s,
       acc ++ py "- " ++ py_str (src_source s) ++ py ", Seite "
           ++ py_str (src_page s) ++ py " (Relevanz: "
           ++ format_pct fmt (src_score s) ++ py ")" ++ newline)
    sources
    (newline ++ newline ++ py "---" ++ newline ++ py "**Quellen:**" ++ newline).

Definition append_content (extra : str) (msg : ChatMessage) : ChatMessage :=
  {| role := role msg; content := content msg ++ extra |}.

(** [_complete_llm_response] *)
Definition _complete_llm_response (llm : LlmBackend) (payload : LlmPayload)
    (sources : list Source) : M LlmResult :=
  match post_completion llm payload with
  | Failed msg => raise (HTTPError msg)
  | Unreadable msg => raise (ValueError msg)
  | Reply result =>
      match sources, choices result with
      | _ :: _, first :: others =>
          mret {| choices := append_content (source_text sources) first
                               :: others |}
      | _, _ => mret result
      end
  end.

(** [x or fallback] for an optional float. *)
Definition or_float (x : option Q) (fallback : Q) : Q :=
  match x with
  | Some q => if Qeq_bool q 0 then fallback else q
  | None => fallback
  end.

(** [x or fallback] for an optional integer. *)
Definition or_int (x : option Z) (fallback : Z) : Z :=
  match x with
  | Some z => if z =? 0 then fallback else z
  | None => fallback
  end.

(** The system message and [llm_payload] built by [chat_completions]. *)
Definition build_llm_payload (settings : Settings)
    (body : ChatCompletionRequest) (context : str) : LlmPayload :=
  let system_content :=
    SYSTEM_PROMPT_format
      (if bool_decide (context = [])
       then py "[Keine relevanten Dokumente gefunden]" else context) in
  let llm_messages :=
    {| role := py "system"; content := system_content |}
      :: filter (λ msg, role msg ≠ py "system") (messages body) in
  {| p_model := llm_model settings;
     p_messages := llm_messages;
     p_temperature := or_float (temperature body) (llm_temperature settings);
     p_max_tokens := or_int (max_tokens body) (llm_max_tokens settings);
     p_stream := default false (stream body);
     p_top_p := top_p body |}.

(** [chat_completions] *)
Definition chat_completions (llm : LlmBackend) (body : ChatCompletionRequest)
    : M ChatResponse :=
  settings ← get_settings;
  let user_message := extract_user_message body in
  if bool_decide (user_message = []) then
    raise (HTTPException 400 (py "Keine User-Nachricht gefunden."))
  else
    '(context, sources) ← retrieve user_message;
    let llm_payload := build_llm_payload settings body context in
    if default false (stream body) then
      mret (StreamingResponse (_stream_llm_response llm llm_payload))
    else
      try_except
        (result ← _complete_llm_response llm llm_payload sources;
         mret (JsonResponse result))
        (λ e, match e with
              | HTTPError msg =>
                  raise (HTTPException 502 (py "LLM nicht erreichbar: " ++ msg))
              | _ => raise e
              end).

End Formatting.
End Chat.

(* ================================================================== *)
(** * app/routes/documents.py *)
(* ================================================================== *)

Module Documents.
Import VectorStore.

(** [UploadFile]: the name and the bytes read from it. *)
Record UploadFile := {
  filename : str;
  file_bytes : list Byte.byte;
}.

(** One entry of ["pages"] in the OCR response. *)
Record PageInfo := {
  pg_text : option str;
  pg_page : option Z;
}.

(** The JSON body returned by the OCR service. *)
Record OcrResult := {
  ocr_markdown : option str;
  ocr_pages : option (list PageInfo);
  ocr_total_pages : option Z;
}.

Inductive OcrReply :=
| OcrOk (result : OcrResult)
| OcrFailed (msg : str).      (* httpx.HTTPError *)

(** The success body of [upload_document]. *)
Record UploadResponse := {
  up_document_id : str;
  up_filename : str;
  up_total_pages : Z;
  up_chunks_indexed : Z;
  up_characters_extracted : Z;
  up_metadata : dict;
}.

(** [str.lower] on the Basic Latin letters; no other code point lowers
    to one of the characters of [".pdf"], which is all the caller
    compares with. *)
Definition lower (s : str) : str :=
  (λ c, if (65 <=? c)%N && (c <=? 90)%N then (c + 32)%N else c) <$> s.

(** The [for page_info in pages] loop, threading [chunks_indexed]. *)
Fixpoint index_pages (fuel : nat) (pages : list PageInfo) (metadata : dict)
    (chunks_indexed : Z) : M Z :=
  match pages with
  | [] => mret chunks_indexed
  | page_info :: rest =>
      let page_text := default [] (pg_text page_info) in
      let page_num := default 0 (pg_page page_info) in
      if bool_decide (strip page_text = []) then
        index_pages fuel rest metadata chunks_indexed
      else
        let page_metadata := <[ py "page" := VInt page_num ]> metadata in
        count ← add_text fuel page_text page_metadata;
        index_pages fuel rest metadata (chunks_indexed + count)
  end.

(** [upload_document]; [ocr] is the OCR service behind [httpx]. *)
Definition upload_document (ocr : UploadFile → OcrReply) (fuel : nat)
    (file : UploadFile) (document_type : str)
    (patient_id case_number : option str) : M UploadResponse :=
  let pdf_bytes := file_bytes file in
  if bool_decide (pdf_bytes = []) then
    raise (HTTPException 400 (py "Leere Datei."))
  else if negb (endswith (lower (filename file)) (py ".pdf")) then
    raise (HTTPException 400 (py "Nur PDF-Dateien werden unterstützt."))
  else
    match ocr file with
    | OcrFailed msg =>
        raise (HTTPException 502
                 (py "OCR-Verarbeitung fehlgeschlagen: " ++ msg))
    | OcrOk ocr_result =>
        let markdown_text := default [] (ocr_markdown ocr_result) in
        let pages := default [] (ocr_pages ocr_result) in
        let total_pages := default 0 (ocr_total_pages ocr_result) in
        if bool_decide (strip markdown_text = []) then
          raise (HTTPException 422
                   (py "OCR konnte keinen Text aus dem PDF extrahieren."))
        else
          try_except
            (doc_id ← uuid4;
             let metadata : dict :=
               {[ py "source" := VStr (filename file);
                  py "document_id" := VStr doc_id;
                  py "document_type" := VStr document_type;
                  py "patient_id" := VStr (default [] patient_id);
                  py "case_number" := VStr (default [] case_number);
                  py "total_pages" := VInt total_pages ]} in
             chunks_indexed ←
               match pages with
               | _ :: _ => index_pages fuel pages metadata 0
               | [] =>
                   add_text fuel markdown_text
                     (<[ py "page" := VInt 0 ]> metadata)
               end;
             mret {| up_document_id := doc_id;
                     up_filename := filename file;
                     up_total_pages := total_pages;
                     up_chunks_indexed := chunks_indexed;
                     up_characters_extracted := len markdown_text;
                     up_metadata := metadata |})
            (λ e, raise (HTTPException 500
                           (py "Indexierung fehlgeschlagen: " ++ exn_str e)))
    end.

End Documents.

(* ================================================================== *)
(** * app/routes/audio.py: the long-form transcription endpoint *)
(* ================================================================== *)

Module Audio.
Import VectorStore.

(** The dictionary returned by [STTService.transcribe]. *)
Record SttResult := {
  stt_text : str;
  stt_lang : option str;
  stt_duration : option Value;
}.

(** The speech services behind the endpoint: the in-process Whisper
    model and the denoiser reached over [httpx] ([None]: the call
    raised). *)
Inductive SttReply :=
| SttOk (result : SttResult)
| SttFailed (msg : str).

Record AudioServices := {
  stt_is_ready : bool;
  stt_transcribe : list Byte.byte → str → SttReply;
  denoise_call : list Byte.byte → option (list Byte.byte);
}.

(** The transcript returned to the caller (the segment list of the STT
    result is relayed unchanged and left out). *)
Record LongTranscript := {
  lt_text : str;
  lt_language : str;
  lt_duration : Value;
  lt_filename : str;
  lt_patient_id : option str;
  lt_denoised : bool;
  lt_indexed : option bool;
}.

(** [x or fallback] for an optional string. *)
Definition or_str (x : option str) (fallback : str) : str :=
  match x with
  | Some (c :: s) => c :: s
  | _ => fallback
  end.

(** [transcribe_long_audio] *)
Definition transcribe_long_audio (svc : AudioServices) (fuel : nat)
    (filename : str) (audio_bytes : list Byte.byte) (language : option str)
    (denoise : bool) (patient_id : option str) : M LongTranscript :=
  settings ← get_settings;
  if negb (stt_is_ready svc) then
    raise (HTTPException 503 (py "STT-Service nicht bereit."))
  else if bool_decide (audio_bytes = []) then
    raise (HTTPException 400 (py "Leere Audio-Datei."))
  else
    let audio_bytes :=
      if denoise then default audio_bytes (denoise_call svc audio_bytes)
      else audio_bytes in
    match stt_transcribe svc audio_bytes
            (or_str language (stt_language settings)) with
    | SttFailed msg =>
        raise (HTTPException 500 (py "Transkription fehlgeschlagen: " ++ msg))
    | SttOk result =>
        let duration := default (VInt 0) (stt_duration result) in
        let transcript indexed :=
          {| lt_text := stt_text result;
             lt_language := default (stt_language settings) (stt_lang result);
             lt_duration := duration;
             lt_filename := filename;
             lt_patient_id := patient_id;
             lt_denoised := denoise;
             lt_indexed := indexed |} in
        match patient_id with
        | Some (c :: p) =>
            try_except
              (_ ← add_transcript fuel
                     {| tr_text := Some (stt_text result);
                        tr_filename := Some (VStr filename);
                        tr_duration := Some duration |}
                     (c :: p);
               mret (transcript (Some true)))
              (λ e, mret (transcript (Some false)))
        | _ => mret (transcript None)
        end
    end.

End Audio.

(* ================================================================== *)
(** * The ingestion operations as a transition system *)
(* ================================================================== *)

Module Ingestion.
Import Documents Audio.

(** One call of a public ingestion endpoint, with the behaviour of the
    external services during that call. *)
Inductive Call :=
| Upload (ocr : UploadFile → OcrReply) (fuel : nat) (file : UploadFile)
    (document_type : str) (patient_id case_number : option str)
| TranscribeLong (svc : AudioServices) (fuel : nat) (filename : str)
    (audio_bytes : list Byte.byte) (language : option str) (denoise : bool)
    (patient_id : option str).

(** The state a call leaves behind, however it ends. *)
Definition run (c : Call) (w : World) : World :=
  match c with
  | Upload ocr fuel file document_type patient_id case_number =>
      (upload_document ocr fuel file document_type patient_id case_number w).2
  | TranscribeLong svc fuel filename audio language denoise patient_id =>
      (transcribe_long_audio svc fuel filename audio language denoise
         patient_id w).2
  end.

(** The states reached from [w0] by ingestion calls. *)
Inductive reachable (w0 : World) : World → Prop :=
| reach_start : reachable w0 w0
| reach_call w c : reachable w0 w → reachable w0 (run c w).

(** The document-level payload keys. *)
Definition document_fields : list str :=
  [ py "source"; py "document_type"; py "patient_id"; py "case_number";
    py "total_pages" ].

(** Two points of one document agree on every document-level field. *)
Definition metadata_consistent (pts : list Point) : Prop :=
  ∀ p q, p ∈ pts → q ∈ pts →
    is_Some (payload p !! py "document_id") →
    payload p !! py "document_id" = payload q !! py "document_id" →
    ∀ k, k ∈ document_fields → payload p !! k = payload q !! k.

End Ingestion.

(* ================================================================== *)
(** * app/rag/vectorstore.py: listing the documents *)
(* ================================================================== *)

Module Listing.
Import Qdrant VectorStore.

(** [==] on payload values, which decides whether two dictionary keys are
    the same key: strings by content, numbers by value (an integer and a
    float that denote the same number are one key). *)
Definition py_eq (a b : Value) : bool :=
  match a, b with
  | VStr s, VStr t => bool_decide (s = t)
  | VInt x, VInt y => x =? y
  | VFloat p, VFloat q => Qeq_bool p q
  | VInt x, VFloat q => Qeq_bool (inject_Z x) q
  | VFloat p, VInt y => Qeq_bool p (inject_Z y)
  | _, _ => false
  end.

(** One entry of the listing. *)
Record DocSummary := {
  doc_document_id : Value;
  doc_source : Value;
  doc_document_type : Value;
  doc_patient_id : Value;
  doc_case_number : Value;
  doc_total_pages : Value;
  doc_chunks : Z;
}.

(** The entry created when a [document_id] is seen for the first time. *)
Definition first_seen (doc_id : Value) (payload : dict) : DocSummary :=
  {| doc_document_id := doc_id;
     doc_source := default (VStr []) (payload !! py "source");
     doc_document_type := default (VStr []) (payload !! py "document_type");
     doc_patient_id := default (VStr []) (payload !! py "patient_id");
     doc_case_number := default (VStr []) (payload !! py "case_number");
     doc_total_pages := default (VInt 0) (payload !! py "total_pages");
     doc_chunks := 0 |}.

(** The dictionary [documents], in insertion order. *)
Abbreviation Documents := (list (Value * DocSummary)).

(** [doc_id in documents] *)
Definition contains (doc_id : Value) (documents : Documents) : bool :=
  existsb (λ entry, py_eq entry.1 doc_id) documents.

(** [documents[doc_id]["chunks"] += 1] *)
Fixpoint increment (doc_id : Value) (documents : Documents) : Documents :=
  match documents with
  | [] => []
  | (key, s) :: rest =>
      if py_eq key doc_id then
        (key,
         {| doc_document_id := doc_document_id s;
            doc_source := doc_source s;
            doc_document_type := doc_document_type s;
            doc_patient_id := doc_patient_id s;
            doc_case_number := doc_case_number s;
            doc_total_pages := doc_total_pages s;
            doc_chunks := doc_chunks s + 1 |}) :: rest
      else (key, s) :: increment doc_id rest
  end.

(** The body of [for point in points]; the scroll is made with
    [with_payload=True], so every record carries its payload. *)
Definition count_point (documents : Documents) (point : ScrollRecord)
    : Documents :=
  let payload := default ∅ (rec_payload point) in
  let doc_id :=
    default (VStr (py "unknown")) (payload !! py "document_id") in
  let documents :=
    if contains doc_id documents then documents
    else documents ++ [(doc_id, first_seen doc_id payload)] in
  increment doc_id documents.

(** The [while True] loop over the scroll pages ([batch_size = 100]);
    [Hang] when [fuel] pages were not enough. *)
Fixpoint list_documents_loop (fuel : nat) (documents : Documents)
    (offset : option str) : M Documents :=
  match fuel with
  | O => λ w, (Hang, w)
  | S fuel' =>
      results ← scroll None 100 offset true;
      let documents := fold_left count_point results.1 documents in
      match results.2 with
      | None => mret documents
      | Some next_offset =>
          list_documents_loop fuel' documents (Some next_offset)
      end
  end.

(** [VectorStoreService.list_documents] *)
Definition list_documents (fuel : nat) : M (list DocSummary) :=
  documents ← list_documents_loop fuel [] None;
  mret (snd <$> documents).

End Listing.

(* ================================================================== *)
(** * app/routes/documents.py: listing and deleting *)
(* ================================================================== *)

Module DocumentRoutes.
Import VectorStore Listing.

(** The body of [GET /documents]. *)
Record ListResponse := {
  lr_documents : list DocSummary;
  lr_total : Z;
}.

(** The route [list_documents] *)
Definition list_documents_route (fuel : nat) : M ListResponse :=
  try_except
    (docs ← list_documents fuel;
     mret {| lr_documents := docs; lr_total := Z.of_nat (length docs) |})
    (λ e, raise (HTTPException 500 (exn_str e))).

(** The body of [DELETE /documents/{document_id}]. *)
Record DeleteResponse := {
  dr_document_id : str;
  dr_chunks_deleted : Z;
}.

(** The route [delete_document] *)
Definition delete_document_route (document_id : str) : M DeleteResponse :=
  try_except
    (deleted ← delete_document document_id;
     mret {| dr_document_id := document_id; dr_chunks_deleted := deleted |})
    (λ e, raise (HTTPException 500 (exn_str e))).

End DocumentRoutes.

(* ================================================================== *)
(** * app/routes/rag.py: manual search *)
(* ================================================================== *)

Module Rag.
Import VectorStore.




End Rag.

(* ================================================================== *)
(** * app/routes/chat.py: the model list *)
(* ================================================================== *)

Module Models.

(** [s.split(sep)] for a one-character separator. *)
Fixpoint split_on (sep : N) (s : str) : list str :=
  match s with
  | [] => [[]]
  | c :: s' =>
      if (c =? sep)%N then [] :: split_on sep s'
      else
        match split_on sep s' with
        | segment :: segments => (c :: segment) :: segments
        | [] => [[c]]
        end
  end.

(** The one entry of ["data"] in the answer of [list_models]. *)
Record ModelEntry := {
  me_id : str;
  me_object : str;
  me_created : Z;
  me_owned_by : str;
}.

(** [list_models]; [now] is [int(time.time())]. *)
Definition list_models (now : Z) : M (list ModelEntry) :=
  settings ← get_settings;
  let model_id := List.last (split_on 47 (llm_model settings)) [] in
  mret [ {| me_id := model_id; me_object := py "model"; me_created := now;
            me_owned_by := py "local" |} ].

End Models.

(* ================================================================== *)
(** * The vocabulary of the statements *)
(* ================================================================== *)

Module Props.
Import Embedding Qdrant VectorStore Chat Ingestion.

(** A text that is empty or consists of whitespace only. *)
Definition blank (s : str) : Prop := Forall (λ c, isspace c = true) s.

(** [text] starts with [prefix]. *)
Definition has_prefix (prefix text : str) : Prop :=
  ∃ rest, text = prefix ++ rest.



(** The batches handed to the embedding model while [m] runs from [w]. *)
Definition new_calls {A} (m : M A) (w : World) : list (list str) :=
  drop (length (encode_calls w)) (encode_calls (m w).2).

(** Every key/value pair of the filter dictionary occurs in the payload. *)
Definition matches_all (filters : option dict) (p : Point) : Prop :=
  match filters with
  | None => True
  | Some fs => map_Forall (λ k v, payload p !! k = Some v) fs
  end.

#[global] Instance matches_all_dec filters p : Decision (matches_all filters p).
Proof. destruct filters; simpl; apply _. Defined.

Definition is_float (v : Value) : bool :=
  match v with
  | VFloat _ => true
  | _ => false
  end.

(** No value of the filter dictionary is a float. *)
Definition admissible (filters : option dict) : Prop :=
  match filters with
  | None => True
  | Some fs => map_Forall (λ _ v, is_float v = false) fs
  end.

#[global] Instance admissible_dec filters : Decision (admissible filters).
Proof. destruct filters; simpl; apply _. Defined.

(** The record [search] makes of a stored point, for the query vector [v]. *)
Definition result_of (w : World) (v : Vector) (p : Point) : SearchResult :=
  {| res_text := default (VStr []) (payload p !! py "text");
     res_score := distance w v (vector p);
     res_metadata := base.delete (py "text") (payload p) |}.

(** Results in descending score order. *)
Definition descending (rs : list SearchResult) : Prop :=
  StronglySorted (λ a b, (res_score b <= res_score a)%Q) rs.

(** [p] is a point of document [document_id]. *)
Definition in_document (document_id : str) (p : Point) : Prop :=
  payload p !! py "document_id" = Some (VStr document_id).

#[global] Instance in_document_dec d p : Decision (in_document d p).
Proof. unfold in_document. apply _. Defined.

(** A result meets the similarity threshold. *)
Definition meets (threshold : Q) (r : SearchResult) : Prop :=
  (threshold <= res_score r)%Q.

#[global] Instance meets_dec threshold r : Decision (meets threshold r).
Proof. unfold meets, Qle. apply Z.le_dec. Defined.

(** The citation kept for a result. *)
Definition citation (r : SearchResult) : Source :=
  {| src_source :=
       default (VStr (py "Unbekannt")) (res_metadata r !! py "source");
     src_page := default (VStr (py "?")) (res_metadata r !! py "page");
     src_score := res_score r |}.

(** What the retrieval step found: the results of [search], none when it
    raised. *)
Definition retrieved (query : str) (w : World) : list SearchResult :=
  match (search query (rag_top_k (settings w)) None w).1 with
  | Ok results => results
  | _ => []
  end.

(** The heading of the Sources section. *)
Definition sources_header : str :=
  newline ++ newline ++ py "---" ++ newline ++ py "**Quellen:**" ++ newline.

(** One line of the Sources section: source, page, relevance in percent. *)
Definition source_line (fmt : FloatFormat) (s : Source) : str :=
  py "- " ++ py_str fmt (src_source s) ++ py ", Seite "
    ++ py_str fmt (src_page s) ++ py " (Relevanz: "
    ++ format_pct fmt (src_score s) ++ py ")" ++ newline.

(** Two payloads differ in [page] and [text] only. *)
Definition agrees_off (m1 m2 : dict) : Prop :=
  ∀ k, k ≠ py "page" → k ≠ py "text" → m1 !! k = m2 !! k.

(** [p] is a chunk of document number [d], with document metadata [base]. *)
Definition member_of (base : dict) (d : nat) (p : Point) : Prop :=
  payload p !! py "document_id" = Some (VStr (uuid_str d)) ∧
  agrees_off (payload p) base.

(** From [w] to [w'] only chunks of document [d] were added. *)
Definition extends (base : dict) (d : nat) (w w' : World) : Prop :=
  (uuid_next w ≤ uuid_next w')%nat ∧
  ∀ p, p ∈ collection w' → p ∈ collection w ∨ member_of base d p.

(** Every stored point belongs to a document whose identifier was drawn
    earlier, and the points of one document differ in [page] and [text]
    only. *)
Definition Inv (w : World) : Prop :=
  (∀ p, p ∈ collection w →
     ∃ n, (n < uuid_next w)%nat ∧
          payload p !! py "document_id" = Some (VStr (uuid_str n))) ∧
  (∀ p q, p ∈ collection w → q ∈ collection w →
     payload p !! py "document_id" = payload q !! py "document_id" →
     agrees_off (payload p) (payload q)).

(** [m] only ever adds chunks of document [d], however it ends. *)
Definition stable (base : dict) (d : nat) {A} (m : M A) : Prop :=
  ∀ w, extends base d w (m w).2.

End Props.

(* ================================================================== *)
(** * Concrete inputs used by the examples below *)
(* ================================================================== *)

Module Demo.
Import VectorStore Chat Documents Audio Ingestion.

(** A one-dimensional embedding model and the dot product as similarity. *)
Definition unit_encode (texts : list str) : list Vector :=
  (λ _, [1%Q]) <$> texts.

Fixpoint dot (q v : Vector) : Q :=
  match q, v with
  | a :: q', b :: v' => (a * b + dot q' v')%Q
  | _, _ => 0%Q
  end.

(** A database that answers every call. *)
Definition reliable : Client :=
  {| upsert_error := λ _ _, None; query_error := λ _ _ _, None;
     limit_message := λ _, py "limit"; match_message := λ _, py "value" |}.

Definition stored (id : str) (coordinate : Q) (text : str) (page : Z)
    (patient : str) : Point :=
  {| point_id := id; vector := [coordinate];
     payload := {[ py "text" := VStr text;
                   py "source" := VStr (py "Akte.pdf");
                   py "document_id" := VStr (uuid_str 0);
                   py "document_type" := VStr (py "gerichtsakte");
                   py "patient_id" := VStr patient;
                   py "page" := VInt page ]} |}.

Definition empty_world : World :=
  {| settings := default_settings; emb_model := Some unit_encode;
     encode_calls := []; distance := dot; collection := []; uuid_next := 0;
     client := reliable |}.

(** Three stored chunks, two of them of patient [P-17]. *)
Definition library_world : World :=
  {| settings := default_settings; emb_model := Some unit_encode;
     encode_calls := []; distance := dot;
     collection :=
       [ stored (uuid_str 1) (3 # 4) (py "Anamnese") 1 (py "P-17");
         stored (uuid_str 2) (9 # 10) (py "Befund") 2 (py "P-17");
         stored (uuid_str 3) (1 # 2) (py "Verlauf") 3 (py "P-20") ];
     uuid_next := 4; client := reliable |}.

Definition plain_format : FloatFormat :=
  {| float_repr := λ _, py "0.0";
     format_2f := λ _, py "0.00";
     format_pct := λ _, py "0%" |}.

Definition answer : ChatMessage :=
  {| role := py "assistant"; content := py "Antwort" |}.

(** A backend that answers with one choice, and one that answers with an
    empty ["choices"] list. *)
Definition answering_llm : LlmBackend :=
  {| post_completion := λ _, Reply {| choices := [answer] |};
     stream_lines := λ _, []; stream_failure := λ _, None |}.

Definition silent_llm : LlmBackend :=
  {| post_completion := λ _, Reply {| choices := [] |};
     stream_lines := λ _, []; stream_failure := λ _, None |}.

Definition request (msgs : list ChatMessage) : ChatCompletionRequest :=
  {| model := []; messages := msgs; temperature := None; max_tokens := None;
     stream := None; top_p := None; frequency_penalty := None;
     presence_penalty := None |}.

Definition question : ChatMessage :=
  {| role := py "user"; content := py "Welche Diagnose?" |}.

Definition empty_question : ChatMessage :=
  {| role := py "user"; content := [] |}.

Definition scan : UploadFile :=
  {| filename := py "Akte.PDF"; file_bytes := [Byte.x25; Byte.x50] |}.

(** An OCR answer whose text is two spaces and a line break. *)
Definition blank_result : OcrResult :=
  {| ocr_markdown := Some [32; 32; 10]%N; ocr_pages := Some [];
     ocr_total_pages := Some 1 |}.

(** An OCR answer with three pages, the second one empty. *)
Definition three_pages : OcrResult :=
  {| ocr_markdown := Some (repeat 97%N 60 ++ repeat 98%N 70);
     ocr_pages :=
       Some [ {| pg_text := Some (repeat 97%N 60); pg_page := Some 1 |};
              {| pg_text := Some []; pg_page := Some 2 |};
              {| pg_text := Some (repeat 98%N 70); pg_page := Some 3 |} ];
     ocr_total_pages := Some 3 |}.

(** A five-letter heading, a blank line, and one 600-character token. *)
Definition heading_text : str := py "Titel" ++ [10; 10]%N ++ repeat 120%N 600.

(** A five-letter word, 400 spaces, and one 200-character token. *)
Definition lossy_text : str :=
  py "hello" ++ repeat 32%N 400 ++ repeat 120%N 200.

(** A stored chunk of document [document_id]. *)
Definition chunk_point (document_id : str) (i : nat) : Point :=
  {| point_id := uuid_str i; vector := [];
     payload := {[ py "document_id" := VStr document_id ]} |}.

(** A collection holding one document of 10001 chunks. *)
Definition large_document_world : World :=
  {| settings := default_settings; emb_model := None; encode_calls := [];
     distance := λ _ _, 0%Q;
     collection := chunk_point (py "akte-1") <$> seq 0 (Z.to_nat 10001);
     uuid_next := Z.to_nat 10001; client := reliable |}.

(** Uploading the three-page scan into an empty collection, then indexing
    a transcript. *)
Definition upload_then_transcript : World :=
  run (TranscribeLong
         {| stt_is_ready := true;
            stt_transcribe := λ _ _,
              SttOk {| stt_text := repeat 99%N 80; stt_lang := None;
                       stt_duration := Some (VFloat (25 # 2)) |};
            denoise_call := λ _, None |}
         4 (py "sitzung.wav") [Byte.x01] None true (Some (py "P-17")))
    (run (Upload (λ _, OcrOk three_pages) 4 scan (py "gerichtsakte")
            (Some (py "P-17")) None)
       empty_world).

End Demo.

(* ================================================================== *)
(** * Further vocabulary *)
(* ================================================================== *)

Module PropsMore.
Import Embedding Qdrant VectorStore Chat Documents Audio Ingestion Listing
  Props.

(** A text without line breaks and spaces; it contains no separator. *)
Definition unbroken (t : str) : Prop := (10%N ∉ t) ∧ (32%N ∉ t).

(** The points [make_points] builds for [pairs], drawing identifiers
    from number [n] on. *)
Fixpoint points_from (metadata : dict) (n : nat) (pairs : list (str * Vector))
    : list Point :=
  match pairs with
  | [] => []
  | (chunk_text, embedding) :: rest =>
      {| point_id := uuid_str n; vector := embedding;
         payload := metadata ∪ {[ py "text" := VStr chunk_text ]} |}
        :: points_from metadata (S n) rest
  end.

(** The state after [n] identifiers were drawn. *)
Definition advance (n : nat) (w : World) : World := Nat.iter n bump_uuid w.

(** The identifier of every stored point was drawn from the supply. *)
Definition ids_below (w : World) : Prop :=
  Forall (λ p, ∃ n, (n < uuid_next w)%nat ∧ point_id p = uuid_str n)
    (collection w).

(** Every stored point carries a [document_id] drawn from the supply. *)
Definition doc_ids_below (w : World) : Prop :=
  Forall (λ p, ∃ n, (n < uuid_next w)%nat ∧
                    payload p !! py "document_id" = Some (VStr (uuid_str n)))
    (collection w).

(** The state of an index that was filled by the pipeline: point
    identifiers are pairwise distinct, and identifiers and document ids
    were drawn from the supply. *)
Definition Healthy (w : World) : Prop :=
  NoDup (point_id <$> collection w) ∧ ids_below w ∧ doc_ids_below w.

(** From [w] to [w'] exactly the points [new] were appended, under fresh
    identifiers. *)
Definition grows (w w' : World) (new : list Point) : Prop :=
  collection w' = collection w ++ new ∧
  (uuid_next w ≤ uuid_next w')%nat ∧
  NoDup (point_id <$> new) ∧
  Forall (λ p, ∃ n, (uuid_next w ≤ n < uuid_next w')%nat ∧
                    point_id p = uuid_str n) new.

(** [payload] contains every pair of [metadata]. *)
Definition carries (metadata : dict) (p : Point) : Prop :=
  ∀ k v, metadata !! k = Some v → payload p !! k = Some v.

(** The page numbers an upload stores points under: the numbers of the
    OCR pages whose text is not blank, or 0 when the OCR answer lists no
    pages. *)
Definition indexed_page_numbers (result : OcrResult) : list Z :=
  match default [] (ocr_pages result) with
  | [] => [0]
  | pages =>
      (λ page_info, default 0 (pg_page page_info))
        <$> filter (λ page_info, strip (default [] (pg_text page_info)) ≠ [])
              pages
  end.

(** The metadata dictionary of an upload whose document id is [doc_id]. *)
Definition upload_metadata (file : UploadFile) (doc_id document_type : str)
    (patient_id case_number : option str) (total_pages : Z) : dict :=
  {[ py "source" := VStr (filename file);
     py "document_id" := VStr doc_id;
     py "document_type" := VStr document_type;
     py "patient_id" := VStr (default [] patient_id);
     py "case_number" := VStr (default [] case_number);
     py "total_pages" := VInt total_pages ]}.

(** The metadata dictionary of a transcript whose document id is
    [doc_id]. *)
Definition transcript_metadata (transcript : Transcript)
    (patient_id doc_id : str) : dict :=
  {[ py "source" :=
       default (VStr (py "audio_transcript")) (tr_filename transcript);
     py "document_type" := VStr (py "transcript");
     py "patient_id" := VStr patient_id;
     py "duration" := default (VInt 0) (tr_duration transcript);
     py "document_id" := VStr doc_id;
     py "page" := VInt 0 ]}.

(** The chunks paired with the vectors the loaded model answers with. *)
Definition embedded (w : World) (chunks : list str) : list (str * Vector) :=
  match chunks, emb_model w with
  | _ :: _, Some encode =>
      zip chunks (encode ((λ doc, py "passage: " ++ doc) <$> chunks))
  | _, _ => []
  end.

(** The recording handed to the speech model: the denoised one when
    denoising is asked for and the denoiser answers. *)
Definition heard (svc : AudioServices) (denoise : bool)
    (audio : list Byte.byte) : list Byte.byte :=
  if denoise then default audio (denoise_call svc audio) else audio.

(** The transcript built from the [result] of the speech model. *)
Definition answer_for (settings : Settings) (result : SttResult)
    (filename : str) (patient_id : option str) (denoise : bool)
    (indexed : option bool) : LongTranscript :=
  {| lt_text := stt_text result;
     lt_language := default (stt_language settings) (stt_lang result);
     lt_duration := default (VInt 0) (stt_duration result);
     lt_filename := filename;
     lt_patient_id := patient_id;
     lt_denoised := denoise;
     lt_indexed := indexed |}.

(** The key a point is listed under: its [document_id], or ["unknown"]. *)
Definition doc_key (p : Point) : Value :=
  default (VStr (py "unknown")) (payload p !! py "document_id").

(** The scroll record of a point (payload included). *)
Definition as_record (p : Point) : ScrollRecord :=
  {| rec_id := point_id p; rec_payload := Some (payload p) |}.

(** One pass over all points, without paging. *)
Definition summarize (pts : list Point) : Documents :=
  fold_left count_point (as_record <$> pts) [].

(** The chunk count listed for [key] (0 when [key] is not listed). *)
Definition chunks_for (key : Value) (docs : list DocSummary) : Z :=
  match List.find (λ s, py_eq (doc_document_id s) key) docs with
  | Some s => doc_chunks s
  | None => 0
  end.

(** No two keys of the list are the same dictionary key. *)
Fixpoint distinct_keys (keys : list Value) : Prop :=
  match keys with
  | [] => True
  | key :: rest =>
      Forall (λ key', py_eq key key' = false) rest ∧ distinct_keys rest
  end.

(** The summary was created from the payload of the first of the points
    listed under its key. *)
Definition first_seen_wins (pts : list Point) (s : DocSummary) : Prop :=
  ∃ before p after,
    pts = before ++ p :: after ∧
    Forall (λ q, py_eq (doc_key q) (doc_key p) = false) before ∧
    doc_document_id s = doc_key p ∧
    doc_source s = doc_source (first_seen (doc_key p) (payload p)) ∧
    doc_document_type s
    = doc_document_type (first_seen (doc_key p) (payload p)) ∧
    doc_patient_id s = doc_patient_id (first_seen (doc_key p) (payload p)) ∧
    doc_case_number s = doc_case_number (first_seen (doc_key p) (payload p)) ∧
    doc_total_pages s = doc_total_pages (first_seen (doc_key p) (payload p)).

(** The separator between the parts of the context block. *)
Definition context_separator : str :=
  newline ++ newline ++ py "---" ++ newline ++ newline.

(** The part of the context block for the result of rank [i]. *)
Definition context_part (fmt : FloatFormat) (i : Z) (r : SearchResult) : str :=
  py "[Quelle " ++ str_of_Z i ++ py ": "
    ++ py_str fmt (src_source (citation r)) ++ py ", S."
    ++ py_str fmt (src_page (citation r)) ++ py "] (Relevanz: "
    ++ format_2f fmt (res_score r) ++ py ")" ++ newline
    ++ py_str fmt (res_text r).

(** The parts for the results [rs], numbered from 1. *)
Definition numbered_parts (fmt : FloatFormat) (rs : list SearchResult)
    : list str :=
  imap (λ i r, context_part fmt (Z.of_nat (S i)) r) rs.

(** [result] is the completion [reply], possibly with text appended to
    the content of its first choice. *)
Definition extends_completion (reply result : LlmResult) : Prop :=
  choices result = choices reply ∨
  ∃ first others extra,
    choices reply = first :: others ∧
    choices result = append_content extra first :: others.

(** A server-sent event: a [data: ] line closed by an empty line. *)
Definition sse_event (event : str) : Prop :=
  has_prefix (py "data: ") event ∧ ∃ line, event = line ++ newline ++ newline.

(** The event that closes a stream. *)
Definition done_event : str := py "data: [DONE]" ++ newline ++ newline.

(** The events relayed from the lines of the backend: the [data: ] lines,
    each closed by an empty line. *)
Definition relayed (lines : list str) : list str :=
  (λ line, line ++ newline ++ newline)
    <$> filter (λ line, take 6 line = py "data: ") lines.

(** The context shown when retrieval failed. *)
Definition unavailable : str := py "[Wissensdatenbank nicht verfügbar]".

(** What the chat endpoint does once the context is known. *)
Definition forwarded (llm : LlmBackend) (payload : LlmPayload)
    (streaming : bool) : Outcome ChatResponse :=
  if streaming then Ok (StreamingResponse (_stream_llm_response llm payload))
  else
    match post_completion llm payload with
    | Reply result => Ok (JsonResponse result)
    | Failed msg =>
        Raise (HTTPException 502 (py "LLM nicht erreichbar: " ++ msg))
    | Unreadable msg => Raise (ValueError msg)
    end.

(** The number a numeric value denotes. *)
Definition number_of (a : Value) : option Q :=
  match a with
  | VStr _ => None
  | VInt x => Some (inject_Z x)
  | VFloat q => Some q
  end.

(** The chunk count stored for [key]. *)
Definition chunks_in (key : Value) (docs : Documents) : Z :=
  match List.find (λ e, py_eq e.1 key) docs with
  | Some e => doc_chunks e.2
  | None => 0
  end.

(** Every entry is stored under its own [document_id]. *)
Definition keyed (docs : Documents) : Prop :=
  Forall (λ e, doc_document_id e.2 = e.1) docs.

(** The sum of the chunk counts. *)
Definition chunk_total (docs : Documents) : Z :=
  foldr (λ e acc, doc_chunks e.2 + acc) 0 docs.

(** The dictionary after the membership test of [count_point]. *)
Definition ensured (docs : Documents) (p : Point) : Documents :=
  if contains (doc_key p) docs then docs
  else docs ++ [(doc_key p, first_seen (doc_key p) (payload p))].

(** What the listing knows after the points [seen]. *)
Definition listing_of (seen : list Point) (docs : Documents) : Prop :=
  keyed docs ∧
  distinct_keys docs.*1 ∧
  chunk_total docs = Z.of_nat (length seen) ∧
  (∀ key, chunks_in key docs
          = Z.of_nat (length (filter (λ p, py_eq (doc_key p) key = true) seen))) ∧
  Forall (λ e, first_seen_wins seen e.2) docs.

(** The error of an embedding service whose model is not loaded. *)
Definition not_initialised : Exn :=
  RuntimeError (py "Embedding-Modell nicht initialisiert.").

(** The completion returned in batched mode. *)
Definition sourced (fmt : FloatFormat) (sources : list Source)
    (reply : LlmResult) : LlmResult :=
  match sources, choices reply with
  | _ :: _, first :: others =>
      {| choices := append_content (source_text fmt sources) first :: others |}
  | _, _ => reply
  end.

End PropsMore.

(* ================================================================== *)
(** * More sample data *)
(* ================================================================== *)

Module DemoMore.
Import Embedding VectorStore Chat Documents Audio Demo.

(** Speech services that are ready and transcribe every recording to the
    same 80 characters, 12.5 seconds long; the denoiser is down. *)
Definition dictation : AudioServices :=
  {| stt_is_ready := true;
     stt_transcribe := λ _ _,
       SttOk {| stt_text := repeat 99%N 80; stt_lang := None;
                stt_duration := Some (VFloat (25 # 2)) |};
     denoise_call := λ _, None |}.

(** The answer to a dictation for patient P-17 that was indexed. *)
Definition dictation_answer : LongTranscript :=
  {| lt_text := repeat 99%N 80;
     lt_language := stt_language default_settings;
     lt_duration := VFloat (25 # 2);
     lt_filename := py "sitzung.wav";
     lt_patient_id := Some (py "P-17");
     lt_denoised := true;
     lt_indexed := Some true |}.

(** A database that stores the first batch it is sent and refuses every
    later one. *)
Definition one_batch_only : Client :=
  {| upsert_error := λ stored _,
       match stored with
       | [] => None
       | _ :: _ => Some (py "disk full")
       end;
     query_error := λ _ _ _, None;
     limit_message := λ _, py "limit"; match_message := λ _, py "value" |}.

(** An empty index on that database. *)
Definition small_disk_world : World :=
  {| settings := default_settings; emb_model := Some unit_encode;
     encode_calls := []; distance := dot; collection := []; uuid_next := 0;
     client := one_batch_only |}.

(** The library on that database. *)
Definition full_disk_world : World :=
  {| settings := default_settings; emb_model := Some unit_encode;
     encode_calls := []; distance := dot;
     collection := collection library_world; uuid_next := 4;
     client := one_batch_only |}.

(** Two documents of 125 chunks each, stored alternately; the point
    identifiers run against the order of insertion. *)
Definition mixed_world : World :=
  {| settings := default_settings; emb_model := Some unit_encode;
     encode_calls := []; distance := dot;
     collection :=
       (λ i, chunk_point (if Nat.even i then py "akte-a" else py "akte-b")
               (250 - i)) <$> seq 0 250;
     uuid_next := 251; client := reliable |}.

(** A backend whose stream breaks after one event and one line of
    noise, and whose batched answer is not JSON. *)
Definition broken_llm : LlmBackend :=
  {| post_completion := λ _, Unreadable (py "Expecting value");
     stream_lines := λ _, [py "data: {}"; []; py "noise"];
     stream_failure := λ _, Some (HTTPError (py "peer closed connection")) |}.

Definition streamed (msgs : list ChatMessage) : ChatCompletionRequest :=
  {| model := []; messages := msgs; temperature := None; max_tokens := None;
     stream := Some true; top_p := None; frequency_penalty := None;
     presence_penalty := None |}.

(** The library with the embedding model not loaded. *)
Definition offline_world : World :=
  {| settings := default_settings; emb_model := None; encode_calls := [];
     distance := dot; collection := collection library_world;
     uuid_next := 4; client := reliable |}.

End DemoMore.

(* ================================================================== *)
(** * Properties of the chunker *)
(* ================================================================== *)

Module ChunkingFacts.
Import Chunking Props Demo.

Lemma length_lstrip s : (length (lstrip s) ≤ length s)%nat.
Proof.
  induction s as [|c s IH]; simpl; [lia|].
  destruct (isspace c); simpl; lia.
Qed.

Lemma length_strip s : (length (strip s) ≤ length s)%nat.
Proof.
  unfold strip, rstrip. rewrite length_rev.
  etrans; [apply length_lstrip|]. rewrite length_rev. apply length_lstrip.
Qed.

Lemma len_strip s : len (strip s) ≤ len s.
Proof. unfold len. pose proof (length_strip s). lia. Qed.

Lemma lstrip_head s c r : lstrip s = c :: r → isspace c = false.
Proof.
  induction s as [|d s IH]; simpl; [done|].
  destruct (isspace d) eqn:Hd; [done|]. by intros [= <- _].
Qed.

Lemma lstrip_nil s : lstrip s = [] ↔ blank s.
Proof.
  unfold blank. induction s as [|c s IH]; simpl.
  - split; [constructor|done].
  - destruct (isspace c) eqn:Hc.
    + rewrite IH. split; [by constructor|by inversion 1].
    + split; [done|]. inversion 1; congruence.
Qed.

Lemma strip_nil s : strip s = [] ↔ blank s.
Proof.
  unfold strip, rstrip. rewrite <- lstrip_nil.
  destruct (lstrip s) as [|c r] eqn:Hs; [done|].
  split; [|done]. intros Hrev.
  assert (lstrip (rev (c :: r)) = []) as Hb.
  { apply (f_equal (@rev N)) in Hrev. by rewrite rev_involutive in Hrev. }
  apply lstrip_nil in Hb. unfold blank in Hb.
  rewrite Forall_forall in Hb.
  specialize (Hb c). apply lstrip_head in Hs.
  rewrite Hb in Hs; [done|].
  apply list_elem_of_In, in_rev. rewrite rev_involutive. by left.
Qed.

(** ** Short texts *)

(** C6. For every text [t] with [len t ≤ chunk_size]: [chunk] returns the
    empty sequence when [t] is empty or whitespace-only, and exactly the
    one-element sequence [[strip t]] otherwise. *)
Theorem chunk_short_text (c : TextChunker) (fuel : nat) (t : str) :
  len t ≤ chunk_size c →
  (blank t → chunk c fuel t = Some []) ∧
  (¬ blank t → chunk c fuel t = Some [strip t]).
Proof.
  intros Hlen. unfold chunk. split; intros Hb.
  - apply strip_nil in Hb. rewrite Hb.
    rewrite (bool_decide_eq_true_2 ([] = [])) by done.
    by rewrite orb_true_r.
  - assert (strip t ≠ []) as Hs by (by rewrite strip_nil).
    assert (t ≠ []) as Ht by (intros ->; apply Hb; constructor).
    rewrite !bool_decide_eq_false_2 by done. simpl.
    pose proof (len_strip t).
    destruct (Z.leb_spec (len (strip t)) (chunk_size c)); [done|lia].
Qed.

Lemma chunk_short_text_witness :
  len (py "  Befund: unauffaellig.  ") ≤ chunk_size default_chunker ∧
  chunk default_chunker 0 (py "  Befund: unauffaellig.  ")
  = Some [py "Befund: unauffaellig."].
Proof.
  assert (len (py "  Befund: unauffaellig.  ") ≤ chunk_size default_chunker)
    as Hlen by (vm_compute; discriminate).
  split; [exact Hlen|].
  apply (chunk_short_text default_chunker 0 _ Hlen).
  unfold blank. rewrite Forall_forall. intros H.
  specialize (H 66%N). vm_compute in H. apply diff_false_true, H.
  do 2 apply list_elem_of_further. apply list_elem_of_here.
Defined.

(** ** Long texts *)

Lemma chunk_long c fuel t :
  strip t ≠ [] → chunk_size c < len (strip t) →
  chunk c fuel t = chunk_loop c fuel (strip t) 0 [].
Proof.
  intros Hs Hlen. unfold chunk.
  assert (t ≠ []) as Ht by (intros ->; by apply Hs).
  rewrite !bool_decide_eq_false_2 by done. simpl.
  destruct (Z.leb_spec (len (strip t)) (chunk_size c)); [lia|done].
Qed.



Lemma keep_Forall (P : str → Prop) chunk chunks :
  Forall P chunks → (50 ≤ len chunk → P chunk) → Forall P (keep chunk chunks).
Proof.
  intros Hc Hp. unfold keep.
  destruct (negb _ && (50 <=? len chunk)) eqn:Hk; [|done].
  apply andb_prop in Hk as [_ Hk%Z.leb_le].
  apply Forall_app. split; [done|]. constructor; [auto|constructor].
Qed.


(** ** The scan can stall *)

Lemma heading_text_strip : strip heading_text = heading_text.
Proof. vm_compute. reflexivity. Qed.

Lemma heading_text_body :
  loop_body default_chunker heading_text 0 [] = Continue 0 [].
Proof. vm_compute. reflexivity. Qed.

Lemma heading_text_loop fuel :
  chunk_loop default_chunker fuel heading_text 0 [] = None.
Proof.
  induction fuel as [|fuel IH]; [reflexivity|]. cbn [chunk_loop].
  rewrite heading_text_body, IH.
  assert ((0 <? len heading_text) = true) as -> by (vm_compute; reflexivity).
  reflexivity.
Qed.

(** C2. With the default configuration ([overlap = 64 < chunk_size = 512])
    the scan makes no progress on [heading_text]: the blank line after the
    heading is found again in every window, the next start is clamped back
    to [0], and [chunk] returns for no amount of fuel. *)
Theorem chunk_stalls_after_heading :
  overlap default_chunker < chunk_size default_chunker ∧
  loop_body default_chunker heading_text 0 [] = Continue 0 [] ∧
  ∀ fuel, chunk default_chunker fuel heading_text = None.
Proof.
  split; [done|]. split; [apply heading_text_body|]. intros fuel.
  rewrite chunk_long, heading_text_strip; [apply heading_text_loop|..].
  - rewrite heading_text_strip. vm_compute. discriminate.
  - rewrite heading_text_strip. vm_compute. reflexivity.
Qed.

(** ** Short segments are dropped *)


(** ** Where a split can fall *)

Lemma rfind_from_range s sub lo k :
  rfind_from s sub lo k = -1 ∨
  (lo ≤ rfind_from s sub lo k < lo + Z.of_nat k ∧
   occurs_at s sub (rfind_from s sub lo k) = true).
Proof.
  induction k as [|k IH]; simpl; [by left|].
  destruct (occurs_at s sub (lo + Z.of_nat k)) eqn:Ho.
  - right. split; [lia|done].
  - destruct IH as [->|[? ?]]; [by left|right]. split; [lia|done].
Qed.

(** A match found in the window ends inside the window. *)
Lemma rfind_end s sub a b :
  0 ≤ b → 0 ≤ rfind s sub a b → rfind s sub a b + len sub ≤ b.
Proof.
  intros Hb Hr. unfold rfind in *.
  set (a' := if a <? 0 then Z.max 0 (a + len s) else a) in *.
  destruct (rfind_from_range s sub a'
              (Z.to_nat (adjust (len s) b - len sub - a' + 1)))
    as [H|[H _]]; [lia|].
  assert (adjust (len s) b ≤ b).
  { unfold adjust. destruct (Z.ltb_spec b 0); lia. }
  lia.
Qed.

Lemma best_split_of_range text start end_ seps :
  0 ≤ start ≤ end_ →
  start ≤ best_split_of text start end_ seps ≤ end_ ∧
  (start < end_ → start < best_split_of text start end_ seps).
Proof.
  intros H. induction seps as [|sep seps IH]; simpl; [lia|].
  destruct (Z.ltb_spec start (rfind text sep start end_)) as [Hlt|]; [|done].
  pose proof (rfind_end text sep start end_). unfold len in *. lia.
Qed.

Lemma len_slice s a b : 0 ≤ a ≤ b → len (slice s a b) ≤ b - a.
Proof.
  intros H. unfold slice, adjust, len.
  rewrite length_take, length_drop.
  destruct (Z.ltb_spec a 0), (Z.ltb_spec b 0); lia.
Qed.

(** ** The windows cover the text *)





End ChunkingFacts.

(* ================================================================== *)
(** * Properties of the embedding wrappers *)
(* ================================================================== *)

Module EmbeddingFacts.
Import Embedding Props.

Lemma embed_loaded texts encode w :
  emb_model w = Some encode →
  embed texts w
  = (Ok (encode match texts with Single s => [s] | Batch l => l end),
     log_encode match texts with Single s => [s] | Batch l => l end w).
Proof. intros H. unfold embed. by rewrite H. Qed.

Lemma embed_not_loaded texts w :
  emb_model w = None →
  embed texts w
  = (Raise (RuntimeError (py "Embedding-Modell nicht initialisiert.")), w).
Proof. intros H. unfold embed. by rewrite H. Qed.

Lemma embed_query_loaded query encode w :
  emb_model w = Some encode →
  embed_query query w
  = (match encode [py "query: " ++ query] with
     | v :: _ => Ok v
     | [] => Raise IndexError
     end, log_encode [py "query: " ++ query] w).
Proof.
  intros H. unfold embed_query, mbind, M_bind.
  rewrite (embed_loaded _ encode) by done.
  by destruct (encode _).
Qed.

Lemma new_calls_log {A} (m : M A) texts w :
  (m w).2 = log_encode texts w → new_calls m w = [texts].
Proof.
  intros H. unfold new_calls. rewrite H. simpl. apply drop_app_length.
Qed.

Lemma new_calls_same {A} (m : M A) w : (m w).2 = w → new_calls m w = [].
Proof.
  intros H. unfold new_calls. rewrite H. apply drop_all.
Qed.

(** C7. [embed_query] hands the embedding model exactly the one-text
    batch ["query: " + query], and [embed_documents] exactly the batch of
    the documents each prefixed by ["passage: "]; when the model is not
    loaded both raise and hand it nothing.  So every text these wrappers
    pass on carries its role prefix. *)
Theorem role_prefix_always_applied (w : World) (query : str)
    (documents : list str) :
  match emb_model w with
  | Some encode =>
      new_calls (embed_query query) w = [[py "query: " ++ query]] ∧
      new_calls (embed_documents documents) w
        = [(λ doc, py "passage: " ++ doc) <$> documents] ∧
      (embed_documents documents w).1
        = Ok (encode ((λ doc, py "passage: " ++ doc) <$> documents)) ∧
      (embed_query query w).1
        = match encode [py "query: " ++ query] with
          | v :: _ => Ok v
          | [] => Raise IndexError
          end
  | None =>
      new_calls (embed_query query) w = [] ∧
      new_calls (embed_documents documents) w = []
  end ∧
  Forall (Forall (has_prefix (py "query: "))) (new_calls (embed_query query) w) ∧
  Forall (Forall (has_prefix (py "passage: ")))
    (new_calls (embed_documents documents) w).
Proof.
  destruct (emb_model w) as [encode|] eqn:Hm.
  - assert (new_calls (embed_query query) w = [[py "query: " ++ query]]) as Hq.
    { apply new_calls_log. by rewrite (embed_query_loaded _ encode). }
    assert (new_calls (embed_documents documents) w
            = [(λ doc, py "passage: " ++ doc) <$> documents]) as Hd.
    { apply new_calls_log. unfold embed_documents.
      by rewrite (embed_loaded _ encode). }
    rewrite Hq, Hd. repeat split.
    + unfold embed_documents. by rewrite (embed_loaded _ encode).
    + by rewrite (embed_query_loaded _ encode).
    + repeat constructor. by exists query.
    + repeat constructor. apply Forall_fmap, Forall_forall.
      intros doc _. by exists doc.
  - assert (new_calls (embed_query query) w = []) as Hq.
    { apply new_calls_same. unfold embed_query, mbind, M_bind.
      by rewrite embed_not_loaded. }
    assert (new_calls (embed_documents documents) w = []) as Hd.
    { apply new_calls_same. unfold embed_documents.
      by rewrite embed_not_loaded. }
    rewrite Hq, Hd. repeat split; constructor.
Qed.

End EmbeddingFacts.

(* ================================================================== *)
(** * Properties of the vector store *)
(* ================================================================== *)

Module VectorStoreFacts.
Import Embedding Qdrant VectorStore Props Demo EmbeddingFacts.

#[global] Instance score_ge_total : Total score_ge.
Proof.
  intros a b. unfold score_ge.
  destruct (Qlt_le_dec (sp_score a) (sp_score b)) as [H|H]; [right|left].
  - by apply Qlt_le_weak.
  - done.
Qed.

#[global] Instance score_ge_trans : Transitive score_ge.
Proof. intros a b c H1 H2. unfold score_ge in *. by eapply Qle_trans. Qed.

Lemma metadata_without_text (m : dict) :
  filter (λ kv, kv.1 ≠ py "text") m = base.delete (py "text") m.
Proof.
  apply map_eq. intros k. apply option_eq. intros x.
  rewrite map_lookup_filter_Some, lookup_delete_Some. simpl.
  split; intros [H1 H2]; split; congruence.
Qed.

Lemma format_hit_score_point w v p :
  format_hit (score_point (distance w) v p) = result_of w v p.
Proof.
  unfold format_hit, score_point, result_of. simpl.
  by rewrite metadata_without_text.
Qed.

(** ** The order of the point ids *)

Lemma id_leb_refl a : id_leb a a = true.
Proof.
  induction a as [|x a IH]; simpl; [done|].
  destruct (N.ltb_spec x x); [done|]. by rewrite N.eqb_refl.
Qed.

Lemma id_leb_total a b : id_leb a b = true ∨ id_leb b a = true.
Proof.
  revert b. induction a as [|x a IH]; intros [|y b]; simpl; auto.
  destruct (N.ltb_spec x y), (N.ltb_spec y x); auto; try lia.
  assert (x = y) as -> by lia. rewrite N.eqb_refl. apply IH.
Qed.

Lemma id_leb_trans a b c :
  id_leb a b = true → id_leb b c = true → id_leb a c = true.
Proof.
  revert b c. induction a as [|x a IH]; intros [|y b] [|z c]; simpl; try done.
  destruct (N.ltb_spec x y), (N.ltb_spec y z), (N.ltb_spec x z);
    try done; try lia;
    destruct (N.eqb_spec x y), (N.eqb_spec y z), (N.eqb_spec x z);
    try done; try lia.
  apply IH.
Qed.

Lemma id_leb_antisym a b : id_leb a b = true → id_leb b a = true → a = b.
Proof.
  revert b. induction a as [|x a IH]; intros [|y b]; simpl; try done.
  destruct (N.ltb_spec x y), (N.ltb_spec y x); try done; try lia;
    destruct (N.eqb_spec x y), (N.eqb_spec y x); try done; try lia.
  intros H1 H2. subst y. f_equal. by apply IH.
Qed.

#[global] Instance id_le_total : Total id_le.
Proof. intros p q. apply id_leb_total. Qed.

#[global] Instance id_le_trans : Transitive id_le.
Proof. intros p q r. apply id_leb_trans. Qed.

Lemma scroll_order_Permutation pts : scroll_order pts ≡ₚ pts.
Proof. apply merge_sort_Permutation. Qed.

Lemma scroll_order_sorted pts : StronglySorted id_le (scroll_order pts).
Proof. apply StronglySorted_merge_sort; apply _. Qed.

(** ** Building the filter *)

Lemma conditions_of_admitted items w :
  Forall (λ kv, is_float kv.2 = false) items →
  ∃ conditions,
    conditions_of items w = (Ok conditions, w) ∧
    (λ c, (c.1, matched c.2)) <$> conditions = items.
Proof.
  induction 1 as [|[k v] items Hv Hitems (conditions & Hc & Heq)].
  - by exists [].
  - cbn [conditions_of]. unfold mbind, M_bind.
    destruct v as [s|z|q]; [| |done].
    + exists ((k, MatchStr s) :: conditions). cbn [match_value].
      rewrite Hc. split; [done|]. rewrite fmap_cons. by f_equal.
    + exists ((k, MatchInt z) :: conditions). cbn [match_value].
      rewrite Hc. split; [done|]. rewrite fmap_cons. by f_equal.
Qed.

Lemma conditions_of_refused items w :
  Exists (λ kv, is_float kv.2 = true) items →
  ∃ msg, conditions_of items w = (Raise (ValidationError msg), w).
Proof.
  induction items as [|[k v] items IH]; [by intros ?%Exists_nil|].
  intros Hex. cbn [conditions_of]. unfold mbind, M_bind.
  destruct v as [s|z|q]; cbn [match_value]; [| |by eexists].
  - apply Exists_cons in Hex as [?|Hex]; [done|].
    destruct (IH Hex) as [msg ->]. by exists msg.
  - apply Exists_cons in Hex as [?|Hex]; [done|].
    destruct (IH Hex) as [msg ->]. by exists msg.
Qed.

Lemma passes_conditions (conditions : list (str * MatchValue)) (fs : dict)
    (p : Point) :
  (λ c, (c.1, matched c.2)) <$> conditions = map_to_list fs →
  forallb (satisfies (payload p)) conditions = true
  ↔ map_Forall (λ k v, payload p !! k = Some v) fs.
Proof.
  intros Heq. rewrite map_Forall_to_list, <- Heq, Forall_fmap.
  rewrite forallb_forall, Forall_forall. unfold satisfies.
  split; intros H c Hc.
  - apply list_elem_of_In, H in Hc. by apply bool_decide_eq_true in Hc.
  - apply bool_decide_eq_true. by apply (H c), list_elem_of_In.
Qed.

(** A filter dictionary without float values becomes the conjunction of
    its conditions. *)
Lemma build_filter_admitted filters w :
  admissible filters →
  ∃ f, build_filter filters w = (Ok f, w) ∧
       ∀ p, passes f p = true ↔ matches_all filters p.
Proof.
  destruct filters as [fs|]; simpl; [|by exists None].
  intros Hadm. case_bool_decide as Hfs.
  { exists None. split; [done|]. subst fs. intros p.
    split; [intros _; apply map_Forall_empty|done]. }
  destruct (conditions_of_admitted (map_to_list fs) w)
    as (conditions & Hc & Heq).
  { apply map_Forall_to_list in Hadm. eapply Forall_impl; [exact Hadm|].
    by intros [k v]. }
  unfold mbind, M_bind. rewrite Hc.
  destruct conditions as [|c conditions].
  { rewrite fmap_nil in Heq. symmetry in Heq.
    by apply map_to_list_empty_iff in Heq. }
  exists (Some {| must := c :: conditions |}). split; [done|].
  intros p. by apply passes_conditions.
Qed.

(** A float among the values is refused when the filter is built. *)
Lemma build_filter_refused filters w :
  ¬ admissible filters →
  ∃ msg, build_filter filters w = (Raise (ValidationError msg), w).
Proof.
  destruct filters as [fs|]; simpl; [|done].
  intros Hadm. case_bool_decide as Hfs.
  { subst fs. destruct Hadm. apply map_Forall_empty. }
  destruct (conditions_of_refused (map_to_list fs) w) as [msg Hc].
  { assert (¬ Forall (λ kv : str * Value, is_float kv.2 = false)
                (map_to_list fs)) as Hn.
    { intros Hall. apply Hadm, map_Forall_to_list.
      eapply Forall_impl; [exact Hall|]. by intros [k v]. }
    apply not_Forall_Exists in Hn; [|apply _].
    eapply Exists_impl; [exact Hn|]. intros [k v]. simpl.
    by destruct (is_float v). }
  exists msg. unfold mbind, M_bind. by rewrite Hc.
Qed.

Lemma StronglySorted_take {A} (R : relation A) n l :
  StronglySorted R l → StronglySorted R (take n l).
Proof.
  intros H. rewrite <- (take_drop n l) in H.
  by apply StronglySorted_app_1_l in H.
Qed.

Lemma descending_fmap_format hits :
  StronglySorted score_ge hits → descending (format_hit <$> hits).
Proof.
  unfold descending. induction 1 as [|h hits Hs IH Hall]; simpl; constructor.
  - done.
  - apply Forall_fmap. eapply Forall_impl; [exact Hall|]. by intros b Hb.
Qed.





(** ** Deleting a document *)

Lemma passes_document_filter d p :
  passes (Some (document_filter d)) p = true ↔ in_document d p.
Proof.
  unfold passes, document_filter, must, satisfies, in_document. simpl.
  rewrite andb_true_r. apply bool_decide_eq_true.
Qed.

Lemma filter_Forall_id {A} (P : A → Prop) `{!∀ x, Decision (P x)} l :
  Forall P l → filter P l = l.
Proof.
  induction 1 as [|x l Hx Hl IH]; [done|].
  rewrite filter_cons_True by done. by rewrite IH.
Qed.

Lemma filter_Forall_nil {A} (P : A → Prop) `{!∀ x, Decision (P x)} l :
  Forall P l → filter (λ x, ¬ P x) l = [].
Proof.
  induction 1 as [|x l Hx Hl IH]; [done|].
  rewrite filter_cons_False by tauto. done.
Qed.

(** What [delete_document] does: it removes every point of the document,
    and reports the size of the first scroll page, which holds at most
    10000 of them. *)
Lemma delete_document_spec d w :
  delete_document d w
  = (Ok (Z.min 10000
           (Z.of_nat (length (filter (in_document d) (collection w))))),
     set_collection (filter (λ p, ¬ in_document d p) (collection w)) w).
Proof.
  unfold delete_document, mbind, M_bind, scroll, Qdrant.delete, mret, M_ret.
  cbn [fst snd collection set_collection].
  rewrite length_fmap, length_take.
  f_equal.
  - f_equal.
    rewrite (list_filter_iff _ (in_document d))
      by (intros p; apply passes_document_filter).
    rewrite (scroll_order_Permutation (collection w)).
    lia.
  - f_equal. apply list_filter_iff. intros p.
    rewrite <- passes_document_filter. by destruct (passes _ p).
Qed.

(** C3. On a collection whose document holds 10001 chunks,
    [delete_document] removes all 10001 points and returns 10000. *)
Theorem delete_document_undercounts :
  length (filter (in_document (py "akte-1")) (collection large_document_world))
  = Z.to_nat 10001 ∧
  delete_document (py "akte-1") large_document_world
  = (Ok 10000, set_collection [] large_document_world).
Proof.
  assert (Forall (in_document (py "akte-1")) (collection large_document_world))
    as Hall.
  { unfold large_document_world, collection. apply Forall_fmap, Forall_forall.
    intros i _. unfold in_document, chunk_point, payload. simpl.
    apply lookup_singleton_eq. }
  assert (length (collection large_document_world) = Z.to_nat 10001) as Hlen.
  { unfold large_document_world, collection.
    by rewrite length_fmap, length_seq. }
  split.
  - by rewrite filter_Forall_id.
  - rewrite delete_document_spec, filter_Forall_id, filter_Forall_nil, Hlen
      by done.
    by rewrite Z2Nat.id.
Qed.

End VectorStoreFacts.

(* ================================================================== *)
(** * Properties of the chat endpoint *)
(* ================================================================== *)

Module ChatFacts.
Import VectorStore Chat Props.

(** ** Query extraction *)

Lemma scan_user_skip skipped m rest :
  Forall (λ x, role x ≠ py "user") skipped →
  role m = py "user" →
  scan_user (skipped ++ m :: rest) = content m.
Proof.
  intros Hs Hm. induction Hs as [|x l Hx Hl IH]; simpl.
  - by rewrite bool_decide_eq_true_2.
  - by rewrite bool_decide_eq_false_2.
Qed.

Lemma extract_last_user body before m after :
  messages body = before ++ m :: after →
  role m = py "user" →
  Forall (λ x, role x ≠ py "user") after →
  extract_user_message body = content m.
Proof.
  intros Hb Hm Ha. unfold extract_user_message.
  rewrite Hb, rev_app_distr. simpl. rewrite <- app_assoc. simpl.
  apply scan_user_skip; [|done].
  apply Forall_forall. intros x Hx%list_elem_of_In%in_rev%list_elem_of_In.
  by rewrite Forall_forall in Ha; apply Ha.
Qed.

(** C10. When the last message with role ["user"] has empty content, the
    request is rejected with status 400 and nothing else happens, whatever
    messages (user messages with content included) precede it. *)
Theorem empty_last_user_message_rejected (fmt : FloatFormat)
    (llm : LlmBackend) (body : ChatCompletionRequest) (w : World)
    (before after : list ChatMessage) (m : ChatMessage) :
  messages body = before ++ m :: after →
  role m = py "user" →
  content m = [] →
  Forall (λ x, role x ≠ py "user") after →
  chat_completions fmt llm body w
  = (Raise (HTTPException 400 (py "Keine User-Nachricht gefunden.")), w).
Proof.
  intros Hb Hm Hc Ha. unfold chat_completions, mbind, M_bind, get_settings.
  rewrite (extract_last_user body before m after), Hc by done.
  by rewrite bool_decide_eq_true_2.
Qed.

(** ** Source attribution *)

Lemma cite_Some fmt th i r :
  meets th r → snd <$> cite fmt th i r = Some (citation r).
Proof.
  intros H. unfold cite. apply Qle_bool_iff in H. by rewrite H.
Qed.

Lemma cite_None fmt th i r : ¬ meets th r → cite fmt th i r = None.
Proof.
  intros H. unfold cite. destruct (Qle_bool th (res_score r)) eqn:E; [|done].
  by apply Qle_bool_iff in E.
Qed.

Lemma cite_all_sources fmt th results :
  snd <$> cite_all fmt th results = citation <$> filter (meets th) results.
Proof.
  unfold cite_all.
  enough (∀ g : nat → nat,
    snd <$> omap id (imap (λ i r, cite fmt th (Z.of_nat (g i)) r) results)
    = citation <$> filter (meets th) results) as H by apply (H S).
  induction results as [|r results IH]; intros g; [done|].
  rewrite imap_cons.
  destruct (decide (meets th r)) as [Hr|Hr].
  - rewrite filter_cons_True by done.
    pose proof (cite_Some fmt th (Z.of_nat (g 0%nat)) r Hr) as Hc.
    destruct (cite fmt th _ r) as [[part s]|]; [|done].
    injection Hc as ->. cbn [omap list_omap id]. rewrite !fmap_cons.
    f_equal. apply (IH (g ∘ S)).
  - rewrite filter_cons_False by done.
    rewrite (cite_None fmt th _ r Hr). cbn [omap list_omap id].
    apply (IH (g ∘ S)).
Qed.

Lemma source_text_lines fmt sources :
  source_text fmt sources
  = sources_header ++ concat (source_line fmt <$> sources).
Proof.
  unfold source_text. fold sources_header.
  generalize sources_header as acc.
  induction sources as [|s sources IH]; intros acc.
  - cbn [fold_left fmap list_fmap concat]. by rewrite app_nil_r.
  - cbn [fold_left]. rewrite IH, fmap_cons. cbn [concat].
    unfold source_line. rewrite <- !app_assoc. reflexivity.
Qed.

Lemma search_cases query top_k filters w :
  (∃ results w1, search query top_k filters w = (Ok results, w1)) ∨
  (∃ e w1, search query top_k filters w = (Raise e, w1)).
Proof.
  unfold search, mbind, M_bind, Embedding.embed_query, mbind, M_bind,
    Embedding.embed.
  destruct (emb_model w) as [encode|]; [|right; by eexists _, _].
  destruct (encode _) as [|v vs]; [right; by eexists _, _|].
  unfold mret, M_ret.
  destruct (decide (admissible filters)) as [Hadm|Hadm].
  - destruct (VectorStoreFacts.build_filter_admitted filters
                (log_encode [py "query: " ++ query] w) Hadm) as (f & -> & _).
    unfold Qdrant.query_points.
    destruct (top_k <=? 0); [right; by eexists _, _|].
    destruct (query_error _ _ _ _); [right|left]; by eexists _, _.
  - destruct (VectorStoreFacts.build_filter_refused filters
                (log_encode [py "query: " ++ query] w) Hadm) as (msg & ->).
    right. by eexists _, _.
Qed.

(** The retrieval block never raises; it returns the citations of the
    results that meet the threshold. *)
Lemma retrieve_sources fmt query w :
  ∃ context w1,
    retrieve fmt query w
    = (Ok (context,
           citation <$> filter (meets (rag_similarity_threshold (settings w)))
                          (retrieved query w)), w1).
Proof.
  unfold retrieve, retrieved, mbind at 1, M_bind at 1, get_settings,
    try_except, mbind, M_bind.
  destruct (search_cases query (rag_top_k (settings w)) None w)
    as [(results & w1 & ->)|(e & w1 & ->)]; cbn [fst].
  - destruct results as [|r rs]; [by eexists _, _|].
    eexists _, _. unfold mret, M_ret. by rewrite cite_all_sources.
  - by eexists _, _.
Qed.

(** C4, amended. In batched mode, when the backend answers with a
    completion, the list of sources is exactly the citations of the
    retrieval results that met the similarity threshold, and the response
    is the completion with the Sources section (header, then one line per
    citation giving source, page and relevance in percent) appended to the
    content of its first choice if and only if that list is non-empty and
    the completion has at least one choice; otherwise the completion is
    returned unchanged. *)
Theorem sources_section_appended (fmt : FloatFormat) (llm : LlmBackend)
    (body : ChatCompletionRequest) (w w1 : World) (context : str)
    (sources : list Source) (result : LlmResult) :
  default false (stream body) = false →
  extract_user_message body ≠ [] →
  retrieve fmt (extract_user_message body) w = (Ok (context, sources), w1) →
  post_completion llm (build_llm_payload (settings w) body context)
  = Reply result →
  sources
  = citation <$> filter (meets (rag_similarity_threshold (settings w)))
                   (retrieved (extract_user_message body) w) ∧
  (sources ≠ [] ↔
   Exists (meets (rag_similarity_threshold (settings w)))
     (retrieved (extract_user_message body) w)) ∧
  source_text fmt sources
  = sources_header ++ concat (source_line fmt <$> sources) ∧
  chat_completions fmt llm body w
  = (Ok (JsonResponse
           match sources, choices result with
           | _ :: _, first :: others =>
               {| choices :=
                    append_content (source_text fmt sources) first :: others |}
           | _, _ => result
           end), w1).
Proof.
  intros Hstream Hq Hret Hllm.
  destruct (retrieve_sources fmt (extract_user_message body) w)
    as (context' & w1' & Hret').
  rewrite Hret in Hret'. injection Hret' as _ Hsrc _.
  split; [done|]. split; [|split; [apply source_text_lines|]].
  - rewrite Hsrc. rewrite Exists_exists. split.
    + destruct (filter _ _) as [|r rs] eqn:Hf; [done|]. intros _.
      assert (r ∈ filter (meets (rag_similarity_threshold (settings w)))
                (retrieved (extract_user_message body) w)) as Hr
        by (rewrite Hf; left).
      apply list_elem_of_filter in Hr as [? ?]. by exists r.
    + intros (r & Hr & Hm).
      assert (r ∈ filter (meets (rag_similarity_threshold (settings w)))
                (retrieved (extract_user_message body) w)) as Hin
        by (by apply list_elem_of_filter).
      intros Hnil%fmap_nil_inv. rewrite Hnil in Hin. by inversion Hin.
  - unfold chat_completions, mbind, M_bind, get_settings.
    rewrite bool_decide_eq_false_2 by done.
    rewrite Hret, Hstream. unfold try_except, mbind, M_bind.
    unfold _complete_llm_response. rewrite Hllm.
    by destruct sources, (choices result).
Qed.

End ChatFacts.

(* ================================================================== *)
(** * Properties of the upload endpoint *)
(* ================================================================== *)

Module DocumentsFacts.
Import Documents Props ChunkingFacts.

(** C9. When the OCR service answers an accepted upload (non-empty file,
    name ending in [.pdf]) with text that is empty or whitespace-only, the
    endpoint raises the 422 error and leaves the whole state, the
    collection included, as it was. *)
Theorem blank_ocr_text_unprocessable (ocr : UploadFile → OcrReply)
    (fuel : nat) (file : UploadFile) (document_type : str)
    (patient_id case_number : option str) (result : OcrResult) (w : World) :
  file_bytes file ≠ [] →
  endswith (lower (filename file)) (py ".pdf") = true →
  ocr file = OcrOk result →
  blank (default [] (ocr_markdown result)) →
  upload_document ocr fuel file document_type patient_id case_number w
  = (Raise (HTTPException 422
              (py "OCR konnte keinen Text aus dem PDF extrahieren.")), w).
Proof.
  intros Hbytes Hpdf Hocr Hblank. unfold upload_document.
  rewrite bool_decide_eq_false_2, Hpdf, Hocr by done. simpl.
  apply strip_nil in Hblank. by rewrite Hblank.
Qed.

End DocumentsFacts.

(* ================================================================== *)
(** * The metadata invariant of ingestion *)
(* ================================================================== *)

Module IngestionFacts.
Import Embedding VectorStore Documents Audio Ingestion Props.

(** ** Fresh identifiers *)

#[global] Instance N_of_ascii_inj : Inj (=) (=) N_of_ascii.
Proof.
  intros a b H. apply (f_equal ascii_of_N) in H.
  by rewrite !ascii_N_embedding in H.
Qed.

#[global] Instance of_ascii_inj : Inj (=) (=) of_ascii.
Proof.
  intros s1 s2 H. unfold of_ascii in H. apply (inj _) in H.
  apply (f_equal string_of_list_ascii) in H.
  by rewrite !string_of_list_ascii_of_string in H.
Qed.

#[global] Instance uuid_str_inj : Inj (=) (=) uuid_str.
Proof.
  intros n1 n2 H. unfold uuid_str, str_of_Z in H.
  apply app_inv_head, (inj of_ascii), (inj pretty) in H. lia.
Qed.

Lemma text_ne_document_id : py "text" ≠ py "document_id".
Proof. vm_compute. discriminate. Qed.

Lemma page_ne_document_id : py "page" ≠ py "document_id".
Proof. vm_compute. discriminate. Qed.

Lemma with_text_lookup (metadata : dict) (chunk_text k : str) :
  k ≠ py "text" →
  (metadata ∪ {[ py "text" := VStr chunk_text ]}) !! k = metadata !! k.
Proof. intros Hk. apply lookup_union_l. by apply lookup_singleton_ne. Qed.

Section Stable.
Context (base : dict) (d : nat).

Local Abbreviation stable := (Props.stable base d).

Lemma extends_refl w : extends base d w w.
Proof. split; [lia|]. by left. Qed.

Lemma extends_trans w1 w2 w3 :
  extends base d w1 w2 → extends base d w2 w3 → extends base d w1 w3.
Proof.
  intros [Hn1 H1] [Hn2 H2]. split; [lia|].
  intros p [Hp|Hp]%H2; [by apply H1|by right].
Qed.

Lemma stable_ret {A} (a : A) : stable (mret a).
Proof. intros w. apply extends_refl. Qed.

Lemma stable_raise {A} e : stable (raise e : M A).
Proof. intros w. apply extends_refl. Qed.

Lemma stable_bind {A B} (Q : A → Prop) (m : M A) (k : A → M B) :
  stable m →
  (∀ w a w', m w = (Ok a, w') → Q a) →
  (∀ a, Q a → stable (k a)) →
  stable (m ≫= k).
Proof.
  intros Hm HQ Hk w. unfold mbind, M_bind.
  specialize (Hm w). destruct (m w) as [[a|e|] w1] eqn:Hmw; simpl in *.
  - eapply extends_trans; [exact Hm|]. apply Hk. by eapply HQ.
  - done.
  - done.
Qed.

Lemma stable_try_except {A} (m : M A) handler :
  stable m → (∀ e, stable (handler e)) → stable (try_except m handler).
Proof.
  intros Hm Hh w. unfold try_except.
  specialize (Hm w). destruct (m w) as [[a|e|] w1] eqn:Hmw; simpl in *.
  - done.
  - eapply extends_trans; [exact Hm|]. apply Hh.
  - done.
Qed.

Lemma stable_uuid4 : stable uuid4.
Proof. intros w. split; simpl; [lia|]. by left. Qed.

Lemma stable_embed texts : stable (embed texts).
Proof.
  intros w. unfold embed. destruct (emb_model w); simpl.
  - split; simpl; [lia|]. by left.
  - apply extends_refl.
Qed.

Lemma stable_run_chunk fuel text : stable (run_chunk fuel text).
Proof.
  intros w. unfold run_chunk. destruct (Chunking.chunk _ _ _); apply extends_refl.
Qed.

Lemma stable_upsert points :
  Forall (member_of base d) points → stable (Qdrant.upsert points).
Proof.
  intros Hp w. unfold Qdrant.upsert.
  destruct (upsert_error _ _ _); [apply extends_refl|].
  split; simpl; [lia|].
  unfold Qdrant.upsert_points. intros p [Hold|Hnew]%elem_of_app.
  - left. by apply list_elem_of_filter in Hold as [_ ?].
  - right. rewrite Forall_forall in Hp. by apply Hp.
Qed.

Lemma make_points_payload (pairs : list (str * Vector)) (metadata : dict)
    (w : World) (points : list Point) (w' : World) :
  make_points pairs metadata w = (Ok points, w') →
  Forall (λ p, ∃ chunk_text,
            payload p = metadata ∪ {[ py "text" := VStr chunk_text ]}) points.
Proof.
  revert w points w'.
  induction pairs as [|[chunk_text embedding] pairs IH]; intros w points w'.
  - intros [= <- _]. constructor.
  - cbn [make_points]. unfold mbind, M_bind, uuid4.
    destruct (make_points pairs metadata (bump_uuid w)) as [[pts|e|] w1] eqn:Hr;
      [|done..].
    intros [= <- _]. constructor; [by exists chunk_text|by eapply IH].
Qed.

Lemma stable_make_points (pairs : list (str * Vector)) (metadata : dict) :
  stable (make_points pairs metadata).
Proof.
  induction pairs as [|[chunk_text embedding] pairs IH]; cbn [make_points].
  - apply stable_ret.
  - apply (stable_bind (λ _, True)); [apply stable_uuid4|done|]. intros id _.
    apply (stable_bind (λ _, True)); [apply IH|done|]. intros pts _.
    apply stable_ret.
Qed.

Lemma stable_add_text (fuel : nat) (text : str) (metadata : dict) :
  metadata !! py "document_id" = Some (VStr (uuid_str d)) →
  agrees_off metadata base →
  stable (add_text fuel text metadata).
Proof.
  intros Hdoc Hbase. unfold add_text.
  apply (stable_bind (λ _, True)); [apply stable_run_chunk|done|].
  intros [|c cs] _; [apply stable_ret|].
  apply (stable_bind (λ _, True)); [apply stable_embed|done|].
  intros embeddings _.
  apply (stable_bind
           (Forall (λ p, ∃ chunk_text,
              payload p = metadata ∪ {[ py "text" := VStr chunk_text ]})));
    [apply stable_make_points|intros w pts w'; apply make_points_payload|].
  intros points Hpts.
  apply (stable_bind (λ _, True)); [|done|intros; apply stable_ret].
  apply stable_upsert. eapply Forall_impl; [exact Hpts|].
  intros p [chunk_text Hp]. split.
  - rewrite Hp, with_text_lookup; [done|].
    intros H. by apply text_ne_document_id.
  - intros k Hpage Htext. rewrite Hp, with_text_lookup by done.
    by apply Hbase.
Qed.

Lemma stable_index_pages (fuel : nat) (pages : list PageInfo)
    (metadata : dict) (chunks_indexed : Z) :
  metadata !! py "document_id" = Some (VStr (uuid_str d)) →
  agrees_off metadata base →
  stable (index_pages fuel pages metadata chunks_indexed).
Proof.
  intros Hdoc Hbase. revert chunks_indexed.
  induction pages as [|page_info rest IH]; intros chunks_indexed;
    cbn [index_pages].
  - apply stable_ret.
  - case_bool_decide; [apply IH|].
    apply (stable_bind (λ _, True)); [|done|intros; apply IH].
    apply stable_add_text.
    + rewrite lookup_insert_ne; [done|apply page_ne_document_id].
    + intros k Hpage Htext. rewrite lookup_insert_ne by done.
      by apply Hbase.
Qed.

End Stable.

(** A call that draws a fresh document identifier and then only adds
    chunks of that document keeps the invariant. *)
Lemma Inv_extends base w w' :
  Inv w → extends base (uuid_next w) (bump_uuid w) w' → Inv w'.
Proof.
  intros [Hid Hagree] [Hnext Hpts]. simpl in Hnext.
  assert (∀ p, p ∈ collection w' →
               payload p !! py "document_id"
               = Some (VStr (uuid_str (uuid_next w))) →
               member_of base (uuid_next w) p) as Hnew.
  { intros p [Hold|Hm]%Hpts Hdoc; [|done].
    destruct (Hid p Hold) as (n & Hn & Hpn). rewrite Hpn in Hdoc.
    assert (uuid_str n = uuid_str (uuid_next w)) as Heq%(inj uuid_str)
      by congruence.
    lia. }
  split.
  - intros p [Hold|[Hdoc _]]%Hpts.
    + destruct (Hid p Hold) as (n & Hn & Hpn). exists n. split; [lia|done].
    + exists (uuid_next w). split; [lia|done].
  - intros p q Hp Hq Hsame.
    destruct (Hpts p Hp) as [Hpold|[Hpdoc Hpbase]],
             (Hpts q Hq) as [Hqold|[Hqdoc Hqbase]].
    + by apply Hagree.
    + rewrite Hqdoc in Hsame. destruct (Hnew p Hp Hsame) as [_ Hpbase].
      intros k ??. rewrite Hpbase, Hqbase; done.
    + rewrite Hpdoc in Hsame. symmetry in Hsame.
      destruct (Hnew q Hq Hsame) as [_ Hqbase].
      intros k ??. rewrite Hpbase, Hqbase; done.
    + intros k ??. rewrite Hpbase, Hqbase; done.
Qed.

Lemma try_except_raise_state {A} (m : M A) (f : Exn → Exn) w :
  (try_except m (λ e, raise (f e)) w).2 = (m w).2.
Proof. unfold try_except, raise. by destruct (m w) as [[a|e|] w1]. Qed.

Lemma upload_document_Inv ocr fuel file document_type patient_id
    case_number w :
  Inv w →
  Inv (upload_document ocr fuel file document_type patient_id case_number w).2.
Proof.
  intros HI. unfold upload_document.
  case_bool_decide; [done|].
  destruct (negb _); [done|].
  destruct (ocr file) as [result|msg]; [|done].
  case_bool_decide; [done|].
  rewrite try_except_raise_state.
  unfold mbind at 1, M_bind at 1, uuid4.
  set (d := uuid_next w).
  match goal with
  | |- Inv (?body (bump_uuid w)).2 =>
      enough (∃ base, stable base d body) as [base Hst]
        by (eapply (Inv_extends base); [exact HI|apply Hst])
  end.
  eexists.
  apply (stable_bind _ _ (λ _, True)); [|done|intros; apply stable_ret].
  assert (∀ (m : dict) v, (<[py "source" := v]> m) !! py "document_id"
                          = m !! py "document_id") as Hsrc.
  { intros m v. apply lookup_insert_ne. vm_compute. discriminate. }
  destruct (default [] (ocr_pages result)).
  - apply stable_add_text.
    + rewrite lookup_insert_ne by apply page_ne_document_id.
      rewrite Hsrc. apply lookup_insert_eq.
    + intros k Hpage Htext. rewrite lookup_insert_ne by done. reflexivity.
  - apply stable_index_pages.
    + rewrite Hsrc. apply lookup_insert_eq.
    + done.
Qed.

Lemma transcribe_long_audio_Inv svc fuel filename audio language denoise
    patient_id w :
  Inv w →
  Inv (transcribe_long_audio svc fuel filename audio language denoise
         patient_id w).2.
Proof.
  intros HI. unfold transcribe_long_audio, mbind at 1, M_bind at 1, get_settings.
  destruct (negb _); [done|].
  case_bool_decide; [done|].
  destruct (stt_transcribe _ _ _) as [result|msg]; [|done].
  destruct patient_id as [[|c p]|]; [done| |done].
  unfold try_except, mbind at 1, M_bind at 1, add_transcript,
    mbind at 1, M_bind at 1, uuid4.
  set (d := uuid_next w).
  match goal with
  | |- context [ add_text fuel ?text ?metadata (bump_uuid w) ] =>
      assert (stable metadata d (add_text fuel text metadata)) as Hst
  end.
  { apply stable_add_text; [|done].
    rewrite !(lookup_insert_ne _ _ (py "document_id"))
      by (vm_compute; discriminate).
    apply lookup_insert_eq. }
  match goal with
  | |- context [ add_text fuel ?text ?metadata (bump_uuid w) ] =>
      specialize (Hst (bump_uuid w));
      destruct (add_text fuel text metadata (bump_uuid w)) as [[n|e|] w1]
  end; simpl in *; by eapply Inv_extends.
Qed.

Lemma reachable_Inv w0 w : Inv w0 → reachable w0 w → Inv w.
Proof.
  intros H0. induction 1 as [|w c Hr IH]; [done|].
  destruct c; simpl.
  - by apply upload_document_Inv.
  - by apply transcribe_long_audio_Inv.
Qed.

Lemma document_fields_level k :
  k ∈ document_fields → k ≠ py "page" ∧ k ≠ py "text".
Proof.
  unfold document_fields. rewrite !elem_of_cons, elem_of_nil.
  intros [->|[->|[->|[->|[->|[]]]]]]; split; vm_compute; discriminate.
Qed.

(** C8. In every state reached from an empty collection by document
    uploads and long-form transcriptions (however each call ends), any two
    points that carry the same [document_id] have equal payloads outside
    the keys [page] and [text]; in particular they agree on [source],
    [document_type], [patient_id], [case_number] and [total_pages]. *)
Theorem document_metadata_invariant (w0 w : World) :
  collection w0 = [] →
  reachable w0 w →
  metadata_consistent (collection w) ∧
  ∀ p q, p ∈ collection w → q ∈ collection w →
    payload p !! py "document_id" = payload q !! py "document_id" →
    ∀ k, k ≠ py "page" → k ≠ py "text" → payload p !! k = payload q !! k.
Proof.
  intros Hempty Hreach.
  assert (Inv w0) as H0.
  { split; [intros p Hp|intros p q Hp]; rewrite Hempty in Hp;
      by apply elem_of_nil in Hp. }
  destruct (reachable_Inv w0 w H0 Hreach) as [_ Hagree].
  split; [|exact Hagree].
  intros p q Hp Hq _ Hsame k [Hpage Htext]%document_fields_level.
  by apply Hagree.
Qed.

End IngestionFacts.

(* ================================================================== *)
(** * The theorems at concrete inputs *)
(* ================================================================== *)

Module Scenarios.
Import Chunking VectorStore Chat Documents Audio Ingestion Props Demo.
Import ChunkingFacts EmbeddingFacts VectorStoreFacts ChatFacts DocumentsFacts
  IngestionFacts.


Example search_library :
  (search (py "Befund") 5 (Some {[ py "patient_id" := VStr (py "P-17") ]})
     library_world).1
  = Ok [ {| res_text := VStr (py "Befund"); res_score := (9 # 10)%Q * 1 + 0;
            res_metadata := base.delete (py "text")
                              (payload (stored (uuid_str 2) (9 # 10)
                                          (py "Befund") 2 (py "P-17"))) |};
         {| res_text := VStr (py "Anamnese"); res_score := (3 # 4)%Q * 1 + 0;
            res_metadata := base.delete (py "text")
                              (payload (stored (uuid_str 1) (3 # 4)
                                          (py "Anamnese") 1 (py "P-17"))) |} ].
Proof. vm_compute. reflexivity. Qed.

(** C4, as stated, fails: in batched mode two retrieval results meet the
    threshold, but the backend's completion has no choice, and the response
    is that completion with no Sources section. *)
Lemma sources_not_appended_without_choices :
  default false (stream (request [question])) = false ∧
  Exists (meets (rag_similarity_threshold (settings library_world)))
    (retrieved (extract_user_message (request [question])) library_world) ∧
  (chat_completions plain_format silent_llm (request [question])
     library_world).1
  = Ok (JsonResponse {| choices := [] |}).
Proof.
  split; [reflexivity|]. split.
  - apply (bool_decide_unpack _). vm_compute. exact I.
  - vm_compute. reflexivity.
Qed.

Lemma sources_section_appended_witness :
  ∃ sources w1,
    sources ≠ [] ∧
    chat_completions plain_format answering_llm (request [question])
      library_world
    = (Ok (JsonResponse
             {| choices :=
                  [append_content (source_text plain_format sources) answer] |}),
       w1).
Proof.
  destruct (retrieve_sources plain_format
              (extract_user_message (request [question])) library_world)
    as (context & w1 & Hret).
  set (sources :=
         citation <$>
           filter (meets (rag_similarity_threshold (settings library_world)))
             (retrieved (extract_user_message (request [question]))
                library_world)) in *.
  exists sources, w1.
  destruct (sources_section_appended plain_format answering_llm
              (request [question]) library_world w1 context sources
              {| choices := [answer] |})
    as (_ & Hiff & _ & Hresp).
  - reflexivity.
  - vm_compute. discriminate.
  - exact Hret.
  - reflexivity.
  - assert (sources ≠ []) as Hne.
    { apply Hiff. apply (bool_decide_unpack _). vm_compute. exact I. }
    split; [exact Hne|]. rewrite Hresp.
    destruct sources; [done|reflexivity].
Defined.

Lemma blank_ocr_text_unprocessable_witness :
  upload_document (λ _, OcrOk blank_result) 8 scan (py "gerichtsakte")
    (Some (py "P-17")) None library_world
  = (Raise (HTTPException 422
              (py "OCR konnte keinen Text aus dem PDF extrahieren.")),
     library_world).
Proof.
  apply (blank_ocr_text_unprocessable (λ _, OcrOk blank_result) 8 scan
           (py "gerichtsakte") (Some (py "P-17")) None blank_result
           library_world).
  - discriminate.
  - vm_compute. reflexivity.
  - reflexivity.
  - repeat constructor.
Defined.

Lemma empty_last_user_message_rejected_witness :
  chat_completions plain_format answering_llm
    (request [question; answer; empty_question]) library_world
  = (Raise (HTTPException 400 (py "Keine User-Nachricht gefunden.")),
     library_world).
Proof.
  apply (empty_last_user_message_rejected plain_format answering_llm
           (request [question; answer; empty_question]) library_world
           [question; answer] [] empty_question).
  - reflexivity.
  - reflexivity.
  - reflexivity.
  - constructor.
Defined.

Example upload_then_transcript_pages :
  (λ p, (payload p !! py "document_id", payload p !! py "page"))
    <$> collection upload_then_transcript
  = [ (Some (VStr (uuid_str 0)), Some (VInt 1));
      (Some (VStr (uuid_str 0)), Some (VInt 3));
      (Some (VStr (uuid_str 3)), Some (VInt 0)) ].
Proof. vm_compute. reflexivity. Qed.

Lemma document_metadata_invariant_witness :
  metadata_consistent (collection upload_then_transcript).
Proof.
  refine (proj1 (document_metadata_invariant empty_world
                   upload_then_transcript _ _)).
  - reflexivity.
  - unfold upload_then_transcript. do 2 apply reach_call. apply reach_start.
Defined.

End Scenarios.

(* ================================================================== *)
(** * More on the chunker: shape of the chunks, termination *)
(* ================================================================== *)

Module ChunkingMore.
Import Chunking Props Demo PropsMore ChunkingFacts.

(** ** Trimming *)

Lemma lstrip_decompose s :
  ∃ pre, s = pre ++ lstrip s ∧ Forall (λ c, isspace c = true) pre.
Proof.
  induction s as [|c s (pre & Hs & Hpre)]; simpl.
  - by exists [].
  - destruct (isspace c) eqn:Hc.
    + exists (c :: pre). split; [by rewrite Hs at 1|by constructor].
    + by exists [].
Qed.

Lemma lstrip_fixed s :
  (∀ c r, s = c :: r → isspace c = false) → lstrip s = s.
Proof.
  destruct s as [|c r]; [done|]. intros H. simpl. by rewrite (H c r).
Qed.

Lemma lstrip_idem s : lstrip (lstrip s) = lstrip s.
Proof. apply lstrip_fixed. intros c r. apply lstrip_head. Qed.

Lemma lstrip_rstrip_lstrip s :
  lstrip (rstrip (lstrip s)) = rstrip (lstrip s).
Proof.
  apply lstrip_fixed. intros c r Hcr. unfold rstrip in Hcr.
  destruct (lstrip_decompose (rev (lstrip s))) as (pre & Hrev & _).
  apply (f_equal (@rev N)) in Hrev.
  rewrite rev_involutive, rev_app_distr, Hcr in Hrev.
  by apply (lstrip_head s c (r ++ rev pre)).
Qed.

Lemma strip_idem s : strip (strip s) = strip s.
Proof.
  unfold strip. rewrite lstrip_rstrip_lstrip.
  unfold rstrip. by rewrite rev_involutive, lstrip_idem.
Qed.

(** ** Where a split can fall *)

Lemma len_slice_from s a : 0 ≤ a → len (slice_from s a) ≤ len s - a ∨ len s ≤ a.
Proof.
  intros Ha. unfold slice_from, adjust, len. rewrite length_drop.
  destruct (Z.ltb_spec a 0); lia.
Qed.

(** The loop keeps [start] non-negative; what it keeps from a window is
    the trimmed window text. *)
Lemma chunk_loop_windows (P : str → Prop) c text :
  (∀ start, 0 ≤ start < len text → len text ≤ start + chunk_size c →
     50 ≤ len (strip (slice_from text start)) →
     P (strip (slice_from text start))) →
  (∀ start, 0 ≤ start < len text → start + chunk_size c < len text →
     let cut := best_split_of text start (start + chunk_size c) separators in
     50 ≤ len (strip (slice text start cut)) →
     P (strip (slice text start cut))) →
  ∀ fuel start chunks out,
    0 ≤ start → Forall P chunks →
    chunk_loop c fuel text start chunks = Some out → Forall P out.
Proof.
  intros Hlast Hmid. induction fuel as [|fuel IH]; intros start chunks out
    Hstart Hc; [done|].
  cbn [chunk_loop]. destruct (Z.ltb_spec start (len text)) as [Hlt|];
    [|by intros [= <-]].
  unfold loop_body.
  destruct (Z.leb_spec (len text) (start + chunk_size c)) as [Hend|Hend].
  - intros [= <-]. apply keep_Forall; [done|]. by apply Hlast.
  - apply IH.
    + destruct (Z.ltb_spec (best_split_of text start (start + chunk_size c)
                              separators - overlap c) 0); lia.
    + apply keep_Forall; [done|]. by apply Hmid.
Qed.

(** X1. Whenever [chunk] returns (with a non-negative [chunk_size]),
    every chunk is non-empty, has no leading or trailing whitespace, and
    is at most [chunk_size] characters long. *)
Theorem chunk_shape (c : TextChunker) (fuel : nat) (t : str)
    (chunks : list str) :
  0 ≤ chunk_size c →
  chunk c fuel t = Some chunks →
  Forall (λ ch, ch ≠ [] ∧ strip ch = ch ∧ len ch ≤ chunk_size c) chunks.
Proof.
  intros Hcs. unfold chunk.
  destruct (bool_decide (t = []) || bool_decide (strip t = [])) eqn:Hb;
    [intros [= <-]; constructor|].
  apply orb_false_elim in Hb as [_ Hs%bool_decide_eq_false]. simpl.
  destruct (Z.leb_spec (len (strip t)) (chunk_size c)) as [Hle|Hgt].
  - intros [= <-]. repeat constructor; [done|apply strip_idem|done].
  - apply chunk_loop_windows; [| |done|constructor].
    + intros start Hstart Hend H50. split; [|split; [apply strip_idem|]].
      * intros Hnil. rewrite Hnil in H50. unfold len in H50. simpl in H50. lia.
      * pose proof (len_strip (slice_from (strip t) start)).
        pose proof (len_slice_from (strip t) start). lia.
    + intros start Hstart Hend cut H50. split; [|split; [apply strip_idem|]].
      * intros Hnil. rewrite Hnil in H50. unfold len in H50. simpl in H50. lia.
      * pose proof (len_strip (slice (strip t) start cut)).
        destruct (best_split_of_range (strip t) start
                    (start + chunk_size c) separators) as [Hr _]; [lia|].
        fold cut in Hr.
        pose proof (len_slice (strip t) start cut). lia.
Qed.

Lemma chunk_shape_witness :
  Forall (λ ch, ch ≠ [] ∧ strip ch = ch ∧ len ch ≤ chunk_size default_chunker)
    [repeat 120%N 200].
Proof.
  apply (chunk_shape default_chunker 2 lossy_text [repeat 120%N 200]).
  - done.
  - vm_compute. reflexivity.
Defined.

(** ** Termination *)

(** If every pass through the loop body moves [start] forward, the loop
    ends within [len text] passes. *)
Lemma chunk_loop_progress c text :
  (∀ start chunks, 0 ≤ start < len text →
     match loop_body c text start chunks with
     | Continue start' _ => start < start'
     | Break _ => True
     end) →
  ∀ fuel start chunks,
    0 ≤ start → Z.max 0 (len text - start) < Z.of_nat fuel →
    ∃ out, chunk_loop c fuel text start chunks = Some out.
Proof.
  intros Hprog. induction fuel as [|fuel IH]; intros start chunks Hs Hfuel.
  - lia.
  - cbn [chunk_loop]. destruct (Z.ltb_spec start (len text)) as [Hlt|];
      [|by eexists].
    specialize (Hprog start chunks (conj Hs Hlt)).
    destruct (loop_body c text start chunks) as [start' chunks'|chunks'];
      [|by eexists].
    apply IH; lia.
Qed.

Lemma loop_body_forward c text start chunks :
  0 ≤ start < len text →
  start + overlap c
    < best_split_of text start (start + chunk_size c) separators →
  match loop_body c text start chunks with
  | Continue start' _ => start < start'
  | Break _ => True
  end.
Proof.
  intros Hs Hcut. unfold loop_body.
  destruct (len text <=? start + chunk_size c); [done|].
  destruct (Z.ltb_spec (best_split_of text start (start + chunk_size c)
                          separators - overlap c) 0); lia.
Qed.

Lemma chunk_total_by_progress c t :
  (∀ start, 0 ≤ start < len (strip t) →
     start + chunk_size c < len (strip t) →
     start + overlap c
       < best_split_of (strip t) start (start + chunk_size c) separators) →
  ∃ chunks, chunk c (S (length (strip t))) t = Some chunks.
Proof.
  intros Hcut. unfold chunk.
  destruct (bool_decide (t = []) || bool_decide (strip t = []));
    [by eexists|]. cbv beta iota zeta.
  destruct (len (strip t) <=? chunk_size c); [by eexists|].
  apply chunk_loop_progress; [|done|unfold len; lia].
  intros start chunks Hs. unfold loop_body.
  destruct (Z.leb_spec (len (strip t)) (start + chunk_size c)); [done|].
  specialize (Hcut start Hs ltac:(lia)).
  destruct (Z.ltb_spec (best_split_of (strip t) start (start + chunk_size c)
                          separators - overlap c) 0); lia.
Qed.

(** X2. Without overlap the scan always terminates: for [overlap ≤ 0] and
    a positive [chunk_size], [chunk] returns for every text, within
    [len(text) + 1] passes of the loop. *)
Theorem chunk_terminates_without_overlap (c : TextChunker) (t : str) :
  overlap c ≤ 0 → 0 < chunk_size c →
  ∃ chunks, chunk c (S (length (strip t))) t = Some chunks.
Proof.
  intros Hov Hcs. apply chunk_total_by_progress. intros start Hs _.
  destruct (best_split_of_range (strip t) start (start + chunk_size c)
              separators) as [_ Hr]; lia.
Qed.

Lemma chunk_terminates_without_overlap_witness :
  ∃ chunks,
    chunk {| chunk_size := 512; overlap := 0 |} (S (length (strip heading_text)))
      heading_text = Some chunks.
Proof.
  apply (chunk_terminates_without_overlap {| chunk_size := 512; overlap := 0 |}
           heading_text); simpl; lia.
Defined.

Lemma occurs_at_elem s sub i c :
  occurs_at s sub i = true → c ∈ sub → c ∈ s.
Proof.
  unfold occurs_at. intros H%bool_decide_eq_true Hc. rewrite <- H in Hc.
  by apply subseteq_take, subseteq_drop in Hc.
Qed.

Lemma rfind_absent s sub a b c : c ∈ sub → c ∉ s → rfind s sub a b = -1.
Proof.
  intros Hc Hs. unfold rfind.
  match goal with
  | |- rfind_from s sub ?lo ?k = -1 =>
      destruct (rfind_from_range s sub lo k) as [H|[_ H]]; [done|]
  end.
  exfalso. by eapply Hs, occurs_at_elem.
Qed.

Lemma separators_break : Forall (λ sep, 10%N ∈ sep ∨ 32%N ∈ sep) separators.
Proof.
  unfold separators. repeat constructor;
    first [ left; vm_compute; by repeat constructor
          | right; vm_compute; by repeat constructor ].
Qed.

Lemma best_split_of_unbroken t start end_ seps :
  unbroken t → 0 ≤ start →
  Forall (λ sep, 10%N ∈ sep ∨ 32%N ∈ sep) seps →
  best_split_of t start end_ seps = end_.
Proof.
  intros [Hn Hsp] Hs. induction 1 as [|sep seps Hsep _ IH]; simpl; [done|].
  assert (rfind t sep start end_ = -1) as ->.
  { destruct Hsep; by eapply rfind_absent. }
  destruct (Z.ltb_spec start (-1)); [lia|done].
Qed.

(** X3. On a text that contains no line break and no space after
    trimming, the scan terminates whenever [overlap < chunk_size]: every
    window is cut at its raw end and the next start lies
    [chunk_size - overlap] further. *)
Theorem chunk_terminates_on_unbroken_text (c : TextChunker) (t : str) :
  overlap c < chunk_size c → unbroken (strip t) →
  ∃ chunks, chunk c (S (length (strip t))) t = Some chunks.
Proof.
  intros Hov Hun. apply chunk_total_by_progress. intros start Hs _.
  rewrite best_split_of_unbroken; [lia|done|lia|apply separators_break].
Qed.

Lemma chunk_terminates_on_unbroken_text_witness :
  ∃ chunks,
    chunk default_chunker (S (length (strip (repeat 120%N 600))))
      (repeat 120%N 600) = Some chunks.
Proof.
  apply (chunk_terminates_on_unbroken_text default_chunker (repeat 120%N 600)).
  - done.
  - replace (strip (repeat 120%N 600)) with (repeat 120%N 600)
      by (vm_compute; reflexivity).
    split; intros H%list_elem_of_In%repeat_spec; discriminate.
Defined.

End ChunkingMore.

(* ================================================================== *)
(** * More on the vector store: indexing *)
(* ================================================================== *)

Module IndexingFacts.
Import Chunking Embedding VectorStore Props PropsMore Demo DemoMore.
Import ChunkingFacts EmbeddingFacts VectorStoreFacts IngestionFacts.

(** ** Drawing identifiers *)

Lemma advance_fields n w :
  uuid_next (advance n w) = (uuid_next w + n)%nat ∧
  collection (advance n w) = collection w ∧
  settings (advance n w) = settings w ∧
  emb_model (advance n w) = emb_model w ∧
  distance (advance n w) = distance w ∧
  encode_calls (advance n w) = encode_calls w ∧
  client (advance n w) = client w.
Proof.
  unfold advance. induction n as [|n (H1 & H2 & H3 & H4 & H5 & H6 & H7)]; simpl.
  - repeat split; lia.
  - repeat split; try done. lia.
Qed.

Lemma make_points_spec (pairs : list (str * Vector)) (metadata : dict)
    (w : World) :
  make_points pairs metadata w
  = (Ok (points_from metadata (uuid_next w) pairs), advance (length pairs) w).
Proof.
  revert w. induction pairs as [|[chunk_text embedding] pairs IH]; intros w.
  - reflexivity.
  - cbn [make_points points_from length]. unfold mbind, M_bind, uuid4.
    rewrite IH. unfold advance. by rewrite Nat.iter_succ_r.
Qed.

Lemma points_from_ids (metadata : dict) (n : nat)
    (pairs : list (str * Vector)) :
  point_id <$> points_from metadata n pairs = uuid_str <$> seq n (length pairs).
Proof.
  revert n. induction pairs as [|[c e] pairs IH]; intros n; [done|].
  cbn [points_from length seq fmap list_fmap]. f_equal. apply IH.
Qed.

Lemma length_points_from (metadata : dict) (n : nat)
    (pairs : list (str * Vector)) :
  length (points_from metadata n pairs) = length pairs.
Proof.
  revert n. induction pairs as [|[c e] pairs IH]; intros n; [done|].
  cbn [points_from length]. by rewrite IH.
Qed.

Lemma points_from_payload (metadata : dict) (n : nat)
    (pairs : list (str * Vector)) :
  payload <$> points_from metadata n pairs
  = (λ pair, metadata ∪ {[ py "text" := VStr pair.1 ]}) <$> pairs.
Proof.
  revert n. induction pairs as [|[c e] pairs IH]; intros n; [done|].
  cbn [points_from fmap list_fmap]. f_equal. apply IH.
Qed.

(** ** Appending under fresh identifiers *)

Lemma upsert_fresh new old :
  Forall (λ p, point_id p ∉ point_id <$> new) old →
  Qdrant.upsert_points new old = old ++ new.
Proof.
  intros H. unfold Qdrant.upsert_points. by rewrite filter_Forall_id.
Qed.

Lemma ids_below_fresh (w : World) (pairs : list (str * Vector))
    (metadata : dict) :
  ids_below w →
  Forall (λ p, point_id p ∉ point_id <$> points_from metadata (uuid_next w) pairs)
    (collection w).
Proof.
  intros H. eapply Forall_impl; [exact H|].
  intros p (m & Hm & Hp). rewrite points_from_ids, Hp.
  intros (k & ->%(inj uuid_str) & Hk%list_elem_of_In%in_seq)%list_elem_of_fmap.
  lia.
Qed.

Lemma grows_refl w : grows w w [].
Proof.
  split; [by rewrite app_nil_r|]. split; [lia|]. split; constructor.
Qed.

Lemma grows_trans w1 w2 w3 new1 new2 :
  grows w1 w2 new1 → grows w2 w3 new2 → grows w1 w3 (new1 ++ new2).
Proof.
  intros (Hc1 & Hn1 & Hd1 & Hi1) (Hc2 & Hn2 & Hd2 & Hi2).
  split; [by rewrite Hc2, Hc1, app_assoc|]. split; [lia|]. split.
  - rewrite fmap_app. apply NoDup_app. split; [done|]. split; [|done].
    intros id (p & -> & Hp)%list_elem_of_fmap (q & Hq & Hqin)%list_elem_of_fmap.
    rewrite Forall_forall in Hi1, Hi2.
    destruct (Hi1 p Hp) as (n & Hn & Hpn), (Hi2 q Hqin) as (m & Hm & Hqm).
    rewrite Hpn, Hqm in Hq. apply (inj uuid_str) in Hq. lia.
  - apply Forall_app. split.
    + eapply Forall_impl; [exact Hi1|]. intros p (n & ? & ?). exists n.
      split; [lia|done].
    + eapply Forall_impl; [exact Hi2|]. intros p (n & ? & ?). exists n.
      split; [lia|done].
Qed.

Lemma grows_ids_below w w' new : ids_below w → grows w w' new → ids_below w'.
Proof.
  intros Hw (Hc & Hn & _ & Hi). unfold ids_below. rewrite Hc.
  apply Forall_app. split.
  - eapply Forall_impl; [exact Hw|]. intros p (n & ? & ?). exists n.
    split; [lia|done].
  - eapply Forall_impl; [exact Hi|]. intros p (n & ? & ?). exists n.
    split; [lia|done].
Qed.

Lemma grows_NoDup w w' new :
  ids_below w → NoDup (point_id <$> collection w) → grows w w' new →
  NoDup (point_id <$> collection w').
Proof.
  intros Hw Hnd (Hc & Hn & Hd & Hi). rewrite Hc, fmap_app.
  apply NoDup_app. split; [done|]. split; [|done].
  intros id (p & -> & Hp)%list_elem_of_fmap (q & Hq & Hqin)%list_elem_of_fmap.
  unfold ids_below in Hw. rewrite Forall_forall in Hw, Hi.
  destruct (Hw p Hp) as (n & ? & Hpn), (Hi q Hqin) as (m & ? & Hqm).
  rewrite Hpn, Hqm in Hq. apply (inj uuid_str) in Hq. lia.
Qed.

Lemma fst_zip_take {A B} (l : list A) (k : list B) :
  (zip l k).*1 = take (length (zip l k)) l.
Proof.
  revert k. induction l as [|x l IH]; intros [|y k]; simpl; [done..|].
  f_equal. apply IH.
Qed.

Lemma library_world_Healthy : Healthy library_world.
Proof.
  split; [|split].
  - cbn [collection library_world fmap list_fmap stored point_id].
    apply (NoDup_fmap_2 uuid_str [1; 2; 3]%nat).
    apply (NoDup_seq 1 3).
  - unfold ids_below. cbn [collection library_world].
    apply Forall_cons_2; [exists 1%nat; split; [simpl; lia|done]|].
    apply Forall_cons_2; [exists 2%nat; split; [simpl; lia|done]|].
    apply Forall_cons_2; [exists 3%nat; split; [simpl; lia|done]|].
    constructor.
  - unfold doc_ids_below. cbn [collection library_world].
    assert (∀ id c t pg pa,
              payload (stored id c t pg pa) !! py "document_id"
              = Some (VStr (uuid_str 0))) as Hdoc.
    { intros. unfold stored, payload.
      rewrite !(lookup_insert_ne _ _ (py "document_id"))
        by (vm_compute; discriminate).
      apply lookup_insert_eq. }
    repeat (apply Forall_cons_2;
            [exists 0%nat; split; [simpl; lia|apply Hdoc]|]).
    constructor.
Qed.

(** ** What [add_text] does *)

(** The texts handed to the embedding model for [chunks]. *)
Lemma add_text_spec (fuel : nat) (text : str) (metadata : dict) (w : World) :
  add_text fuel text metadata w
  = match chunk (chunker_of (settings w)) fuel text with
    | None => (Hang, w)
    | Some [] => (Ok 0, w)
    | Some (ch :: chs) =>
        match emb_model w with
        | None =>
            (Raise (RuntimeError (py "Embedding-Modell nicht initialisiert.")),
             w)
        | Some encode =>
            let prefixed := (λ doc, py "passage: " ++ doc) <$> ch :: chs in
            let new := points_from metadata (uuid_next w)
                         (zip (ch :: chs) (encode prefixed)) in
            let w1 := advance (length (zip (ch :: chs) (encode prefixed)))
                        (log_encode prefixed w) in
            match upsert_error (client w) (collection w) new with
            | Some msg => (Raise (ClientError msg), w1)
            | None =>
                (Ok (Z.of_nat (length new)),
                 set_collection (Qdrant.upsert_points new (collection w)) w1)
            end
        end
    end.
Proof.
  unfold add_text, mbind at 1, M_bind at 1, run_chunk.
  destruct (chunk _ fuel text) as [[|ch chs]|]; [done| |done].
  unfold mbind at 1, M_bind at 1, embed_documents.
  destruct (emb_model w) as [encode|] eqn:Hm.
  - rewrite (embed_loaded _ encode) by done.
    unfold mbind at 1, M_bind at 1. rewrite make_points_spec.
    unfold mbind, M_bind, Qdrant.upsert, mret, M_ret.
    cbn [uuid_next log_encode].
    destruct (advance_fields
                (length (zip (ch :: chs)
                           (encode ((λ doc, py "passage: " ++ doc)
                                      <$> ch :: chs))))
                (log_encode ((λ doc, py "passage: " ++ doc) <$> ch :: chs) w))
      as (_ & Hc & _ & _ & _ & _ & Hcl).
    rewrite Hc, Hcl. cbn [collection client log_encode].
    by destruct (upsert_error _ _ _).
  - by rewrite embed_not_loaded.
Qed.

Lemma add_text_grows (fuel : nat) (text : str) (metadata : dict) (w : World) :
  ids_below w →
  ∃ new,
    grows w (add_text fuel text metadata w).2 new ∧
    Forall (λ p, ∃ chunk_text,
              payload p = metadata ∪ {[ py "text" := VStr chunk_text ]}) new ∧
    match (add_text fuel text metadata w).1 with
    | Ok n => n = Z.of_nat (length new)
    | _ => new = []
    end.
Proof.
  intros Hw. rewrite add_text_spec.
  destruct (chunk _ fuel text) as [[|ch chs]|];
    [exists []; split; [apply grows_refl|by split]| |
     exists []; split; [apply grows_refl|by split]].
  destruct (emb_model w) as [encode|] eqn:Hm;
    [|exists []; split; [apply grows_refl|by split]].
  set (prefixed := (λ doc, py "passage: " ++ doc) <$> ch :: chs).
  set (pairs := zip (ch :: chs) (encode prefixed)).
  cbv zeta. fold pairs.
  destruct (advance_fields (length pairs) (log_encode prefixed w))
    as (Hn & Hc & _).
  destruct (upsert_error _ _ _) as [msg|].
  { exists []. split; [|by split]. cbn [snd].
    split; [by rewrite Hc, app_nil_r|]. split; [rewrite Hn; simpl; lia|].
    split; constructor. }
  exists (points_from metadata (uuid_next w) pairs).
  split; [|split; [|done]].
  - split; [|split; [|split]].
    + cbn [snd collection set_collection].
      apply upsert_fresh. by apply ids_below_fresh.
    + cbn [snd uuid_next set_collection]. rewrite Hn. simpl. lia.
    + rewrite points_from_ids. apply (NoDup_fmap_2 _), NoDup_seq.
    + cbn [snd uuid_next set_collection]. rewrite Hn. cbn [uuid_next log_encode].
      apply Forall_forall. intros p Hp.
      assert (point_id p ∈ point_id <$> points_from metadata (uuid_next w) pairs)
        as Hid by (apply list_elem_of_fmap; eauto).
      rewrite points_from_ids in Hid.
      apply list_elem_of_fmap in Hid as (k & -> & Hk%list_elem_of_In%in_seq).
      exists k. split; [lia|done].
  - apply Forall_forall. intros p Hp.
    assert (payload p ∈ payload <$> points_from metadata (uuid_next w) pairs)
      as Hpl by (apply list_elem_of_fmap; eauto).
    rewrite points_from_payload in Hpl.
    apply list_elem_of_fmap in Hpl as ([c e] & -> & _). by exists c.
Qed.

(** The points a returning [add_text] stored: one per chunk the model
    answered with a vector, under the identifiers drawn next. *)
Lemma add_text_stored (fuel : nat) (text : str) (metadata : dict)
    (w w' : World) (n : Z) :
  ids_below w →
  add_text fuel text metadata w = (Ok n, w') →
  ∃ chunks,
    chunk (chunker_of (settings w)) fuel text = Some chunks ∧
    match chunks with
    | [] => w' = w ∧ n = 0
    | _ :: _ =>
        ∃ encode,
          emb_model w = Some encode ∧
          let new := points_from metadata (uuid_next w)
                       (zip chunks
                          (encode ((λ doc, py "passage: " ++ doc) <$> chunks))) in
          collection w' = collection w ++ new ∧ n = Z.of_nat (length new)
    end.
Proof.
  intros Hw Hadd. rewrite add_text_spec in Hadd.
  destruct (chunk _ fuel text) as [[|ch chs]|] eqn:Hchunk; [| |done].
  { injection Hadd as <- <-. by exists []. }
  destruct (emb_model w) as [encode|] eqn:Hm; [|done].
  cbv zeta in Hadd.
  destruct (upsert_error _ _ _) as [msg|]; [done|]. injection Hadd as <- <-.
  exists (ch :: chs). split; [done|]. exists encode. split; [done|].
  cbv zeta. split; [|done]. cbn [collection set_collection].
  apply upsert_fresh. by apply ids_below_fresh.
Qed.

(** X4. When [add_text] returns a count, exactly that many points were
    appended to the collection, behind the untouched existing points; each
    new point carries every key/value pair of [metadata], and when
    [metadata] has no ["text"] key the texts of the new points are the
    first chunks of the text, in order.  (A ["text"] key in [metadata]
    replaces the chunk text in every payload.) *)
Theorem add_text_appends (fuel : nat) (text : str) (metadata : dict)
    (w w' : World) (n : Z) :
  ids_below w →
  add_text fuel text metadata w = (Ok n, w') →
  ∃ new chunks,
    chunk (chunker_of (settings w)) fuel text = Some chunks ∧
    collection w' = collection w ++ new ∧
    n = Z.of_nat (length new) ∧
    (length new ≤ length chunks)%nat ∧
    Forall (carries metadata) new ∧
    (∀ v, metadata !! py "text" = Some v →
          Forall (λ p, payload p !! py "text" = Some v) new) ∧
    (metadata !! py "text" = None →
       (λ p, payload p !! py "text") <$> new
       = (λ ch, Some (VStr ch)) <$> take (length new) chunks).
Proof.
  intros Hw Hadd. rewrite add_text_spec in Hadd.
  destruct (chunk _ fuel text) as [[|ch chs]|] eqn:Hchunk; [| |done].
  { injection Hadd as <- <-. exists [], []. rewrite app_nil_r.
    repeat split; try done; by constructor. }
  destruct (emb_model w) as [encode|] eqn:Hm; [|done].
  set (prefixed := (λ doc, py "passage: " ++ doc) <$> ch :: chs) in *.
  set (pairs := zip (ch :: chs) (encode prefixed)) in *.
  cbv zeta in Hadd. fold pairs in Hadd.
  destruct (upsert_error _ _ _) as [msg|]; [done|]. injection Hadd as <- <-.
  exists (points_from metadata (uuid_next w) pairs), (ch :: chs).
  assert (∀ p, p ∈ points_from metadata (uuid_next w) pairs →
               ∃ c, payload p = metadata ∪ {[ py "text" := VStr c ]}) as Hpl.
  { intros p Hp.
    assert (payload p ∈ payload <$> points_from metadata (uuid_next w) pairs)
      as Hin by (apply list_elem_of_fmap; eauto).
    rewrite points_from_payload in Hin.
    apply list_elem_of_fmap in Hin as ([c e] & -> & _). by exists c. }
  split; [done|]. split; [|split; [done|split; [|split; [|split]]]].
  - cbn [collection set_collection]. apply upsert_fresh.
    by apply ids_below_fresh.
  - rewrite length_points_from. unfold pairs. rewrite length_zip_with. lia.
  - apply Forall_forall. intros p [c Hp]%Hpl k v Hk.
    rewrite Hp. by apply lookup_union_Some_l.
  - intros v Hv. apply Forall_forall. intros p [c Hp]%Hpl.
    rewrite Hp. by apply lookup_union_Some_l.
  - intros Hnone.
    assert (∀ pair : str * Vector,
              (metadata ∪ {[ py "text" := VStr pair.1 ]}) !! py "text"
              = Some (VStr pair.1)) as Htext.
    { intros pair. rewrite lookup_union_r by done. apply lookup_singleton_eq. }
    trans ((λ m : dict, m !! py "text")
             <$> (payload <$> points_from metadata (uuid_next w) pairs));
      [by rewrite <- list_fmap_compose|].
    rewrite points_from_payload, <- list_fmap_compose, length_points_from.
    trans ((λ c, Some (VStr c)) <$> pairs.*1).
    + rewrite <- list_fmap_compose. apply list_fmap_ext.
      intros i pair _. apply Htext.
    + f_equal. apply fst_zip_take.
Qed.

Lemma add_text_appends_witness :
  ∃ new chunks,
    chunk (chunker_of (settings library_world)) 4 (py "  Befund  ")
    = Some chunks ∧
    collection
      (add_text 4 (py "  Befund  ")
         {[ py "document_id" := VStr (py "d") ]} library_world).2
    = collection library_world ++ new ∧
    1 = Z.of_nat (length new) ∧
    (length new ≤ length chunks)%nat ∧
    Forall (carries {[ py "document_id" := VStr (py "d") ]}) new ∧
    (∀ v, ({[ py "document_id" := VStr (py "d") ]} : dict) !! py "text"
          = Some v →
          Forall (λ p, payload p !! py "text" = Some v) new) ∧
    (({[ py "document_id" := VStr (py "d") ]} : dict) !! py "text" = None →
       (λ p, payload p !! py "text") <$> new
       = (λ ch, Some (VStr ch)) <$> take (length new) chunks).
Proof.
  apply (add_text_appends 4 (py "  Befund  ")
           {[ py "document_id" := VStr (py "d") ]} library_world).
  - apply library_world_Healthy.
  - rewrite add_text_spec. vm_compute. reflexivity.
Defined.

(** X5. [add_text] writes its points in one step, the last one, or not
    at all: when it raises, for whatever reason, the collection is as
    before (an upsert that the database refuses stores nothing); when it
    hangs the state is as before; when it returns 0 the collection is as
    before; with the embedding model not loaded it changes nothing at all;
    an upsert the database refuses ends the call with the error of the
    database; and for a blank text it returns 0 without touching anything
    (the embedding model is not called). *)
Theorem add_text_all_or_nothing (fuel : nat) (text : str) (metadata : dict)
    (w : World) :
  match (add_text fuel text metadata w).1 with
  | Ok n => n = 0 → collection (add_text fuel text metadata w).2 = collection w
  | Raise e => collection (add_text fuel text metadata w).2 = collection w
  | Hang => (add_text fuel text metadata w).2 = w
  end ∧
  (emb_model w = None → (add_text fuel text metadata w).2 = w) ∧
  (∀ encode chunks msg,
     emb_model w = Some encode →
     chunk (chunker_of (settings w)) fuel text = Some chunks →
     chunks ≠ [] →
     upsert_error (client w) (collection w)
       (points_from metadata (uuid_next w)
          (zip chunks (encode ((λ doc, py "passage: " ++ doc) <$> chunks))))
     = Some msg →
     (add_text fuel text metadata w).1 = Raise (ClientError msg)) ∧
  (blank text → add_text fuel text metadata w = (Ok 0, w)).
Proof.
  rewrite add_text_spec. split; [|split; [|split]].
  - destruct (chunk _ fuel text) as [[|ch chs]|]; [done| |done].
    destruct (emb_model w) as [encode|]; [|done].
    cbv zeta.
    destruct (advance_fields
                (length (zip (ch :: chs)
                           (encode ((λ doc, py "passage: " ++ doc)
                                      <$> ch :: chs))))
                (log_encode ((λ doc, py "passage: " ++ doc) <$> ch :: chs) w))
      as (_ & Hc & _).
    destruct (upsert_error _ _ _) as [msg|]; [exact Hc|].
    cbn [fst snd collection set_collection].
    rewrite length_points_from. intros Hlen.
    destruct (zip _ _) as [|pair pairs]; [|simpl in Hlen; lia].
    cbn [points_from]. unfold Qdrant.upsert_points.
    rewrite app_nil_r. apply filter_Forall_id, Forall_forall.
    intros p _. cbn [fmap list_fmap]. apply not_elem_of_nil.
  - intros ->. by destruct (chunk _ fuel text) as [[|ch chs]|].
  - intros encode chunks msg -> -> Hne Herr.
    destruct chunks as [|ch chs]; [done|]. cbv zeta. by rewrite Herr.
  - intros Hb%strip_nil. unfold chunk. rewrite Hb.
    rewrite (bool_decide_eq_true_2 ([] = [])) by done.
    by rewrite orb_true_r.
Qed.

(** On a database that refuses the batch, [add_text] raises its error
    after the chunks were embedded; no point is stored. *)
Example add_text_refused :
  ∃ w', add_text 4 (py "  Befund  ") {[ py "document_id" := VStr (py "d") ]}
          full_disk_world
        = (Raise (ClientError (py "disk full")), w') ∧
        collection w' = collection full_disk_world ∧
        encode_calls w' = [[py "passage: " ++ py "Befund"]].
Proof. eexists. split; [vm_compute; reflexivity|]. split; reflexivity. Qed.

End IndexingFacts.

(* ================================================================== *)
(** * More on ingestion: what an upload stores *)
(* ================================================================== *)

Module UploadFacts.
Import Chunking Embedding VectorStore Documents Audio Ingestion.
Import Props PropsMore Demo DemoMore.
Import ChunkingFacts EmbeddingFacts VectorStoreFacts IngestionFacts
  IndexingFacts.

Ltac map_lookup :=
  repeat (rewrite lookup_insert_ne by (vm_compute; discriminate));
  first [ apply lookup_insert_eq
        | apply lookup_singleton_eq
        | apply lookup_singleton_ne; vm_compute; discriminate ].

Lemma ids_below_bump w : ids_below w → ids_below (bump_uuid w).
Proof.
  intros H. eapply Forall_impl; [exact H|]. intros p (n & ? & ?).
  exists n. split; [simpl; lia|done].
Qed.

Lemma grows_bump w w' new : grows (bump_uuid w) w' new → grows w w' new.
Proof.
  intros (Hc & Hn & Hd & Hi). simpl in *. split; [done|].
  split; [lia|]. split; [done|].
  eapply Forall_impl; [exact Hi|]. intros p (n & ? & ?). exists n.
  split; [lia|done].
Qed.

(** The pages loop appends the chunks of the non-blank pages, each under
    its page number. *)
Lemma index_pages_grows (fuel : nat) (pages : list PageInfo) (metadata : dict)
    (chunks_indexed : Z) (w : World) :
  ids_below w →
  ∃ new,
    grows w (index_pages fuel pages metadata chunks_indexed w).2 new ∧
    Forall (λ p, ∃ chunk_text page_info,
              page_info ∈ pages ∧
              strip (default [] (pg_text page_info)) ≠ [] ∧
              payload p
              = <[ py "page" := VInt (default 0 (pg_page page_info)) ]> metadata
                  ∪ {[ py "text" := VStr chunk_text ]}) new ∧
    match (index_pages fuel pages metadata chunks_indexed w).1 with
    | Ok n => n = chunks_indexed + Z.of_nat (length new)
    | _ => True
    end.
Proof.
  revert chunks_indexed w.
  induction pages as [|page_info rest IH]; intros chunks_indexed w Hw.
  - exists []. split; [apply grows_refl|]. split; [constructor|simpl; lia].
  - cbn [index_pages]. case_bool_decide as Hblank.
    + destruct (IH chunks_indexed w Hw) as (new & Hg & Hp & Hn).
      exists new. split; [done|]. split; [|done].
      eapply Forall_impl; [exact Hp|].
      intros p (c & pi & Hpi & ? & ?). exists c, pi.
      split; [by right|done].
    + set (md := <[ py "page" := VInt (default 0 (pg_page page_info)) ]>
                   metadata).
      destruct (add_text_grows fuel (default [] (pg_text page_info)) md w Hw)
        as (new1 & Hg1 & Hp1 & Hn1).
      unfold mbind, M_bind.
      destruct (add_text fuel (default [] (pg_text page_info)) md w)
        as [[count|e|] w1] eqn:Hadd; cbn [fst snd] in *.
      * destruct (IH (chunks_indexed + count) w1
                    (grows_ids_below _ _ _ Hw Hg1))
          as (new2 & Hg2 & Hp2 & Hn2).
        exists (new1 ++ new2). split; [by eapply grows_trans|]. split.
        -- apply Forall_app. split.
           ++ eapply Forall_impl; [exact Hp1|]. intros p [c Hc].
              exists c, page_info. split; [by left|done].
           ++ eapply Forall_impl; [exact Hp2|].
              intros p (c & pi & Hpi & ? & ?). exists c, pi.
              split; [by right|done].
        -- destruct (index_pages _ _ _ _ w1).1; [|done..].
           rewrite length_app. lia.
      * subst new1. exists []. split; [done|]. split; [constructor|done].
      * subst new1. exists []. split; [done|]. split; [constructor|done].
Qed.

(** The indexing block of an upload: pages if there are any, the whole
    text under page 0 otherwise. *)
Lemma upload_index_grows (fuel : nat) (result : OcrResult) (metadata : dict)
    (w : World) :
  ids_below w →
  let m : M Z :=
    match default [] (ocr_pages result) with
    | _ :: _ => index_pages fuel (default [] (ocr_pages result)) metadata 0
    | [] =>
        add_text fuel (default [] (ocr_markdown result))
          (<[ py "page" := VInt 0 ]> metadata)
    end in
  ∃ new,
    grows w (m w).2 new ∧
    Forall (λ p, ∃ chunk_text pg,
              pg ∈ indexed_page_numbers result ∧
              payload p = <[ py "page" := VInt pg ]> metadata
                            ∪ {[ py "text" := VStr chunk_text ]}) new ∧
    match (m w).1 with
    | Ok n => n = Z.of_nat (length new)
    | _ => True
    end.
Proof.
  intros Hw. unfold indexed_page_numbers.
  destruct (default [] (ocr_pages result)) as [|page_info rest] eqn:Hpages.
  - cbv zeta.
    destruct (add_text_grows fuel (default [] (ocr_markdown result))
                (<[ py "page" := VInt 0 ]> metadata) w Hw)
      as (new & Hg & Hp & Hn).
    exists new. split; [done|]. split.
    + eapply Forall_impl; [exact Hp|]. intros p [c Hc]. exists c, 0.
      split; [apply list_elem_of_here|done].
    + by destruct (add_text _ _ _ w).1.
  - cbv zeta.
    destruct (index_pages_grows fuel (page_info :: rest) metadata 0 w Hw)
      as (new & Hg & Hp & Hn).
    exists new. split; [done|]. split.
    + eapply Forall_impl; [exact Hp|].
      intros p (c & pi & Hpi & Hnb & Hpl).
      exists c, (default 0 (pg_page pi)). split; [|done].
      apply list_elem_of_fmap. exists pi. split; [done|].
      by apply list_elem_of_filter.
    + destruct (index_pages _ _ _ _ w).1; [lia|done..].
Qed.

(** What an upload does to the state and what it answers, however it
    ends. *)
Lemma upload_document_effect ocr fuel file document_type patient_id
    case_number w :
  ids_below w →
  let res :=
    upload_document ocr fuel file document_type patient_id case_number w in
  (res.2 = w ∧ ∀ r, res.1 ≠ Ok r) ∨
  (∃ result new,
     let metadata :=
       upload_metadata file (uuid_str (uuid_next w)) document_type
         patient_id case_number (default 0 (ocr_total_pages result)) in
     ocr file = OcrOk result ∧
     grows (bump_uuid w) res.2 new ∧
     Forall (λ p, ∃ chunk_text pg,
               pg ∈ indexed_page_numbers result ∧
               payload p = <[ py "page" := VInt pg ]> metadata
                             ∪ {[ py "text" := VStr chunk_text ]}) new ∧
     ∀ r, res.1 = Ok r →
          r = {| up_document_id := uuid_str (uuid_next w);
                 up_filename := filename file;
                 up_total_pages := default 0 (ocr_total_pages result);
                 up_chunks_indexed := Z.of_nat (length new);
                 up_characters_extracted :=
                   len (default [] (ocr_markdown result));
                 up_metadata := metadata |}).
Proof.
  intros Hw. cbv zeta. unfold upload_document.
  case_bool_decide; [by left|].
  destruct (negb _); [by left|].
  destruct (ocr file) as [result|msg] eqn:Hocr; [|by left].
  case_bool_decide; [by left|].
  right. exists result.
  unfold try_except, mbind at 1, M_bind at 1, uuid4.
  destruct (upload_index_grows fuel result
              (upload_metadata file (uuid_str (uuid_next w)) document_type
                 patient_id case_number (default 0 (ocr_total_pages result)))
              (bump_uuid w) (ids_below_bump w Hw)) as (new & Hg & Hp & Hn).
  exists new. unfold upload_metadata in *. cbv zeta in Hg, Hn.
  unfold mbind, M_bind.
  match type of Hg with
  | grows _ (?m (bump_uuid w)).2 new =>
      destruct (m (bump_uuid w)) as [[n|e|] w1] eqn:Hm
  end; unfold mret, M_ret; cbn [fst snd] in *.
  - split; [done|]. split; [done|]. split; [done|].
    intros r [= <-]. by rewrite Hn.
  - split; [done|]. split; [done|]. split; [done|]. by intros r.
  - split; [done|]. split; [done|]. split; [done|]. by intros r.
Qed.

Lemma filter_Forall_not_nil {A} (P : A → Prop) `{!∀ x, Decision (P x)} l :
  Forall (λ x, ¬ P x) l → filter P l = [].
Proof.
  induction 1 as [|x l Hx Hl IH]; [done|].
  by rewrite filter_cons_False.
Qed.

Lemma page_payload_facts (metadata : dict) (pg : Z) (chunk_text : str)
    (p : Point) :
  metadata !! py "page" = None →
  payload p = <[ py "page" := VInt pg ]> metadata
                ∪ {[ py "text" := VStr chunk_text ]} →
  carries metadata p ∧ payload p !! py "page" = Some (VInt pg).
Proof.
  intros Hnone Hp. unfold carries. rewrite Hp. split.
  - intros k v Hk. apply lookup_union_Some_l.
    rewrite lookup_insert_ne; [done|]. intros <-. congruence.
  - apply lookup_union_Some_l, lookup_insert_eq.
Qed.

Lemma upload_metadata_lookup file d document_type patient_id case_number tp :
  upload_metadata file d document_type patient_id case_number tp
    !! py "document_id" = Some (VStr d) ∧
  upload_metadata file d document_type patient_id case_number tp
    !! py "page" = None.
Proof. unfold upload_metadata. split; map_lookup. Qed.

Lemma doc_ids_below_fresh w :
  doc_ids_below w →
  Forall (λ p, ¬ in_document (uuid_str (uuid_next w)) p) (collection w).
Proof.
  intros H. eapply Forall_impl; [exact H|]. intros p (n & Hn & Hpn) Hin.
  unfold in_document in Hin.
  assert (uuid_str n = uuid_str (uuid_next w)) as Heq%(inj uuid_str)
    by congruence.
  lia.
Qed.

Lemma Healthy_grows w w' new :
  Healthy w →
  grows (bump_uuid w) w' new →
  Forall (in_document (uuid_str (uuid_next w))) new →
  Healthy w'.
Proof.
  intros (Hnd & Hids & Hdocs) Hg Hnew.
  pose proof (grows_bump _ _ _ Hg) as Hg'.
  split; [by eapply grows_NoDup|]. split; [by eapply grows_ids_below|].
  destruct Hg as (Hc & Hn & _). simpl in Hc, Hn.
  unfold doc_ids_below. rewrite Hc. apply Forall_app. split.
  - eapply Forall_impl; [exact Hdocs|]. intros p (n & ? & ?). exists n.
    split; [lia|done].
  - eapply Forall_impl; [exact Hnew|]. intros p Hp. exists (uuid_next w).
    split; [lia|done].
Qed.

(** X6. A successful upload into a healthy index appends exactly
    [chunks_indexed] points behind the existing ones.  Each new point
    carries the returned [document_id] (which no earlier point has), every
    pair of the returned metadata, and the number of a non-blank OCR page
    (0 when the OCR answer lists no pages); [total_pages] is the OCR
    service's count, blank pages included. *)
Theorem upload_document_stores (ocr : UploadFile → OcrReply) (fuel : nat)
    (file : UploadFile) (document_type : str)
    (patient_id case_number : option str) (w w' : World)
    (r : UploadResponse) :
  Healthy w →
  upload_document ocr fuel file document_type patient_id case_number w
  = (Ok r, w') →
  ∃ result new,
    ocr file = OcrOk result ∧
    collection w' = collection w ++ new ∧
    up_chunks_indexed r = Z.of_nat (length new) ∧
    up_total_pages r = default 0 (ocr_total_pages result) ∧
    Forall (λ p, in_document (up_document_id r) p ∧
                 carries (up_metadata r) p ∧
                 ∃ pg, pg ∈ indexed_page_numbers result ∧
                       payload p !! py "page" = Some (VInt pg)) new ∧
    Forall (λ p, ¬ in_document (up_document_id r) p) (collection w).
Proof.
  intros (Hnd & Hids & Hdocs) Hup.
  destruct (upload_document_effect ocr fuel file document_type patient_id
              case_number w Hids) as [[_ Hno]|(result & new & Hres)];
    rewrite Hup in *; cbn [fst snd] in *; [by destruct (Hno r)|].
  destruct Hres as (Hocr & Hg & Hp & Hr). specialize (Hr r eq_refl).
  exists result, new. subst r. cbn [up_chunks_indexed up_total_pages
    up_document_id up_metadata].
  destruct (upload_metadata_lookup file (uuid_str (uuid_next w)) document_type
              patient_id case_number (default 0 (ocr_total_pages result)))
    as [Hdoc Hpage].
  split; [done|]. split; [by destruct Hg as [Hc _]|]. split; [done|].
  split; [done|]. split.
  - eapply Forall_impl; [exact Hp|]. intros p (c & pg & Hpg & Hpl).
    destruct (page_payload_facts _ pg c p Hpage Hpl) as [Hcar Hpg'].
    split; [by apply Hcar|]. split; [done|]. by exists pg.
  - by apply doc_ids_below_fresh.
Qed.

(** X7. Upload followed by [delete_document] of the returned id is a
    round trip on the index: for an upload of at most 10000 chunks into a
    healthy index, the deletion reports exactly [chunks_indexed] and
    leaves the collection as it was before the upload. *)
Theorem upload_then_delete_restores (ocr : UploadFile → OcrReply)
    (fuel : nat) (file : UploadFile) (document_type : str)
    (patient_id case_number : option str) (w w' : World)
    (r : UploadResponse) :
  Healthy w →
  upload_document ocr fuel file document_type patient_id case_number w
  = (Ok r, w') →
  up_chunks_indexed r ≤ 10000 →
  (delete_document (up_document_id r) w').1 = Ok (up_chunks_indexed r) ∧
  collection (delete_document (up_document_id r) w').2 = collection w.
Proof.
  intros (Hnd & Hids & Hdocs) Hup Hle.
  destruct (upload_document_effect ocr fuel file document_type patient_id
              case_number w Hids) as [[_ Hno]|(result & new & Hres)];
    rewrite Hup in *; cbn [fst snd] in *; [by destruct (Hno r)|].
  destruct Hres as (Hocr & Hg & Hp & Hr). specialize (Hr r eq_refl).
  subst r. cbn [up_chunks_indexed up_document_id] in *.
  destruct (upload_metadata_lookup file (uuid_str (uuid_next w)) document_type
              patient_id case_number (default 0 (ocr_total_pages result)))
    as [Hdoc Hpage].
  assert (Forall (in_document (uuid_str (uuid_next w))) new) as Hnew.
  { eapply Forall_impl; [exact Hp|]. intros p (c & pg & _ & Hpl).
    destruct (page_payload_facts _ pg c p Hpage Hpl) as [Hcar _].
    by apply Hcar. }
  assert (Forall (λ p, ¬ in_document (uuid_str (uuid_next w)) p)
            (collection w)) as Hold.
  { by apply doc_ids_below_fresh. }
  destruct Hg as (Hc & _). simpl in Hc.
  rewrite delete_document_spec. cbn [fst snd collection set_collection].
  rewrite Hc, !filter_app.
  rewrite (filter_Forall_not_nil _ _ Hold), (filter_Forall_id _ _ Hnew),
    (filter_Forall_id _ _ Hold), (filter_Forall_nil _ _ Hnew), app_nil_r.
  split; [f_equal; simpl; lia|done].
Qed.

Lemma upload_then_delete_restores_witness :
  (delete_document (uuid_str 4)
     (upload_document (λ _, OcrOk three_pages) 4 scan (py "gerichtsakte")
        (Some (py "P-17")) None library_world).2).1 = Ok 2 ∧
  collection
    (delete_document (uuid_str 4)
       (upload_document (λ _, OcrOk three_pages) 4 scan (py "gerichtsakte")
          (Some (py "P-17")) None library_world).2).2
  = collection library_world.
Proof.
  set (res := upload_document (λ _, OcrOk three_pages) 4 scan
                (py "gerichtsakte") (Some (py "P-17")) None library_world).
  set (r := {| up_document_id := uuid_str 4; up_filename := filename scan;
               up_total_pages := 3; up_chunks_indexed := 2;
               up_characters_extracted := 130;
               up_metadata :=
                 upload_metadata scan (uuid_str 4) (py "gerichtsakte")
                   (Some (py "P-17")) None 3 |}).
  assert (res = (Ok r, res.2)) as Hres.
  { rewrite (surjective_pairing res) at 1.
    apply (f_equal (λ x, (x, res.2))). vm_compute. reflexivity. }
  apply (upload_then_delete_restores (λ _, OcrOk three_pages) 4 scan
           (py "gerichtsakte") (Some (py "P-17")) None library_world
           res.2 r library_world_Healthy Hres).
  simpl. lia.
Defined.

Lemma upload_document_stores_witness :
  ∃ result new,
    OcrOk three_pages = OcrOk result ∧
    collection
      (upload_document (λ _, OcrOk three_pages) 4 scan (py "gerichtsakte")
         (Some (py "P-17")) None library_world).2
    = collection library_world ++ new ∧
    2 = Z.of_nat (length new) ∧
    3 = default 0 (ocr_total_pages result) ∧
    Forall (λ p, in_document (uuid_str 4) p ∧
                 carries (upload_metadata scan (uuid_str 4) (py "gerichtsakte")
                            (Some (py "P-17")) None 3) p ∧
                 ∃ pg, pg ∈ indexed_page_numbers result ∧
                       payload p !! py "page" = Some (VInt pg)) new ∧
    Forall (λ p, ¬ in_document (uuid_str 4) p) (collection library_world).
Proof.
  set (res := upload_document (λ _, OcrOk three_pages) 4 scan
                (py "gerichtsakte") (Some (py "P-17")) None library_world).
  set (r := {| up_document_id := uuid_str 4; up_filename := filename scan;
               up_total_pages := 3; up_chunks_indexed := 2;
               up_characters_extracted := 130;
               up_metadata :=
                 upload_metadata scan (uuid_str 4) (py "gerichtsakte")
                   (Some (py "P-17")) None 3 |}).
  assert (res = (Ok r, res.2)) as Hres.
  { rewrite (surjective_pairing res) at 1.
    apply (f_equal (λ x, (x, res.2))). vm_compute. reflexivity. }
  exact (upload_document_stores (λ _, OcrOk three_pages) 4 scan
           (py "gerichtsakte") (Some (py "P-17")) None library_world
           res.2 r library_world_Healthy Hres).
Defined.

(** ** Transcripts *)

Lemma transcript_metadata_lookup transcript patient_id d :
  transcript_metadata transcript patient_id d !! py "document_id"
  = Some (VStr d).
Proof. unfold transcript_metadata. map_lookup. Qed.

(** What the long-form transcription does to the state and what it
    answers, however it ends. *)
Lemma transcribe_long_audio_effect svc fuel filename audio language denoise
    patient_id w :
  ids_below w →
  let res :=
    transcribe_long_audio svc fuel filename audio language denoise
      patient_id w in
  (res.2 = w ∧
   ∀ t, res.1 = Ok t →
        lt_indexed t = None ∧ (patient_id = None ∨ patient_id = Some [])) ∨
  (∃ pid result new,
     let transcript :=
       {| tr_text := Some (stt_text result);
          tr_filename := Some (VStr filename);
          tr_duration := Some (default (VInt 0) (stt_duration result)) |} in
     let metadata :=
       transcript_metadata transcript pid (uuid_str (uuid_next w)) in
     patient_id = Some pid ∧ pid ≠ [] ∧
     stt_transcribe svc (heard svc denoise audio)
       (or_str language (stt_language (settings w))) = SttOk result ∧
     grows (bump_uuid w) res.2 new ∧
     Forall (λ p, ∃ chunk_text,
               payload p = metadata ∪ {[ py "text" := VStr chunk_text ]}) new ∧
     ∀ t, res.1 = Ok t →
          t = answer_for (settings w) result filename patient_id denoise
                (lt_indexed t) ∧
          ((lt_indexed t = Some true ∧
            ∃ n, add_text fuel (stt_text result) metadata (bump_uuid w)
                 = (Ok n, res.2)) ∨
           (lt_indexed t = Some false ∧ new = []))).
Proof.
  intros Hw. cbv zeta.
  unfold transcribe_long_audio, get_settings, mbind, M_bind, heard.
  cbv zeta.
  destruct (negb _); [by left|].
  case_bool_decide; [by left|].
  destruct (stt_transcribe _ _ _) as [result|msg] eqn:Hstt;
    [|left; split; [done|]; intros t [=]].
  destruct patient_id as [[|c pid]|]; unfold mret, M_ret.
  - left. split; [done|]. intros t [= <-]. split; [done|by right].
  - right.
    set (transcript := {| tr_text := Some (stt_text result);
                          tr_filename := Some (VStr filename);
                          tr_duration :=
                            Some (default (VInt 0) (stt_duration result)) |}).
    exists (c :: pid), result.
    unfold try_except, add_transcript, mbind, M_bind, uuid4.
    destruct (add_text_grows fuel (default [] (tr_text transcript))
                (transcript_metadata transcript (c :: pid)
                   (uuid_str (uuid_next w)))
                (bump_uuid w) (ids_below_bump w Hw)) as (new & Hg & Hp & Hn).
    exists new. cbv zeta. unfold transcript_metadata in *.
    cbn [tr_text tr_filename tr_duration transcript default] in *.
    destruct (add_text fuel _ _ (bump_uuid w)) as [[n|e|] w1];
      unfold mret, M_ret; cbn [fst snd] in *.
    + do 5 (split; [done|]). intros t [= <-]. split; [done|].
      left. split; [done|]. by exists n.
    + do 5 (split; [done|]). intros t [= <-]. split; [done|]. by right.
    + do 5 (split; [done|]). by intros t.
  - left. split; [done|]. intros t [= <-]. split; [done|by left].
Qed.

(** X8. What the long-form transcription stores when it answers.
    Without a patient id (absent or empty) the state is untouched and the
    answer has no [indexed] flag.  Otherwise the speech service returned a
    [result] for the (possibly denoised) recording, and the answer is built
    from it with the flag.  With [indexed = false] the collection is
    unchanged (the failure of the indexing, whatever it was, is swallowed).
    With [indexed = true] the collection grew by exactly one point per
    embedded chunk of the text of [result], in order (by none when the
    text has no chunk; otherwise the model is loaded):
    the payload of each is the transcript metadata (the file name as
    source, type ["transcript"], the patient id, the duration of [result]
    or 0, one fresh document id, page 0) together with the chunk as
    ["text"]. *)
Theorem transcript_indexing (svc : AudioServices) (fuel : nat)
    (filename : str) (audio : list Byte.byte) (language : option str)
    (denoise : bool) (patient_id : option str) (w w' : World)
    (t : LongTranscript) :
  ids_below w →
  transcribe_long_audio svc fuel filename audio language denoise patient_id w
  = (Ok t, w') →
  match lt_indexed t with
  | None => w' = w ∧ (patient_id = None ∨ patient_id = Some [])
  | Some indexed =>
      ∃ pid result,
        patient_id = Some pid ∧ pid ≠ [] ∧
        stt_transcribe svc (heard svc denoise audio)
          (or_str language (stt_language (settings w))) = SttOk result ∧
        t = answer_for (settings w) result filename patient_id denoise
              (Some indexed) ∧
        if indexed then
          ∃ chunks,
            chunk (chunker_of (settings w)) fuel (stt_text result)
            = Some chunks ∧
            (chunks ≠ [] → is_Some (emb_model w)) ∧
            collection w'
            = collection w
              ++ points_from
                   (transcript_metadata
                      {| tr_text := Some (stt_text result);
                         tr_filename := Some (VStr filename);
                         tr_duration :=
                           Some (default (VInt 0) (stt_duration result)) |}
                      pid (uuid_str (uuid_next w)))
                   (S (uuid_next w)) (embedded w chunks)
        else collection w' = collection w
  end.
Proof.
  intros Hw Hrun.
  destruct (transcribe_long_audio_effect svc fuel filename audio language
              denoise patient_id w Hw)
    as [[Hsame Hnone]|(pid & result & new & Hres)];
    rewrite Hrun in *; cbn [fst snd] in *.
  - destruct (Hnone t eq_refl) as [-> Hp]. by split.
  - cbv zeta in Hres. destruct Hres as (Hpid & Hne & Hstt & Hg & Hp & Ht).
    destruct (Ht t eq_refl) as [Hanswer [[Hi [n Hadd]]|[Hi ->]]];
      rewrite Hi in *.
    + exists pid, result. do 4 (split; [done|]).
      apply add_text_stored in Hadd as (chunks & Hchunk & Hstored);
        [|by apply ids_below_bump].
      cbn [settings bump_uuid] in Hchunk.
      exists chunks. split; [done|]. unfold embedded.
      cbn [emb_model uuid_next collection bump_uuid] in Hstored.
      destruct chunks as [|ch chs].
      * destruct Hstored as [-> _]. split; [done|].
        cbn [collection bump_uuid]. by rewrite app_nil_r.
      * destruct Hstored as (encode & Hm & Hc & _). rewrite Hm.
        split; [by eexists|done].
    + exists pid, result. do 4 (split; [done|]).
      destruct Hg as (Hc & _). by rewrite Hc, app_nil_r.
Qed.

(** ** The index stays healthy *)

Lemma upload_document_Healthy ocr fuel file document_type patient_id
    case_number w :
  Healthy w →
  Healthy (upload_document ocr fuel file document_type patient_id
             case_number w).2.
Proof.
  intros Hw. pose proof Hw as (_ & Hids & _).
  destruct (upload_document_effect ocr fuel file document_type patient_id
              case_number w Hids) as [[-> _]|(result & new & Hres)]; [done|].
  destruct Hres as (_ & Hg & Hp & _).
  apply (Healthy_grows w _ new Hw Hg).
  destruct (upload_metadata_lookup file (uuid_str (uuid_next w)) document_type
              patient_id case_number (default 0 (ocr_total_pages result)))
    as [Hdoc Hpage].
  eapply Forall_impl; [exact Hp|]. intros p (c & pg & _ & Hpl).
  destruct (page_payload_facts _ pg c p Hpage Hpl) as [Hcar _].
  by apply Hcar.
Qed.

Lemma transcribe_long_audio_Healthy svc fuel filename audio language denoise
    patient_id w :
  Healthy w →
  Healthy (transcribe_long_audio svc fuel filename audio language denoise
             patient_id w).2.
Proof.
  intros Hw. pose proof Hw as (_ & Hids & _).
  destruct (transcribe_long_audio_effect svc fuel filename audio language
              denoise patient_id w Hids)
    as [[-> _]|(pid & transcript & new & _ & _ & _ & Hg & Hp & _)]; [done|].
  apply (Healthy_grows w _ new Hw Hg).
  eapply Forall_impl; [exact Hp|]. intros p [c Hpl].
  unfold in_document. rewrite Hpl. apply lookup_union_Some_l.
  apply transcript_metadata_lookup.
Qed.

Lemma delete_document_Healthy d w :
  Healthy w → Healthy (delete_document d w).2.
Proof.
  intros (Hnd & Hids & Hdocs). rewrite delete_document_spec.
  cbn [snd]. unfold Healthy, ids_below, doc_ids_below.
  cbn [collection set_collection uuid_next].
  split; [|split].
  - apply (sublist_NoDup _ (point_id <$> collection w)); [done|].
    apply fmap_sublist, sublist_filter.
  - apply Forall_forall. intros p [_ Hp]%list_elem_of_filter.
    unfold ids_below in Hids. rewrite Forall_forall in Hids. by apply Hids.
  - apply Forall_forall. intros p [_ Hp]%list_elem_of_filter.
    unfold doc_ids_below in Hdocs. rewrite Forall_forall in Hdocs.
    by apply Hdocs.
Qed.

(** X9. In every state reached from an empty collection by uploads and
    long-form transcriptions (however each call ends), also after deleting
    a document from it, the point identifiers are pairwise distinct and
    every point carries a document id drawn by the pipeline. *)
Theorem reachable_index_healthy (w0 w : World) (document_id : str) :
  collection w0 = [] →
  reachable w0 w →
  Healthy w ∧ Healthy (delete_document document_id w).2.
Proof.
  intros Hempty Hreach.
  assert (Healthy w) as Hw.
  { induction Hreach as [|w c Hr IH].
    - unfold Healthy, ids_below, doc_ids_below. rewrite Hempty.
      split; [constructor|]. split; constructor.
    - destruct c; simpl.
      + by apply upload_document_Healthy.
      + by apply transcribe_long_audio_Healthy. }
  split; [done|]. by apply delete_document_Healthy.
Qed.

Lemma reachable_index_healthy_witness :
  Healthy upload_then_transcript ∧
  Healthy (delete_document (uuid_str 0) upload_then_transcript).2.
Proof.
  apply (reachable_index_healthy empty_world upload_then_transcript
           (uuid_str 0)).
  - reflexivity.
  - unfold upload_then_transcript. do 2 apply reach_call. apply reach_start.
Defined.

Lemma transcript_indexing_witness :
  ∃ pid result,
    Some (py "P-17") = Some pid ∧ pid ≠ [] ∧
    stt_transcribe dictation (heard dictation true [Byte.x01])
      (or_str None (stt_language (settings library_world))) = SttOk result ∧
    dictation_answer
    = answer_for (settings library_world) result (py "sitzung.wav")
        (Some (py "P-17")) true (Some true) ∧
    ∃ chunks,
      chunk (chunker_of (settings library_world)) 4 (stt_text result)
      = Some chunks ∧
      (chunks ≠ [] → is_Some (emb_model library_world)) ∧
      collection
        (transcribe_long_audio dictation 4 (py "sitzung.wav") [Byte.x01] None
           true (Some (py "P-17")) library_world).2
      = collection library_world
        ++ points_from
             (transcript_metadata
                {| tr_text := Some (stt_text result);
                   tr_filename := Some (VStr (py "sitzung.wav"));
                   tr_duration :=
                     Some (default (VInt 0) (stt_duration result)) |}
                pid (uuid_str 4))
             5 (embedded library_world chunks).
Proof.
  set (res := transcribe_long_audio dictation 4 (py "sitzung.wav") [Byte.x01]
                None true (Some (py "P-17")) library_world).
  assert (res = (Ok dictation_answer, res.2)) as Hres.
  { rewrite (surjective_pairing res) at 1.
    apply (f_equal (λ x, (x, res.2))). vm_compute. reflexivity. }
  destruct library_world_Healthy as (_ & Hids & _).
  exact (transcript_indexing dictation 4 (py "sitzung.wav") [Byte.x01] None
           true (Some (py "P-17")) library_world res.2 dictation_answer
           Hids Hres).
Defined.

(** The dictation is stored as one point behind the three of the
    library; on a database that refuses the batch the answer carries
    [indexed = false] and nothing is stored. *)
Example dictation_stored :
  (λ p, (point_id p, payload p !! py "text", payload p !! py "duration"))
    <$> drop 3 (collection
                  (transcribe_long_audio dictation 4 (py "sitzung.wav")
                     [Byte.x01] None true (Some (py "P-17")) library_world).2)
  = [(uuid_str 5, Some (VStr (repeat 99%N 80)), Some (VFloat (25 # 2)))] ∧
  transcribe_long_audio dictation 4 (py "sitzung.wav") [Byte.x01] None true
    (Some (py "P-17")) full_disk_world
  = (Ok (answer_for default_settings
           {| stt_text := repeat 99%N 80; stt_lang := None;
              stt_duration := Some (VFloat (25 # 2)) |}
           (py "sitzung.wav") (Some (py "P-17")) true (Some false)),
     advance 2 (log_encode [py "passage: " ++ repeat 99%N 80] full_disk_world)).
Proof. split; vm_compute; reflexivity. Qed.

End UploadFacts.

(* ================================================================== *)
(** * More on the vector store: searching and deleting *)
(* ================================================================== *)

Module SearchDeleteFacts.
Import Embedding Qdrant VectorStore Rag Props PropsMore Demo.
Import EmbeddingFacts VectorStoreFacts IndexingFacts UploadFacts.

(** How [search] ends: the model, the filter, the limit and the database
    are consulted in this order. *)
Lemma search_outcome query top_k filters w :
  let w1 := log_encode [py "query: " ++ query] w in
  match emb_model w with
  | None =>
      search query top_k filters w
      = (Raise (RuntimeError (py "Embedding-Modell nicht initialisiert.")), w)
  | Some encode =>
      match encode [py "query: " ++ query] with
      | [] => search query top_k filters w = (Raise IndexError, w1)
      | v :: _ =>
          if decide (admissible filters) then
            if top_k <=? 0 then
              search query top_k filters w
              = (Raise (ValueError (limit_message (client w) top_k)), w1)
            else
              match query_error (client w) (collection w) v top_k with
              | Some msg =>
                  search query top_k filters w = (Raise (ClientError msg), w1)
              | None =>
                  ∃ f, (∀ p, passes f p = true ↔ matches_all filters p) ∧
                       search query top_k filters w
                       = (Ok (format_hit
                                <$> take (Z.to_nat top_k)
                                      (merge_sort score_ge
                                         (score_point (distance w) v
                                            <$> filter (λ p, passes f p = true)
                                                  (collection w)))), w1)
              end
          else
            ∃ msg, search query top_k filters w
                   = (Raise (ValidationError msg), w1)
      end
  end.
Proof.
  cbv zeta. unfold search, mbind, M_bind.
  destruct (emb_model w) as [encode|] eqn:Hm.
  - rewrite (embed_query_loaded _ encode) by done.
    destruct (encode _) as [|v vs]; [done|].
    destruct (decide (admissible filters)) as [Hadm|Hadm].
    + destruct (build_filter_admitted filters
                  (log_encode [py "query: " ++ query] w) Hadm)
        as (f & -> & Hf).
      unfold query_points. cbn [client collection log_encode distance].
      destruct (top_k <=? 0); [done|].
      destruct (query_error _ _ _ _); [done|]. by exists f.
    + destruct (build_filter_refused filters
                  (log_encode [py "query: " ++ query] w) Hadm) as (msg & ->).
      by exists msg.
  - unfold embed_query, mbind, M_bind. by rewrite embed_not_loaded.
Qed.

Lemma search_results query top_k filters w results w' :
  search query top_k filters w = (Ok results, w') →
  1 ≤ top_k ∧ admissible filters ∧
  ∃ v,
    (length results ≤ Z.to_nat top_k)%nat ∧
    Forall (λ r, ∃ p, p ∈ collection w ∧ matches_all filters p ∧
                      r = result_of w v p) results.
Proof.
  pose proof (search_outcome query top_k filters w) as Hout.
  cbv zeta in Hout.
  destruct (emb_model w) as [encode|]; [|by rewrite Hout].
  destruct (encode _) as [|v vs]; [by rewrite Hout|].
  destruct (decide (admissible filters)) as [Hadm|Hadm];
    [|destruct Hout as [msg ->]; done].
  destruct (Z.leb_spec top_k 0); [by rewrite Hout|].
  destruct (query_error _ _ _ _); [by rewrite Hout|].
  destruct Hout as (f & Hf & ->). intros [= <- _].
  split; [lia|]. split; [done|]. exists v.
  split; [rewrite length_fmap, length_take; lia|].
  apply Forall_fmap, Forall_forall. intros hit Hhit%subseteq_take.
  rewrite merge_sort_Permutation in Hhit.
  apply list_elem_of_fmap in Hhit as (p & -> & [Hpass Hp]%list_elem_of_filter).
  exists p. split; [done|]. split; [by apply Hf|].
  apply format_hit_score_point.
Qed.

(** [search] only appends to the log of the embedding calls, and ends. *)
Lemma search_read_only_bounded_aux query top_k filters w :
  ((search query top_k filters w).2 = w ∨
   (search query top_k filters w).2 = log_encode [py "query: " ++ query] w) ∧
  ((search query top_k filters w).1 = Hang → False).
Proof.
  pose proof (search_outcome query top_k filters w) as Hout.
  cbv zeta in Hout.
  destruct (emb_model w) as [encode|]; [|rewrite Hout; by split; [left|]].
  destruct (encode _) as [|v vs]; [rewrite Hout; by split; [right|]|].
  destruct (decide (admissible filters)) as [Hadm|Hadm];
    [|destruct Hout as [msg ->]; by split; [right|]].
  destruct (top_k <=? 0); [rewrite Hout; by split; [right|]|].
  destruct (query_error _ _ _ _); [rewrite Hout; by split; [right|]|].
  destruct Hout as (f & _ & ->). by split; [right|].
Qed.


(** X10. [search] is read-only and bounded: it never changes the
    collection, the settings or the identifier supply, whatever its
    outcome (it raises whatever the model or the database raise), and it
    ends.  When it returns, [top_k] is at least 1, no filter value is a
    float, and it returns at most [top_k] results, each the record of a
    stored point that carries every filter pair: a [top_k] below 1 or a
    float among the filter values never gives results. *)
Theorem search_read_only_bounded (query : str) (top_k : Z)
    (filters : option dict) (w : World) :
  let res := search query top_k filters w in
  collection res.2 = collection w ∧
  uuid_next res.2 = uuid_next w ∧
  settings res.2 = settings w ∧
  match res.1 with
  | Ok results =>
      1 ≤ top_k ∧ admissible filters ∧
      (length results ≤ Z.to_nat top_k)%nat ∧
      ∃ v, Forall (λ r, ∃ p, p ∈ collection w ∧ matches_all filters p ∧
                             r = result_of w v p) results
  | Raise e => True
  | Hang => False
  end.
Proof.
  cbv zeta.
  destruct (search_read_only_bounded_aux query top_k filters w)
    as [Hstate Hhang].
  split; [by destruct Hstate as [-> | ->]|].
  split; [by destruct Hstate as [-> | ->]|].
  split; [by destruct Hstate as [-> | ->]|].
  destruct (search query top_k filters w) as [[results|e|] w'] eqn:Hs;
    cbn [fst snd] in *.
  - destruct (search_results _ _ _ _ _ _ Hs) as (Hk & Hadm & v & Hlen & Hall).
    do 3 (split; [done|]). by exists v.
  - done.
  - by apply Hhang.
Qed.

(** X11. What [delete_document] leaves behind: no point of the document,
    and every other point, in the same order.  When the document had at
    most 10000 points the returned count is exactly the number removed; a
    second deletion returns 0 and changes nothing. *)
Theorem delete_document_removes (document_id : str) (w : World) :
  let res := delete_document document_id w in
  collection res.2 = filter (λ p, ¬ in_document document_id p) (collection w) ∧
  Forall (λ p, ¬ in_document document_id p) (collection res.2) ∧
  (Z.of_nat (length (filter (in_document document_id) (collection w)))
   ≤ 10000 →
   res.1 = Ok (Z.of_nat (length (filter (in_document document_id)
                                   (collection w))))) ∧
  delete_document document_id res.2 = (Ok 0, res.2).
Proof.
  cbv zeta. rewrite delete_document_spec. cbn [fst snd].
  set (rest := filter (λ p, ¬ in_document document_id p) (collection w)).
  assert (Forall (λ p, ¬ in_document document_id p) rest) as Hrest.
  { apply Forall_forall. by intros p [? _]%list_elem_of_filter. }
  split; [done|]. split; [done|]. split.
  - intros Hle. f_equal. lia.
  - rewrite delete_document_spec. cbn [collection set_collection].
    rewrite (filter_Forall_id _ _ Hrest).
    assert (filter (in_document document_id) rest = []) as ->.
    { by apply filter_Forall_not_nil. }
    done.
Qed.

(** X12. After [delete_document], a search restricted to that document
    finds nothing, whatever else is stored: with the embedding model
    loaded, a [top_k] of at least 1 and a database that answers, every
    search whose filter (without float values) names the deleted
    [document_id] returns the empty list. *)
Theorem search_after_delete_empty (document_id query : str) (top_k : Z)
    (filters : dict) (w : World) (encode : list str → list Vector)
    (v : Vector) (vs : list Vector) :
  emb_model w = Some encode →
  encode [py "query: " ++ query] = v :: vs →
  filters !! py "document_id" = Some (VStr document_id) →
  1 ≤ top_k →
  admissible (Some filters) →
  query_error (client w) (collection (delete_document document_id w).2) v top_k
  = None →
  (search query top_k (Some filters) (delete_document document_id w).2).1
  = Ok [].
Proof.
  intros Hm Hv Hf Hk Hadm. rewrite delete_document_spec. cbn [snd].
  intros Herr.
  pose proof (search_outcome query top_k (Some filters)
                (set_collection
                   (filter (λ p, ¬ in_document document_id p) (collection w))
                   w)) as Hout.
  cbv zeta in Hout.
  cbn [emb_model set_collection collection distance client] in Hout, Herr.
  rewrite Hm, Hv in Hout.
  destruct (decide (admissible (Some filters))); [|done].
  destruct (Z.leb_spec top_k 0); [lia|]. rewrite Herr in Hout.
  destruct Hout as (f & Hpasses & ->). cbn [fst].
  assert (filter (λ p, passes f p = true)
            (filter (λ p, ¬ in_document document_id p) (collection w)) = [])
    as ->;
    [|change (merge_sort score_ge (score_point (distance w) v <$> []))
        with (@nil ScoredPoint); by rewrite take_nil].
  apply filter_Forall_not_nil, Forall_forall.
  intros p [Hnot _]%list_elem_of_filter Hpass.
  apply Hpasses in Hpass. apply Hnot. by apply (Hpass _ _ Hf).
Qed.

Lemma search_after_delete_empty_witness :
  (search (py "Befund") 5
     (Some {[ py "document_id" := VStr (uuid_str 0) ]})
     (delete_document (uuid_str 0) upload_then_transcript).2).1 = Ok [].
Proof.
  apply (search_after_delete_empty (uuid_str 0) (py "Befund") 5
           {[ py "document_id" := VStr (uuid_str 0) ]} upload_then_transcript
           unit_encode [1%Q] []).
  - reflexivity.
  - reflexivity.
  - apply lookup_singleton_eq.
  - lia.
  - apply map_Forall_singleton. reflexivity.
  - reflexivity.
Defined.

(** In that state the transcript is still stored, and the same search
    without a filter finds it. *)
Example search_after_delete_rest :
  length (collection upload_then_transcript) = 3%nat ∧
  (λ p, payload p !! py "document_id")
    <$> collection (delete_document (uuid_str 0) upload_then_transcript).2
  = [Some (VStr (uuid_str 3))] ∧
  match (search (py "Befund") 5 None
           (delete_document (uuid_str 0) upload_then_transcript).2).1 with
  | Ok results => res_metadata <$> results
  | _ => []
  end
  = (λ p, base.delete (py "text") (payload p))
      <$> collection (delete_document (uuid_str 0) upload_then_transcript).2.
Proof. split; [|split]; vm_compute; reflexivity. Qed.

(** ** The manual search endpoint *)



End SearchDeleteFacts.

(* ================================================================== *)
(** * Listing the documents *)
(* ================================================================== *)

Module ListingFacts.
Import Embedding Qdrant VectorStore Documents Listing DocumentRoutes.
Import Props PropsMore Demo DemoMore.
Import VectorStoreFacts IndexingFacts UploadFacts.

(** ** Equality of keys *)

Lemma py_eq_spec a b :
  py_eq a b = true ↔
  match a, b with
  | VStr s, VStr t => s = t
  | VStr _, _ | _, VStr _ => False
  | _, _ => ∃ p q, number_of a = Some p ∧ number_of b = Some q ∧ (p == q)%Q
  end.
Proof.
  destruct a as [s|x|p], b as [t|y|q]; simpl; try (split; [done|tauto]).
  - apply bool_decide_eq_true.
  - rewrite Z.eqb_eq. split.
    + intros ->. by exists (inject_Z y), (inject_Z y).
    + intros (p & q & [= <-] & [= <-] & H). by apply inject_Z_injective.
  - rewrite Qeq_bool_iff. split.
    + intros H. by exists (inject_Z x), q.
    + by intros (p' & q' & [= <-] & [= <-] & H).
  - rewrite Qeq_bool_iff. split.
    + intros H. by exists p, (inject_Z y).
    + by intros (p' & q' & [= <-] & [= <-] & H).
  - rewrite Qeq_bool_iff. split.
    + intros H. by exists p, q.
    + by intros (p' & q' & [= <-] & [= <-] & H).
Qed.

Lemma py_eq_refl a : py_eq a a = true.
Proof.
  apply py_eq_spec. destruct a as [s|x|p]; [done|..]; eexists _, _; by split.
Qed.

Lemma py_eq_sym a b : py_eq a b = py_eq b a.
Proof.
  apply eq_true_iff_eq. rewrite !py_eq_spec.
  destruct a as [s|x|p], b as [t|y|q]; simpl; try tauto;
    try (split; [by intros ->|by intros ->]);
    split; intros (p' & q' & H1 & H2 & H3); exists q', p';
    (split; [done|split; [done|by symmetry]]).
Qed.

Lemma py_eq_trans a b c :
  py_eq a b = true → py_eq b c = true → py_eq a c = true.
Proof.
  rewrite !py_eq_spec.
  destruct a as [s|x|p], b as [t|y|q], c as [u|z|r]; simpl; try tauto;
    try congruence;
    intros (p1 & q1 & H1 & H2 & H3) (p2 & q2 & H4 & H5 & H6);
    exists p1, q2; (split; [done|split; [done|]]);
    simplify_eq; by etrans.
Qed.

Lemma py_eq_false_l a b c :
  py_eq a b = true → py_eq a c = false → py_eq b c = false.
Proof.
  intros Hab Hac. destruct (py_eq b c) eqn:Hbc; [|done].
  by rewrite (py_eq_trans a b c) in Hac.
Qed.

Lemma py_eq_congr a b c : py_eq a b = true → py_eq a c = py_eq b c.
Proof.
  intros Hab. destruct (py_eq a c) eqn:Hac.
  - symmetry. apply (py_eq_trans b a c); [by rewrite py_eq_sym|done].
  - symmetry. by apply (py_eq_false_l a).
Qed.

(** ** One point at a time *)

Lemma contains_find key docs :
  contains key docs = false → List.find (λ e, py_eq e.1 key) docs = None.
Proof.
  unfold contains. induction docs as [|e docs IH]; simpl; [done|].
  destruct (py_eq e.1 key); [done|]. apply IH.
Qed.

Lemma increment_keys d docs : (increment d docs).*1 = docs.*1.
Proof.
  induction docs as [|[k s] docs IH]; [done|].
  cbn [increment]. destruct (py_eq k d); [done|].
  rewrite !fmap_cons. by f_equal.
Qed.

Lemma contains_keys d docs docs' :
  docs.*1 = docs'.*1 → contains d docs = contains d docs'.
Proof.
  unfold contains. revert docs'.
  induction docs as [|e docs IH]; intros [|e' docs']; simpl; try done.
  intros [= He Hd]. rewrite He. f_equal. by apply IH.
Qed.

Lemma chunks_in_increment key d docs :
  chunks_in key (increment d docs)
  = chunks_in key docs + (if py_eq d key && contains d docs then 1 else 0).
Proof.
  unfold chunks_in, contains.
  induction docs as [|[k s] docs IH]; simpl.
  - rewrite andb_false_r. lia.
  - destruct (py_eq k d) eqn:Hkd; simpl.
    + rewrite <- (py_eq_congr k d key Hkd).
      destruct (py_eq k key); simpl; lia.
    + destruct (py_eq k key) eqn:Hkk; simpl; [|apply IH].
      assert (py_eq d key = false) as ->; [|simpl; lia].
      rewrite py_eq_sym in Hkk. rewrite py_eq_sym.
      apply (py_eq_false_l k); [by rewrite py_eq_sym|done].
Qed.

Lemma chunks_in_app_zero key docs d s :
  doc_chunks s = 0 → chunks_in key (docs ++ [(d, s)]) = chunks_in key docs.
Proof.
  intros Hs. unfold chunks_in.
  induction docs as [|e docs IH]; simpl.
  - by destruct (py_eq d key).
  - by destruct (py_eq e.1 key).
Qed.

Lemma contains_app d docs e :
  contains d (docs ++ [e]) = contains d docs || py_eq e.1 d.
Proof.
  unfold contains. rewrite existsb_app. simpl. by rewrite orb_false_r.
Qed.

Lemma count_point_record docs p :
  count_point docs (as_record p) = increment (doc_key p) (ensured docs p).
Proof. reflexivity. Qed.

Lemma contains_ensured docs p : contains (doc_key p) (ensured docs p) = true.
Proof.
  unfold ensured. destruct (contains (doc_key p) docs) eqn:Hc; [done|].
  rewrite contains_app, Hc. simpl. apply py_eq_refl.
Qed.

Lemma chunks_in_count_point key docs p :
  chunks_in key (count_point docs (as_record p))
  = chunks_in key docs + (if py_eq (doc_key p) key then 1 else 0).
Proof.
  rewrite count_point_record, chunks_in_increment, contains_ensured,
    andb_true_r.
  f_equal. unfold ensured. destruct (contains (doc_key p) docs); [done|].
  by apply chunks_in_app_zero.
Qed.

Lemma total_increment d docs :
  chunk_total (increment d docs)
  = chunk_total docs + (if contains d docs then 1 else 0).
Proof.
  unfold chunk_total, contains.
  induction docs as [|[k s] docs IH]; simpl; [done|].
  destruct (py_eq k d); simpl; [lia|]. rewrite IH. lia.
Qed.

Lemma total_count_point docs p :
  chunk_total (count_point docs (as_record p)) = chunk_total docs + 1.
Proof.
  rewrite count_point_record, total_increment, contains_ensured.
  f_equal. unfold ensured. destruct (contains (doc_key p) docs); [done|].
  unfold chunk_total. rewrite foldr_app. simpl.
  induction docs as [|e docs IH]; simpl; lia.
Qed.

Lemma keyed_increment d docs : keyed docs → keyed (increment d docs).
Proof.
  unfold keyed. induction 1 as [|[k s] docs Hk Hd IH]; simpl; [done|].
  destruct (py_eq k d); by constructor.
Qed.

Lemma keyed_count_point docs p :
  keyed docs → keyed (count_point docs (as_record p)).
Proof.
  intros H. rewrite count_point_record. apply keyed_increment.
  unfold ensured. destruct (contains _ docs); [done|].
  apply Forall_app. split; [done|]. by repeat constructor.
Qed.

Lemma distinct_keys_snoc keys key :
  distinct_keys keys →
  Forall (λ k, py_eq k key = false) keys →
  distinct_keys (keys ++ [key]).
Proof.
  induction keys as [|k keys IH]; simpl.
  - intros _ _. split; [constructor|done].
  - intros [Hk Hd] Hall. apply Forall_cons in Hall as [Hkey Hall]. split.
    + apply Forall_app. split; [done|]. by repeat constructor.
    + by apply IH.
Qed.

Lemma contains_false d docs :
  contains d docs = false → Forall (λ k, py_eq k d = false) docs.*1.
Proof.
  unfold contains. induction docs as [|e docs IH]; simpl; [constructor|].
  intros [? ?]%orb_false_elim. constructor; [done|by apply IH].
Qed.

Lemma distinct_count_point docs p :
  distinct_keys docs.*1 → distinct_keys (count_point docs (as_record p)).*1.
Proof.
  intros H. rewrite count_point_record, increment_keys. unfold ensured.
  destruct (contains (doc_key p) docs) eqn:Hc; [done|].
  rewrite fmap_app. apply distinct_keys_snoc; [done|]. by apply contains_false.
Qed.

(** ** All points *)

Lemma first_seen_wins_later seen p s :
  first_seen_wins seen s → first_seen_wins (seen ++ [p]) s.
Proof.
  intros (before & q & after & -> & H). exists before, q, (after ++ [p]).
  split; [by rewrite <- app_assoc|done].
Qed.

Lemma first_seen_wins_increment seen d docs :
  Forall (λ e, first_seen_wins seen e.2) docs →
  Forall (λ e, first_seen_wins seen e.2) (increment d docs).
Proof.
  induction 1 as [|[k s] docs Hs Hd IH]; simpl; [constructor|].
  destruct (py_eq k d); constructor; done.
Qed.

Lemma chunks_in_zero_unseen key docs seen :
  (∀ key, chunks_in key docs
          = Z.of_nat (length (filter (λ p, py_eq (doc_key p) key = true) seen))) →
  contains key docs = false →
  Forall (λ q, py_eq (doc_key q) key = false) seen.
Proof.
  intros Hcount Hc. specialize (Hcount key). unfold chunks_in in Hcount.
  rewrite (contains_find _ _ Hc) in Hcount.
  apply Forall_forall. intros q Hq.
  destruct (py_eq (doc_key q) key) eqn:Hqk; [|done].
  assert (q ∈ filter (λ p, py_eq (doc_key p) key = true) seen) as Hin
    by (by apply list_elem_of_filter).
  destruct (filter _ seen); [by apply elem_of_nil in Hin|simpl in Hcount; lia].
Qed.

Lemma listing_of_step seen docs p :
  listing_of seen docs →
  listing_of (seen ++ [p]) (count_point docs (as_record p)).
Proof.
  intros (Hkey & Hdist & Htotal & Hcount & Hfirst).
  split; [by apply keyed_count_point|].
  split; [by apply distinct_count_point|].
  split; [rewrite total_count_point, length_app; simpl; lia|].
  split.
  - intros key. rewrite chunks_in_count_point, Hcount, filter_app, length_app.
    rewrite filter_cons, filter_nil.
    destruct (py_eq (doc_key p) key) eqn:Hpk.
    + rewrite decide_True by done. simpl. lia.
    + rewrite decide_False by congruence. simpl. lia.
  - rewrite count_point_record. apply first_seen_wins_increment.
    unfold ensured. destruct (contains (doc_key p) docs) eqn:Hc.
    + eapply Forall_impl; [exact Hfirst|]. intros e.
      apply first_seen_wins_later.
    + apply Forall_app. split.
      * eapply Forall_impl; [exact Hfirst|]. intros e.
        apply first_seen_wins_later.
      * repeat constructor. exists seen, p, []. split; [done|].
        split; [|done].
        eapply Forall_impl; [by apply (chunks_in_zero_unseen (doc_key p) docs)|].
        done.
Qed.

Lemma listing_of_fold pts seen docs :
  listing_of seen docs →
  listing_of (seen ++ pts) (fold_left count_point (as_record <$> pts) docs).
Proof.
  revert seen docs. induction pts as [|p pts IH]; intros seen docs H.
  - by rewrite app_nil_r.
  - cbn [fmap list_fmap fold_left].
    replace (seen ++ p :: pts) with ((seen ++ [p]) ++ pts)
      by (by rewrite <- app_assoc).
    apply IH. by apply listing_of_step.
Qed.

Lemma listing_of_summarize pts : listing_of pts (summarize pts).
Proof.
  apply (listing_of_fold pts [] []).
  split; [constructor|]. split; [done|]. split; [done|].
  split; [done|constructor].
Qed.

Lemma chunks_for_keyed key docs :
  keyed docs → chunks_for key docs.*2 = chunks_in key docs.
Proof.
  unfold chunks_for, chunks_in, keyed.
  induction 1 as [|[k s] docs Hk Hd IH]; simpl; [done|].
  simpl in Hk. rewrite Hk. by destruct (py_eq k key).
Qed.

Lemma keys_keyed docs : keyed docs → doc_document_id <$> docs.*2 = docs.*1.
Proof.
  unfold keyed. induction 1 as [|[k s] docs Hk Hd IH]; [done|].
  rewrite !fmap_cons. simpl in Hk. cbn [fst snd]. by f_equal.
Qed.

(** ** Paging *)

Lemma scroll_order_NoDup pts :
  NoDup (point_id <$> pts) → NoDup (point_id <$> scroll_order pts).
Proof. intros H. by rewrite scroll_order_Permutation. Qed.

Lemma length_scroll_order pts : length (scroll_order pts) = length pts.
Proof. by rewrite scroll_order_Permutation. Qed.

Lemma count_scroll_order (P : Point → Prop) `{!∀ p, Decision (P p)} pts :
  length (filter P (scroll_order pts)) = length (filter P pts).
Proof. by rewrite scroll_order_Permutation. Qed.

(** The points from the offset on are the rest of the scroll order. *)
Lemma from_offset_suffix before p after :
  StronglySorted id_le (before ++ p :: after) →
  NoDup (point_id <$> before ++ p :: after) →
  from_offset (point_id p) (before ++ p :: after) = p :: after.
Proof.
  intros Hsorted Hnd. unfold from_offset. rewrite filter_app.
  rewrite filter_Forall_not_nil.
  - pose proof (StronglySorted_app_1_r _ _ _ Hsorted) as Hrest.
    apply StronglySorted_cons in Hrest as [Hafter _].
    rewrite filter_cons_True by apply id_leb_refl.
    by rewrite filter_Forall_id.
  - apply Forall_forall. intros q Hq Hpq.
    assert (id_le q p) as Hqp.
    { apply (StronglySorted_app_1_elem_of _ _ _ _ _ Hsorted); [done|left]. }
    rewrite fmap_app in Hnd. apply NoDup_app in Hnd as (_ & Hdisj & _).
    apply (Hdisj (point_id q)); [by apply list_elem_of_fmap_2|].
    rewrite (id_leb_antisym _ _ Hqp Hpq). rewrite fmap_cons. left.
Qed.

Lemma scroll_page (pts : list Point) offset w :
  match offset with
  | None => scroll_order (collection w)
  | Some o => from_offset o (scroll_order (collection w))
  end = pts →
  scroll None 100 offset true w
  = (Ok (as_record <$> take (Z.to_nat 100) pts,
         point_id <$> head (drop (Z.to_nat 100) pts)), w).
Proof.
  intros Hpts. unfold scroll. rewrite Hpts.
  rewrite (filter_Forall_id (λ p, passes None p = true))
    by (by apply Forall_forall).
  reflexivity.
Qed.

(** The loop reads every point once, page by page, in the order of the
    identifiers; it stops short only when it runs out of fuel. *)
Lemma list_documents_loop_pages w :
  NoDup (point_id <$> collection w) →
  ∀ fuel before pts docs offset,
    scroll_order (collection w) = before ++ pts →
    (offset = None ∧ before = [] ∨
     ∃ p rest, pts = p :: rest ∧ offset = Some (point_id p)) →
    list_documents_loop fuel docs offset w
    = (Ok (fold_left count_point (as_record <$> pts) docs), w) ∨
    (list_documents_loop fuel docs offset w = (Hang, w) ∧
     (100 * Z.of_nat fuel ≤ Z.of_nat (length pts))%Z).
Proof.
  intros Hnd. induction fuel as [|fuel IH];
    intros before pts docs offset Hcol Hoff.
  - right. split; [done|lia].
  - cbn [list_documents_loop]. unfold mbind, M_bind.
    rewrite (scroll_page pts).
    2:{ destruct Hoff as [[-> ->]|(p & rest & -> & ->)]; [done|].
        rewrite Hcol. apply from_offset_suffix; rewrite <- Hcol.
        - apply scroll_order_sorted.
        - by apply scroll_order_NoDup. }
    cbn [fst snd].
    destruct (drop (Z.to_nat 100) pts) as [|q rest] eqn:Hdrop.
    + left. cbn [head fmap option_fmap option_map]. unfold mret, M_ret.
      rewrite take_ge; [done|].
      apply (f_equal length) in Hdrop. rewrite length_drop in Hdrop.
      simpl in Hdrop. lia.
    + cbn [head fmap option_fmap option_map].
      assert (pts = take (Z.to_nat 100) pts ++ q :: rest) as Hsplit
        by (by rewrite <- Hdrop, take_drop).
      destruct (IH (before ++ take (Z.to_nat 100) pts) (q :: rest)
                  (fold_left count_point
                     (as_record <$> take (Z.to_nat 100) pts) docs)
                  (Some (point_id q))) as [Hok|[Hhang Hlen]].
      * by rewrite <- app_assoc, <- Hsplit.
      * right. by exists q, rest.
      * left. rewrite Hok. do 2 f_equal.
        rewrite <- fold_left_app, <- fmap_app. by rewrite <- Hsplit.
      * right. split; [done|].
        assert (length pts = (length (take (Z.to_nat 100) pts)
                              + length (q :: rest))%nat) as Hl
          by (by rewrite <- length_app, <- Hsplit).
        rewrite length_take in Hl.
        assert (length (drop (Z.to_nat 100) pts) = length (q :: rest)) as Hd
          by (by rewrite Hdrop).
        rewrite length_drop in Hd. simpl in *. lia.
Qed.

Lemma list_documents_cases fuel w :
  NoDup (point_id <$> collection w) →
  list_documents fuel w
  = (Ok (summarize (scroll_order (collection w))).*2, w) ∨
  (list_documents fuel w = (Hang, w) ∧
   (100 * Z.of_nat fuel ≤ Z.of_nat (length (collection w)))%Z).
Proof.
  intros Hnd. unfold list_documents, mbind, M_bind.
  destruct (list_documents_loop_pages w Hnd fuel []
              (scroll_order (collection w)) [] None)
    as [Hok|[Hhang Hlen]]; [done|by left| |].
  - left. by rewrite Hok.
  - right. rewrite Hhang. by rewrite length_scroll_order in Hlen.
Qed.

(** The listing counts the stored points, whatever their order. *)
Lemma listing_of_collection pts :
  let docs := summarize (scroll_order pts) in
  keyed docs ∧ distinct_keys docs.*1 ∧
  chunk_total docs = Z.of_nat (length pts) ∧
  (∀ key, chunks_in key docs
          = Z.of_nat (length (filter (λ p, py_eq (doc_key p) key = true) pts))) ∧
  Forall (λ e, first_seen_wins (scroll_order pts) e.2) docs.
Proof.
  destruct (listing_of_summarize (scroll_order pts))
    as (Hkey & Hdist & Htotal & Hcount & Hfirst).
  cbv zeta. split; [done|]. split; [done|].
  split; [by rewrite Htotal, length_scroll_order|]. split; [|done].
  intros key. by rewrite Hcount, count_scroll_order.
Qed.

(** X14. Paging is invisible: on a collection with pairwise distinct
    point identifiers, [list_documents] reads the points in pages of 100
    in the order of their identifiers, each page starting at the offset
    the page before returned; it needs no more than [length/100 + 1]
    pages, changes nothing, and returns exactly what one pass over all
    points in that order would. *)
Theorem list_documents_paginates (fuel : nat) (w : World) :
  NoDup (point_id <$> collection w) →
  (Z.of_nat (length (collection w)) < 100 * Z.of_nat fuel)%Z →
  list_documents fuel w
  = (Ok (summarize (scroll_order (collection w))).*2, w).
Proof.
  intros Hnd Hfuel.
  destruct (list_documents_cases fuel w Hnd) as [Hok|[_ Hlen]]; [done|lia].
Qed.

(** X15. What the listing says.  When [list_documents] returns, no
    document id is listed twice, the chunk count listed for an id is the
    number of stored points under that id (points without a
    [document_id] are counted under ["unknown"]), the counts add up to the
    number of stored points, and the metadata of each entry are those of
    the first point of that document in scroll order, the order of the
    point identifiers (not the order in which the points were stored). *)
Theorem list_documents_counts (fuel : nat) (w w' : World)
    (docs : list DocSummary) :
  NoDup (point_id <$> collection w) →
  list_documents fuel w = (Ok docs, w') →
  w' = w ∧
  distinct_keys (doc_document_id <$> docs) ∧
  (∀ key, chunks_for key docs
          = Z.of_nat (length (filter (λ p, py_eq (doc_key p) key = true)
                                (collection w)))) ∧
  foldr (λ s acc, doc_chunks s + acc) 0 docs
  = Z.of_nat (length (collection w)) ∧
  Forall (first_seen_wins (scroll_order (collection w))) docs.
Proof.
  intros Hnd Hlist.
  destruct (list_documents_cases fuel w Hnd) as [Hok|[Hhang _]];
    [|congruence].
  rewrite Hok in Hlist. injection Hlist as <- <-.
  destruct (listing_of_collection (collection w))
    as (Hkey & Hdist & Htotal & Hcount & Hfirst).
  split; [done|]. split; [by rewrite keys_keyed|]. split; [|split].
  - intros key. by rewrite chunks_for_keyed.
  - rewrite <- Htotal. unfold chunk_total.
    generalize (summarize (scroll_order (collection w))). intros l.
    induction l as [|e l IH]; [done|].
    rewrite fmap_cons. cbn [foldr]. by f_equal.
  - by apply Forall_fmap.
Qed.

Lemma mixed_world_NoDup : NoDup (point_id <$> collection mixed_world).
Proof. apply (bool_decide_unpack _). vm_compute. exact I. Qed.

Lemma list_documents_counts_witness :
  distinct_keys
    (doc_document_id <$> (summarize (scroll_order (collection mixed_world))).*2) ∧
  foldr (λ s acc, doc_chunks s + acc) 0
    (summarize (scroll_order (collection mixed_world))).*2
  = Z.of_nat (length (collection mixed_world)) ∧
  Forall (first_seen_wins (scroll_order (collection mixed_world)))
    (summarize (scroll_order (collection mixed_world))).*2.
Proof.
  destruct (list_documents_counts 3 mixed_world mixed_world
              (summarize (scroll_order (collection mixed_world))).*2)
    as (_ & Hdistinct & _ & Hsum & Hfirst).
  - apply (bool_decide_unpack _). vm_compute. exact I.
  - vm_compute. reflexivity.
  - split; [exact Hdistinct|]. split; [exact Hsum|exact Hfirst].
Defined.

Lemma list_documents_paginates_witness :
  list_documents 3 mixed_world
  = (Ok (summarize (scroll_order (collection mixed_world))).*2, mixed_world).
Proof.
  apply (list_documents_paginates 3 mixed_world).
  - apply (bool_decide_unpack _). vm_compute. exact I.
  - vm_compute. reflexivity.
Defined.

(** The 250 points of the two documents take three pages, the second and
    third starting at the offset the page before returned; two pages are
    not enough.  The listing starts with the document of the point with
    the least identifier, which was stored last. *)
Example mixed_world_listing :
  (λ offset,
     match (scroll None 100 offset true mixed_world).1 with
     | Ok page => Some (length page.1, page.2)
     | _ => None
     end) <$> [None; Some (uuid_str 19); Some (uuid_str 54)]
  = [ Some (100%nat, Some (uuid_str 19)); Some (100%nat, Some (uuid_str 54));
      Some (50%nat, None) ] ∧
  (list_documents 2 mixed_world).1 = Hang ∧
  match (list_documents 3 mixed_world).1 with
  | Ok docs => (λ s, (doc_document_id s, doc_chunks s)) <$> docs
  | _ => []
  end = [ (VStr (py "akte-b"), 125); (VStr (py "akte-a"), 125) ] ∧
  doc_key <$> head (collection mixed_world) = Some (VStr (py "akte-a")).
Proof. repeat split; vm_compute; reflexivity. Qed.

(** ** Listing after an upload or a deletion *)

Lemma py_eq_VStr v d : py_eq v (VStr d) = true ↔ v = VStr d.
Proof.
  destruct v as [s|x|q]; simpl; [|split; done..].
  rewrite bool_decide_eq_true. split; congruence.
Qed.

Lemma list_documents_route_inv pages w resp w' :
  list_documents_route pages w = (Ok resp, w') →
  list_documents pages w = (Ok (lr_documents resp), w') ∧
  lr_total resp = Z.of_nat (length (lr_documents resp)).
Proof.
  unfold list_documents_route, try_except, mbind at 1, M_bind at 1.
  destruct (list_documents pages w) as [[docs|e|] w1]; [|done..].
  unfold mret, M_ret. by intros [= <- <-].
Qed.

Lemma list_documents_route_ok pages w docs w' :
  list_documents pages w = (Ok docs, w') →
  list_documents_route pages w
  = (Ok {| lr_documents := docs; lr_total := Z.of_nat (length docs) |}, w').
Proof.
  intros H. unfold list_documents_route, try_except, mbind at 1, M_bind at 1.
  by rewrite H.
Qed.

Lemma delete_document_route_state d w :
  (delete_document_route d w).2
  = set_collection (filter (λ p, ¬ in_document d p) (collection w)) w.
Proof.
  unfold delete_document_route, try_except, mbind, M_bind.
  by rewrite delete_document_spec.
Qed.

Lemma chunks_for_member key docs s :
  distinct_keys (doc_document_id <$> docs) →
  s ∈ docs →
  py_eq (doc_document_id s) key = true →
  chunks_for key docs = doc_chunks s.
Proof.
  unfold chunks_for. induction docs as [|s0 docs IH]; [by intros _ ?%elem_of_nil|].
  rewrite fmap_cons. cbn [distinct_keys List.find].
  intros [Hhead Hrest] [->|Hin]%elem_of_cons Hkey.
  - by rewrite Hkey.
  - destruct (py_eq (doc_document_id s0) key) eqn:H0; [|by apply IH].
    rewrite Forall_fmap, Forall_forall in Hhead.
    specialize (Hhead s Hin). simpl in Hhead.
    rewrite (py_eq_congr _ _ _ H0) in Hhead.
    rewrite py_eq_sym in Hhead. congruence.
Qed.

(** X16. An uploaded document shows up in the listing: after a
    successful [upload_document] into an index filled by the pipeline,
    [GET /documents] succeeds, lists under the new document id exactly
    [chunks_indexed] chunks, and the entry of that id carries the file
    name, type, patient id, case number and page total of the upload. *)
Theorem upload_then_listed (ocr : UploadFile → OcrReply) (fuel pages : nat)
    (file : UploadFile) (document_type : str)
    (patient_id case_number : option str) (w w' : World)
    (r : UploadResponse) :
  Healthy w →
  upload_document ocr fuel file document_type patient_id case_number w
  = (Ok r, w') →
  (Z.of_nat (length (collection w')) < 100 * Z.of_nat pages)%Z →
  ∃ resp,
    list_documents_route pages w' = (Ok resp, w') ∧
    lr_total resp = Z.of_nat (length (lr_documents resp)) ∧
    chunks_for (VStr (up_document_id r)) (lr_documents resp)
    = up_chunks_indexed r ∧
    ∀ s, s ∈ lr_documents resp →
         doc_document_id s = VStr (up_document_id r) →
         doc_source s = VStr (filename file) ∧
         doc_document_type s = VStr document_type ∧
         doc_patient_id s = VStr (default [] patient_id) ∧
         doc_case_number s = VStr (default [] case_number) ∧
         doc_total_pages s = VInt (up_total_pages r) ∧
         doc_chunks s = up_chunks_indexed r.
Proof.
  intros Hw Hup Hpages. pose proof Hw as (_ & Hids & Hdocs).
  destruct (upload_document_effect ocr fuel file document_type patient_id
              case_number w Hids) as [[_ Hno]|(result & new & Hres)].
  { rewrite Hup in Hno. by destruct (Hno r). }
  cbv zeta in Hres. rewrite Hup in Hres. cbn [fst snd] in Hres.
  destruct Hres as (_ & Hg & Hp & Hr). specialize (Hr r eq_refl).
  set (id := uuid_str (uuid_next w)) in *.
  set (metadata := upload_metadata file id document_type patient_id
                     case_number (default 0 (ocr_total_pages result))) in *.
  destruct (upload_metadata_lookup file id document_type patient_id
              case_number (default 0 (ocr_total_pages result)))
    as [Hid Hpage]. fold metadata in Hid, Hpage.
  assert (Forall (carries metadata) new) as Hcarries.
  { eapply Forall_impl; [exact Hp|]. intros p (chunk_text & pg & _ & Hpay).
    by destruct (page_payload_facts metadata pg chunk_text p Hpage Hpay). }
  assert (Forall (in_document id) new) as Hnew.
  { eapply Forall_impl; [exact Hcarries|]. intros p Hc. by apply Hc. }
  assert (Forall (λ p, py_eq (doc_key p) (VStr id) = false) (collection w))
    as Hold.
  { eapply Forall_impl; [exact Hdocs|]. intros p (n & Hn & Hpn).
    unfold doc_key. rewrite Hpn. simpl. apply bool_decide_eq_false.
    intros Heq%(inj uuid_str). lia. }
  pose proof (Healthy_grows w w' new Hw Hg Hnew) as (Hnd' & _ & _).
  destruct (list_documents_cases pages w' Hnd') as [Hok|[_ Hlen]]; [|lia].
  destruct (listing_of_collection (collection w'))
    as (Hkey & Hdist & _ & Hcount & Hfirst).
  rewrite <- keys_keyed in Hdist by done.
  set (listed := summarize (scroll_order (collection w'))) in *.
  exists {| lr_documents := listed.*2;
            lr_total := Z.of_nat (length listed.*2) |}.
  split; [by apply list_documents_route_ok|]. split; [done|].
  cbn [lr_documents].
  assert (chunks_for (VStr id) listed.*2 = Z.of_nat (length new)) as Hchunks.
  { rewrite chunks_for_keyed, Hcount by done.
    destruct Hg as (-> & _). cbn [collection bump_uuid].
    rewrite filter_app, length_app.
    rewrite (filter_Forall_not_nil _ (collection w)), (filter_Forall_id _ new).
    - simpl. lia.
    - eapply Forall_impl; [exact Hnew|]. intros p Hin.
      unfold doc_key. rewrite Hin. simpl. by apply bool_decide_eq_true.
    - eapply Forall_impl; [exact Hold|]. intros p Hpf. by rewrite Hpf. }
  subst r. cbn [up_document_id up_chunks_indexed up_total_pages].
  split; [done|].
  intros s Hs Hsid.
  assert (doc_chunks s = Z.of_nat (length new)) as Hsc.
  { rewrite <- Hchunks. symmetry. apply chunks_for_member; [done..|].
    rewrite Hsid. apply py_eq_refl. }
  rewrite Forall_forall in Hfirst.
  apply list_elem_of_fmap in Hs as (e & -> & He).
  destruct (Hfirst e He)
    as (before & p & after & Hsplit & _ & Hk & H1 & H2 & H3 & H4 & H5).
  rewrite Hsid in Hk.
  assert (p ∈ new) as Hpn.
  { assert (p ∈ collection w') as Hin.
    { rewrite <- (scroll_order_Permutation (collection w')), Hsplit.
      apply elem_of_app. right. left. }
    destruct Hg as (Hc & _). rewrite Hc in Hin. cbn [collection bump_uuid] in Hin.
    apply elem_of_app in Hin as [Hin|Hin]; [|done].
    rewrite Forall_forall in Hold. specialize (Hold p Hin).
    rewrite <- Hk in Hold. simpl in Hold.
    by rewrite bool_decide_eq_true_2 in Hold. }
  rewrite Forall_forall in Hcarries. specialize (Hcarries p Hpn).
  rewrite H1, H2, H3, H4, H5. cbn [first_seen doc_source doc_document_type
    doc_patient_id doc_case_number doc_total_pages].
  rewrite (Hcarries (py "source") (VStr (filename file))),
    (Hcarries (py "document_type") (VStr document_type)),
    (Hcarries (py "patient_id") (VStr (default [] patient_id))),
    (Hcarries (py "case_number") (VStr (default [] case_number))),
    (Hcarries (py "total_pages")
       (VInt (default 0 (ocr_total_pages result))));
    [done|unfold metadata, upload_metadata; map_lookup..].
Qed.

Lemma upload_then_listed_witness :
  ∃ resp,
    list_documents_route 1
      (upload_document (λ _, OcrOk three_pages) 4 scan (py "gerichtsakte")
         (Some (py "P-17")) None library_world).2
    = (Ok resp,
       (upload_document (λ _, OcrOk three_pages) 4 scan (py "gerichtsakte")
          (Some (py "P-17")) None library_world).2) ∧
    chunks_for (VStr (uuid_str 4)) (lr_documents resp) = 2.
Proof.
  set (res := upload_document (λ _, OcrOk three_pages) 4 scan
                (py "gerichtsakte") (Some (py "P-17")) None library_world).
  set (r := {| up_document_id := uuid_str 4; up_filename := filename scan;
               up_total_pages := 3; up_chunks_indexed := 2;
               up_characters_extracted := 130;
               up_metadata :=
                 upload_metadata scan (uuid_str 4) (py "gerichtsakte")
                   (Some (py "P-17")) None 3 |}).
  assert (res = (Ok r, res.2)) as Hres.
  { rewrite (surjective_pairing res) at 1.
    apply (f_equal (λ x, (x, res.2))). vm_compute. reflexivity. }
  destruct (upload_then_listed (λ _, OcrOk three_pages) 4 1 scan
              (py "gerichtsakte") (Some (py "P-17")) None library_world
              res.2 r library_world_Healthy Hres)
    as (resp & Hroute & _ & Hchunks & _).
  - vm_compute. reflexivity.
  - exists resp. split; [exact Hroute|exact Hchunks].
Defined.

Lemma count_after_delete_unknown (l : list Point) :
  length (filter (λ p, py_eq (doc_key p) (VStr (py "unknown")) = true)
            (filter (λ p, ¬ in_document (py "unknown") p) l))
  = length (filter (λ p, payload p !! py "document_id" = None) l).
Proof.
  induction l as [|p l IH]; [done|].
  rewrite !filter_cons.
  destruct (decide (¬ in_document (py "unknown") p)) as [Hp|Hp];
    destruct (decide (payload p !! py "document_id" = None)) as [Hn|Hn].
  - rewrite filter_cons, decide_True; [cbn [length]; by rewrite IH|].
    unfold doc_key. rewrite Hn. apply py_eq_refl.
  - rewrite filter_cons, decide_False; [done|].
    intros Heq%py_eq_VStr. unfold doc_key, in_document in *.
    destruct (payload p !! py "document_id") as [v|]; simpl in *; congruence.
  - apply dec_stable in Hp. unfold in_document in Hp. congruence.
  - done.
Qed.

Lemma count_after_delete_other (d : str) (key : Value) (l : list Point) :
  py_eq key (VStr d) = false →
  length (filter (λ p, py_eq (doc_key p) key = true)
            (filter (λ p, ¬ in_document d p) l))
  = length (filter (λ p, py_eq (doc_key p) key = true) l).
Proof.
  intros Hkd. induction l as [|p l IH]; [done|].
  rewrite !filter_cons.
  destruct (decide (¬ in_document d p)) as [Hp|Hp].
  - rewrite filter_cons. destruct (decide _); cbn [length]; by rewrite IH.
  - rewrite decide_False; [done|].
    apply dec_stable in Hp. unfold in_document in Hp.
    replace (doc_key p) with (VStr d) by (unfold doc_key; by rewrite Hp).
    rewrite py_eq_sym. congruence.
Qed.

(** X17. A deleted document leaves the listing.  After
    [DELETE /documents/{id}], [GET /documents] has no entry for [id] and
    the chunk counts of all other entries are what they were; the one
    exception is the id ["unknown"], under which the points without a
    [document_id] are listed and which the deletion does not touch. *)
Theorem delete_then_listing (document_id : str) (pages : nat) (w w' : World)
    (resp : ListResponse) :
  NoDup (point_id <$> collection w) →
  list_documents_route pages (delete_document_route document_id w).2
  = (Ok resp, w') →
  (document_id ≠ py "unknown" →
   Forall (λ s, doc_document_id s ≠ VStr document_id) (lr_documents resp)) ∧
  chunks_for (VStr document_id) (lr_documents resp)
  = (if bool_decide (document_id = py "unknown")
     then Z.of_nat (length (filter (λ p, payload p !! py "document_id" = None)
                              (collection w)))
     else 0) ∧
  ∀ key, py_eq key (VStr document_id) = false →
         chunks_for key (lr_documents resp)
         = Z.of_nat (length (filter (λ p, py_eq (doc_key p) key = true)
                               (collection w))).
Proof.
  intros Hnd [Hlist _]%list_documents_route_inv.
  rewrite delete_document_route_state in Hlist.
  set (w1 := set_collection _ w) in Hlist.
  assert (NoDup (point_id <$> collection w1)) as Hnd1.
  { apply (sublist_NoDup _ (point_id <$> collection w)); [done|].
    apply fmap_sublist, sublist_filter. }
  destruct (list_documents_cases pages w1 Hnd1) as [Hok|[Hhang _]];
    [|congruence].
  rewrite Hok in Hlist. injection Hlist as Hdocs _. rewrite <- Hdocs.
  destruct (listing_of_collection (collection w1))
    as (Hkey & _ & _ & Hcount & Hfirst).
  cbn [collection set_collection w1] in *.
  split; [|split].
  - intros Hd. apply Forall_fmap, Forall_forall. intros e He Heq.
    rewrite Forall_forall in Hfirst.
    destruct (Hfirst e He) as (before & p & after & Hsplit & _ & Hk & _).
    assert (p ∈ filter (λ p, ¬ in_document document_id p) (collection w))
      as [Hp _]%list_elem_of_filter.
    { rewrite <- (scroll_order_Permutation (filter _ (collection w))), Hsplit.
      apply elem_of_app. right. left. }
    simpl in Heq. rewrite Heq in Hk. apply Hp.
    unfold in_document. unfold doc_key in Hk.
    destruct (payload p !! py "document_id") as [v|]; simpl in Hk; congruence.
  - rewrite chunks_for_keyed, Hcount by done. case_bool_decide as Hd.
    + subst document_id. by rewrite count_after_delete_unknown.
    + rewrite filter_Forall_not_nil; [done|].
      apply Forall_forall. intros p [Hp _]%list_elem_of_filter.
      intros Heq%py_eq_VStr. unfold in_document in Hp. unfold doc_key in Heq.
      destruct (payload p !! py "document_id") as [v|]; simpl in *; congruence.
  - intros key Hkd. rewrite chunks_for_keyed, Hcount by done.
    by rewrite count_after_delete_other.
Qed.

Lemma delete_then_listing_witness :
  Forall (λ s, doc_document_id s ≠ VStr (uuid_str 0))
    (summarize
       (scroll_order
          (collection
             (delete_document_route (uuid_str 0) library_world).2))).*2.
Proof.
  destruct (delete_then_listing (uuid_str 0) 1 library_world
              (delete_document_route (uuid_str 0) library_world).2
              {| lr_documents :=
                   (summarize
                      (scroll_order
                         (collection
                            (delete_document_route (uuid_str 0)
                               library_world).2))).*2;
                 lr_total := 0 |}) as (Hgone & _).
  - apply library_world_Healthy.
  - vm_compute. reflexivity.
  - apply Hgone. vm_compute. discriminate.
Defined.

End ListingFacts.

(* ================================================================== *)
(** * Rejected uploads and the model list *)
(* ================================================================== *)

Module GatewayFacts.
Import Chunking Embedding VectorStore Chat Documents Audio Models.
Import Props PropsMore Demo DemoMore.
Import ChunkingFacts EmbeddingFacts VectorStoreFacts IndexingFacts UploadFacts.

(** ** Uploads that fail *)

Lemma raise_inv {A} (x e : Exn) (w : World) :
  ((raise x : M A) w).1 = Raise e → e = x.
Proof. unfold raise. cbn [fst]. by intros [= ->]. Qed.

Lemma add_text_not_loaded (fuel : nat) (text : str) (metadata : dict)
    (w : World) :
  emb_model w = None →
  (add_text fuel text metadata w).2 = w ∧
  ∀ e, (add_text fuel text metadata w).1 = Raise e → e = not_initialised.
Proof.
  intros Hm. rewrite add_text_spec, Hm.
  destruct (chunk _ fuel text) as [[|ch chs]|]; (split; [done|]);
    intros e; cbn [fst]; unfold not_initialised; congruence.
Qed.

Lemma index_pages_not_loaded (fuel : nat) (pages : list PageInfo)
    (metadata : dict) (n : Z) (w : World) :
  emb_model w = None →
  (index_pages fuel pages metadata n w).2 = w ∧
  ∀ e, (index_pages fuel pages metadata n w).1 = Raise e →
       e = not_initialised.
Proof.
  intros Hm. revert n. induction pages as [|page_info rest IH]; intros n.
  { by split. }
  cbn [index_pages]. case_bool_decide; [apply IH|].
  unfold mbind, M_bind.
  destruct (add_text_not_loaded fuel (default [] (pg_text page_info))
              (<[ py "page" := VInt (default 0 (pg_page page_info)) ]>
                 metadata) w Hm) as [Hstate Hexn].
  destruct (add_text _ _ _ w) as [[count|e'|] w1]; cbn [fst snd] in *.
  - subst w1. apply IH.
  - split; [done|]. intros e [= <-]. by apply Hexn.
  - by split.
Qed.

(** The ways in which an upload is rejected, in the order of the checks;
    what the indexing step raises is reported as status 500. *)
Lemma upload_document_raises (ocr : UploadFile → OcrReply) (fuel : nat)
    (file : UploadFile) (document_type : str)
    (patient_id case_number : option str) (w : World) (e : Exn) :
  let res :=
    upload_document ocr fuel file document_type patient_id case_number w in
  res.1 = Raise e →
  (file_bytes file = [] ∧
   e = HTTPException 400 (py "Leere Datei.") ∧ res.2 = w) ∨
  (file_bytes file ≠ [] ∧
   endswith (lower (filename file)) (py ".pdf") = false ∧
   e = HTTPException 400 (py "Nur PDF-Dateien werden unterstützt.") ∧
   res.2 = w) ∨
  (∃ msg, file_bytes file ≠ [] ∧
          endswith (lower (filename file)) (py ".pdf") = true ∧
          ocr file = OcrFailed msg ∧
          e = HTTPException 502
                (py "OCR-Verarbeitung fehlgeschlagen: " ++ msg) ∧
          res.2 = w) ∨
  (∃ result, file_bytes file ≠ [] ∧
             endswith (lower (filename file)) (py ".pdf") = true ∧
             ocr file = OcrOk result ∧
             blank (default [] (ocr_markdown result)) ∧
             e = HTTPException 422
                   (py "OCR konnte keinen Text aus dem PDF extrahieren.") ∧
             res.2 = w) ∨
  (∃ result e', file_bytes file ≠ [] ∧
                endswith (lower (filename file)) (py ".pdf") = true ∧
                ocr file = OcrOk result ∧
                ¬ blank (default [] (ocr_markdown result)) ∧
                e = HTTPException 500
                      (py "Indexierung fehlgeschlagen: " ++ exn_str e') ∧
                (emb_model w = None →
                 e' = not_initialised ∧ res.2 = bump_uuid w)).
Proof.
  cbv zeta. unfold upload_document.
  case_bool_decide as Hbytes.
  { intros ->%raise_inv. by left. }
  destruct (endswith _ _) eqn:Hpdf; cbn [negb].
  2:{ intros ->%raise_inv. right. by left. }
  destruct (ocr file) as [result|msg] eqn:Hocr.
  2:{ intros ->%raise_inv. do 2 right. left. by exists msg. }
  case_bool_decide as Hblank.
  { intros ->%raise_inv. do 3 right. left. exists result.
    do 3 (split; [done|]). split; [by apply strip_nil|done]. }
  unfold try_except, mbind at 1, M_bind at 1, uuid4.
  set (metadata := ({[ py "source" := VStr (filename file);
                       py "document_id" := VStr (uuid_str (uuid_next w));
                       py "document_type" := VStr document_type;
                       py "patient_id" := VStr (default [] patient_id);
                       py "case_number" := VStr (default [] case_number);
                       py "total_pages" :=
                         VInt (default 0 (ocr_total_pages result)) ]} : dict)).
  set (index := match default [] (ocr_pages result) with
                | [] => add_text fuel (default [] (ocr_markdown result))
                          (<[ py "page" := VInt 0 ]> metadata)
                | _ :: _ =>
                    index_pages fuel (default [] (ocr_pages result))
                      metadata 0
                end).
  assert (emb_model w = None →
          (index (bump_uuid w)).2 = bump_uuid w ∧
          ∀ e', (index (bump_uuid w)).1 = Raise e' → e' = not_initialised)
    as Hindex.
  { intros Hm. unfold index. destruct (default [] (ocr_pages result)).
    - by apply add_text_not_loaded.
    - by apply index_pages_not_loaded. }
  unfold mbind, M_bind. fold metadata. fold index.
  destruct (index (bump_uuid w)) as [[n|e'|] w1]; cbn [fst snd] in *;
    [done| |done].
  intros ->%raise_inv. do 4 right. exists result, e'.
  do 2 (split; [done|]). split; [done|].
  split; [by rewrite <- strip_nil|]. split; [done|].
  intros Hm. destruct (Hindex Hm) as [-> He']. split; [by apply He'|done].
Qed.

(** X18. A rejected upload.  Whenever [upload_document] raises on an
    index whose identifiers were drawn by the pipeline, the collection is
    what it was followed by the points of the pages indexed before the
    failure, all of them under the document id drawn for this upload.  The
    checks come in this order: an empty file is answered with 400; a name
    that does not end in [.pdf] (upper or lower case) with 400; a failed
    OCR call with 502; a blank OCR text with 422; in these four cases the
    state is untouched.  Otherwise the indexing step failed, and whatever
    it raised is reported as status 500 with the text of the exception;
    only then can points have been stored.  With the embedding model not
    loaded that exception is the model's, and only the document id was
    drawn. *)
Theorem upload_document_failures (ocr : UploadFile → OcrReply) (fuel : nat)
    (file : UploadFile) (document_type : str)
    (patient_id case_number : option str) (w : World) (e : Exn) :
  let res :=
    upload_document ocr fuel file document_type patient_id case_number w in
  ids_below w →
  res.1 = Raise e →
  ∃ partial,
    collection res.2 = collection w ++ partial ∧
    Forall (in_document (uuid_str (uuid_next w))) partial ∧
    (partial ≠ [] →
     ∃ e', e = HTTPException 500
                 (py "Indexierung fehlgeschlagen: " ++ exn_str e')) ∧
    (file_bytes file = [] →
     e = HTTPException 400 (py "Leere Datei.") ∧ res.2 = w) ∧
    (file_bytes file ≠ [] →
     endswith (lower (filename file)) (py ".pdf") = false →
     e = HTTPException 400 (py "Nur PDF-Dateien werden unterstützt.") ∧
     res.2 = w) ∧
    (∀ msg,
       file_bytes file ≠ [] →
       endswith (lower (filename file)) (py ".pdf") = true →
       ocr file = OcrFailed msg →
       e = HTTPException 502 (py "OCR-Verarbeitung fehlgeschlagen: " ++ msg) ∧
       res.2 = w) ∧
    (∀ result,
       file_bytes file ≠ [] →
       endswith (lower (filename file)) (py ".pdf") = true →
       ocr file = OcrOk result →
       (blank (default [] (ocr_markdown result)) →
        e = HTTPException 422
              (py "OCR konnte keinen Text aus dem PDF extrahieren.") ∧
        res.2 = w) ∧
       (¬ blank (default [] (ocr_markdown result)) →
        ∃ e', e = HTTPException 500
                    (py "Indexierung fehlgeschlagen: " ++ exn_str e') ∧
              (emb_model w = None →
               e' = not_initialised ∧ res.2 = bump_uuid w))).
Proof.
  cbv zeta. intros Hw He.
  pose proof (upload_document_raises ocr fuel file document_type patient_id
                case_number w e He) as Hcases.
  pose proof (upload_document_effect ocr fuel file document_type patient_id
                case_number w Hw) as Heff.
  cbv zeta in Hcases, Heff.
  set (res := upload_document ocr fuel file document_type patient_id
                case_number w) in *.
  assert (∃ partial,
            collection res.2 = collection w ++ partial ∧
            Forall (in_document (uuid_str (uuid_next w))) partial)
    as (partial & Hcol & Hdoc).
  { destruct Heff as [[Hsame _]|(result & new & Hocr & Hg & Hp & _)].
    - exists []. by rewrite Hsame, app_nil_r.
    - exists new. split; [by destruct Hg as [Hc _]|].
      destruct (upload_metadata_lookup file (uuid_str (uuid_next w))
                  document_type patient_id case_number
                  (default 0 (ocr_total_pages result))) as [Hid Hpage].
      eapply Forall_impl; [exact Hp|]. intros p (c & pg & _ & Hpl).
      destruct (page_payload_facts _ pg c p Hpage Hpl) as [Hcar _].
      by apply Hcar. }
  assert (res.2 = w → partial = []) as Hnone.
  { intros Hsame. rewrite Hsame in Hcol.
    rewrite <- (app_nil_r (collection w)) in Hcol at 1.
    by apply app_inv_head in Hcol. }
  clear Heff He. exists partial. split; [done|]. split; [done|].
  destruct Hcases
    as [(Hb & -> & Hs)|[(Hb & Hp & -> & Hs)|[(msg & Hb & Hp & Ho & -> & Hs)|
        [(result & Hb & Hp & Ho & Hbl & -> & Hs)|
         (result & e' & Hb & Hp & Ho & Hbl & -> & Hm)]]]].
  - split; [intros Hne; destruct Hne; by apply Hnone|]. split; [done|].
    split; [by intros []|]. split; [by intros msg []|]. by intros result [].
  - split; [intros Hne; destruct Hne; by apply Hnone|]. split; [by intros Hb'|].
    split; [done|].
    split; intros x _ Hp'; exfalso; congruence.
  - split; [intros Hne; destruct Hne; by apply Hnone|]. split; [by intros Hb'|].
    split; [intros _ Hp'; exfalso; congruence|].
    split.
    + intros msg' _ _ Ho'. assert (msg' = msg) as -> by congruence. done.
    + intros result _ _ Ho'. exfalso. congruence.
  - split; [intros Hne; destruct Hne; by apply Hnone|]. split; [by intros Hb'|].
    split; [intros _ Hp'; exfalso; congruence|].
    split; [intros msg' _ _ Ho'; exfalso; congruence|].
    intros result' _ _ Ho'. assert (result' = result) as -> by congruence.
    split; [done|]. by intros [].
  - split; [intros _; by exists e'|]. split; [by intros Hb'|].
    split; [intros _ Hp'; exfalso; congruence|].
    split; [intros msg' _ _ Ho'; exfalso; congruence|].
    intros result' _ _ Ho'. assert (result' = result) as -> by congruence.
    split; [by intros ?|]. intros _. by exists e'.
Qed.

Lemma upload_document_failures_witness :
  ∃ partial,
    collection
      (upload_document (λ _, OcrOk three_pages) 4 scan (py "gerichtsakte")
         (Some (py "P-17")) None small_disk_world).2
    = collection small_disk_world ++ partial ∧
    Forall (in_document (uuid_str 0)) partial.
Proof.
  destruct (upload_document_failures (λ _, OcrOk three_pages) 4 scan
              (py "gerichtsakte") (Some (py "P-17")) None small_disk_world
              (HTTPException 500
                 (py "Indexierung fehlgeschlagen: " ++ py "disk full")))
    as (partial & Hcol & Hdoc & _).
  - constructor.
  - vm_compute. reflexivity.
  - exists partial. split; [exact Hcol|exact Hdoc].
Defined.

(** The database stores the chunk of page 1 and refuses that of page 3:
    the upload is answered with status 500, and the point of page 1 stays
    in the index. *)
Example upload_partly_indexed :
  (upload_document (λ _, OcrOk three_pages) 4 scan (py "gerichtsakte")
     (Some (py "P-17")) None small_disk_world).1
  = Raise (HTTPException 500
             (py "Indexierung fehlgeschlagen: " ++ py "disk full")) ∧
  (λ p, (payload p !! py "document_id", payload p !! py "page"))
    <$> collection
          (upload_document (λ _, OcrOk three_pages) 4 scan (py "gerichtsakte")
             (Some (py "P-17")) None small_disk_world).2
  = [(Some (VStr (uuid_str 0)), Some (VInt 1))].
Proof. split; vm_compute; reflexivity. Qed.

(** ** The long-form transcription *)

(** X19. The outcomes of the long-form transcription.  The recording
    handed to the speech model is the denoised one when denoising was
    requested and succeeded, and the original otherwise, while [denoised]
    in the answer repeats the request.  The call fails in three ways, each
    leaving the state untouched: 503 when the speech model is not ready,
    400 for an empty recording, 500 when the transcription fails.  A
    failure of the indexing step never fails the call, and [indexed] is
    present exactly when a non-empty patient id was given. *)
Theorem transcribe_long_audio_outcomes (svc : AudioServices) (fuel : nat)
    (filename : str) (audio : list Byte.byte) (language : option str)
    (denoise : bool) (patient_id : option str) (w : World) :
  let res :=
    transcribe_long_audio svc fuel filename audio language denoise
      patient_id w in
  let heard :=
    if denoise then default audio (denoise_call svc audio) else audio in
  let spoken := or_str language (stt_language (settings w)) in
  match res.1 with
  | Raise e =>
      res.2 = w ∧
      ((stt_is_ready svc = false ∧
        e = HTTPException 503 (py "STT-Service nicht bereit.")) ∨
       (stt_is_ready svc = true ∧ audio = [] ∧
        e = HTTPException 400 (py "Leere Audio-Datei.")) ∨
       (∃ msg, audio ≠ [] ∧
               stt_transcribe svc heard spoken = SttFailed msg ∧
               e = HTTPException 500
                     (py "Transkription fehlgeschlagen: " ++ msg)))
  | Ok t =>
      ∃ result,
        stt_is_ready svc = true ∧ audio ≠ [] ∧
        stt_transcribe svc heard spoken = SttOk result ∧
        lt_text t = stt_text result ∧ lt_filename t = filename ∧
        lt_patient_id t = patient_id ∧ lt_denoised t = denoise ∧
        (lt_indexed t = None ↔ patient_id = None ∨ patient_id = Some [])
  | Hang => ∃ pid, patient_id = Some pid ∧ pid ≠ []
  end.
Proof.
  cbv zeta. unfold transcribe_long_audio, get_settings, mbind, M_bind.
  cbv zeta. cbn [fst snd].
  destruct (stt_is_ready svc); cbn [negb].
  2:{ unfold raise. cbn [fst snd]. split; [reflexivity|]. left.
      split; reflexivity. }
  case_bool_decide as Haudio.
  { unfold raise. cbn [fst snd]. split; [reflexivity|]. right. left.
    split; [reflexivity|]. split; [exact Haudio|reflexivity]. }
  destruct (stt_transcribe svc _ _) as [result|msg] eqn:Hstt.
  2:{ unfold raise. cbn [fst snd]. split; [reflexivity|]. right. right.
      exists msg. split; [exact Haudio|]. split; reflexivity. }
  assert (∀ indexed : option bool,
            (indexed = None ↔ patient_id = None ∨ patient_id = Some []) →
            ∃ result0,
              true = true ∧ audio ≠ [] ∧ SttOk result = SttOk result0 ∧
              stt_text result = stt_text result0 ∧ filename = filename ∧
              patient_id = patient_id ∧ denoise = denoise ∧
              (indexed = None ↔ patient_id = None ∨ patient_id = Some []))
    as Hok.
  { intros indexed Hiff. exists result. do 7 (split; [done|]). exact Hiff. }
  destruct patient_id as [[|c pid]|]; unfold mret, M_ret; cbn [fst snd].
  - apply (Hok None). split; [by right|done].
  - unfold try_except.
    destruct (add_transcript fuel _ (c :: pid) w) as [[n|e|] w1];
      unfold mret, M_ret; cbn [fst snd].
    + apply (Hok (Some true)). split; [done|]. by intros [|].
    + apply (Hok (Some false)). split; [done|]. by intros [|].
    + by exists (c :: pid).
  - apply (Hok None). split; [by left|done].
Qed.

(** ** The model list *)

Lemma split_on_not_nil sep s : split_on sep s ≠ [].
Proof.
  destruct s as [|c s]; [done|]. cbn [split_on].
  destruct (c =? sep)%N; [done|]. by destruct (split_on sep s).
Qed.

Lemma split_on_free sep s : Forall (λ segment, sep ∉ segment) (split_on sep s).
Proof.
  induction s as [|c s IH]; cbn [split_on].
  - repeat constructor. apply not_elem_of_nil.
  - destruct (c =? sep)%N eqn:Hc.
    + constructor; [apply not_elem_of_nil|done].
    + apply N.eqb_neq in Hc.
      destruct (split_on sep s) as [|segment segments].
      * repeat constructor. rewrite list_elem_of_singleton. congruence.
      * apply Forall_cons in IH as [Hs Hrest]. constructor; [|done].
        rewrite elem_of_cons. intros [?|?]; [congruence|done].
Qed.

(** [sep.join(s.split(sep)) == s] *)
Lemma join_split_on sep s : join [sep] (split_on sep s) = s.
Proof.
  induction s as [|c s IH]; [done|]. cbn [split_on].
  destruct (c =? sep)%N eqn:Hc.
  - apply N.eqb_eq in Hc. subst c.
    pose proof (split_on_not_nil sep s) as Hne.
    destruct (split_on sep s) as [|segment segments]; [done|].
    cbn [join] in *. by rewrite IH.
  - pose proof (split_on_not_nil sep s) as Hne.
    destruct (split_on sep s) as [|segment segments]; [done|].
    rewrite <- IH. by destruct segments.
Qed.

Lemma join_snoc sep parts part :
  parts ≠ [] → join sep (parts ++ [part]) = join sep parts ++ sep ++ part.
Proof.
  induction parts as [|p parts IH]; [done|]. intros _.
  destruct parts as [|q parts]; [done|].
  change ((p :: q :: parts) ++ [part]) with (p :: (q :: parts) ++ [part]).
  cbn [join app]. cbn [join app] in IH. rewrite IH by done.
  by rewrite <- !app_assoc.
Qed.

(** X20. The model id announced by [GET /v1/models] is the part of the
    configured model name after its last slash: it contains no slash, the
    configured name ends with it, and what precedes it is empty or ends
    with a slash.  The list has this one entry, and the state is not
    touched. *)
Theorem list_models_id (now : Z) (w : World) :
  ∃ id before,
    list_models now w
    = (Ok [ {| me_id := id; me_object := py "model"; me_created := now;
               me_owned_by := py "local" |} ], w) ∧
    (47%N ∉ id) ∧
    llm_model (settings w) = before ++ id ∧
    (before = [] ∨ last before = Some 47%N).
Proof.
  set (parts := split_on 47 (llm_model (settings w))).
  exists (List.last parts []).
  assert (parts ≠ []) as Hne by apply split_on_not_nil.
  pose proof (app_removelast_last [] Hne) as Hparts.
  pose proof (split_on_free 47 (llm_model (settings w))) as Hfree.
  pose proof (join_split_on 47 (llm_model (settings w))) as Hjoin.
  fold parts in Hfree, Hjoin.
  destruct (removelast parts) as [|p init] eqn:Hinit.
  - exists []. split; [done|]. rewrite Hparts in Hfree, Hjoin at 1.
    apply Forall_cons in Hfree as [Hfree _]. split; [done|].
    split; [by rewrite <- Hjoin|by left].
  - exists (join [47%N] (p :: init) ++ [47%N]).
    split; [done|]. rewrite Hparts in Hfree, Hjoin at 1.
    apply Forall_app in Hfree as [_ [Hfree _]%Forall_cons].
    split; [done|]. split.
    + rewrite <- Hjoin at 1. rewrite join_snoc by done.
      by rewrite <- app_assoc.
    + right. apply last_snoc.
Qed.

End GatewayFacts.

(* ================================================================== *)
(** * More on the chat endpoint *)
(* ================================================================== *)

Module ChatMore.
Import Embedding Qdrant VectorStore Chat Props PropsMore Demo DemoMore.
Import EmbeddingFacts VectorStoreFacts ChatFacts SearchDeleteFacts.

(** ** The context block *)

Lemma search_descending query top_k filters w results w1 :
  search query top_k filters w = (Ok results, w1) → descending results.
Proof.
  pose proof (search_outcome query top_k filters w) as Hout.
  cbv zeta in Hout.
  destruct (emb_model w) as [encode|]; [|by rewrite Hout].
  destruct (encode _) as [|v vs]; [by rewrite Hout|].
  destruct (decide (admissible filters)) as [Hadm|Hadm];
    [|destruct Hout as [msg ->]; done].
  destruct (top_k <=? 0); [by rewrite Hout|].
  destruct (query_error _ _ _ _); [by rewrite Hout|].
  destruct Hout as (f & _ & ->). intros [= <- _].
  apply descending_fmap_format, StronglySorted_take.
  apply StronglySorted_merge_sort; apply _.
Qed.

Lemma cite_meets fmt th i r :
  meets th r → cite fmt th i r = Some (context_part fmt i r, citation r).
Proof.
  intros H. unfold cite. apply Qle_bool_iff in H. by rewrite H.
Qed.

Lemma cite_all_none fmt th results (g : nat → nat) :
  Forall (λ r, ¬ meets th r) results →
  omap id (imap (λ i r, cite fmt th (Z.of_nat (g i)) r) results) = [].
Proof.
  intros H. revert g. induction H as [|r rs Hr Hrs IH]; intros g; [done|].
  rewrite imap_cons, (cite_None fmt th _ r Hr). cbn [omap list_omap id].
  apply (IH (g ∘ S)).
Qed.

(** In a ranking, the results that meet the threshold come first. *)
Lemma cite_all_prefix fmt th results :
  descending results →
  ∃ k, (k ≤ length results)%nat ∧
    Forall (meets th) (take k results) ∧
    Forall (λ r, ¬ meets th r) (drop k results) ∧
    ∀ g : nat → nat,
      omap id (imap (λ i r, cite fmt th (Z.of_nat (g i)) r) results)
      = imap (λ i r, (context_part fmt (Z.of_nat (g i)) r, citation r))
          (take k results).
Proof.
  induction 1 as [|r rs Hs IH Hall].
  - exists 0%nat. split; [done|]. by repeat split.
  - destruct (decide (meets th r)) as [Hr|Hr].
    + destruct IH as (k & Hk & Hm & Hn & Heq). exists (S k).
      split; [simpl; lia|]. split; [by constructor|]. split; [done|].
      intros g. cbn [take]. rewrite !imap_cons, (cite_meets fmt th _ r Hr).
      cbn [omap list_omap id]. f_equal. apply (Heq (g ∘ S)).
    + exists 0%nat. split; [simpl; lia|]. split; [constructor|].
      assert (Forall (λ r, ¬ meets th r) (r :: rs)) as Hnone.
      { constructor; [done|]. eapply Forall_impl; [exact Hall|].
        intros b Hb Hmb. apply Hr. unfold meets in *.
        by apply (Qle_trans _ (res_score b)). }
      split; [done|]. intros g. by rewrite (cite_all_none fmt th _ g Hnone).
Qed.

Lemma fst_imap_pair {A B C} (a : nat → A → B) (b : A → C) (l : list A) :
  (imap (λ i r, (a i r, b r)) l).*1 = imap a l.
Proof.
  revert a. induction l as [|x l IH]; intros a; [done|].
  rewrite !imap_cons, fmap_cons. f_equal. apply (IH (a ∘ S)).
Qed.

Lemma snd_imap_pair {A B C} (a : nat → A → B) (b : A → C) (l : list A) :
  (imap (λ i r, (a i r, b r)) l).*2 = b <$> l.
Proof.
  revert a. induction l as [|x l IH]; intros a; [done|].
  rewrite !imap_cons, !fmap_cons. f_equal. apply (IH (a ∘ S)).
Qed.

(** X21. The context block cites the best results, numbered without
    gaps.  When the search succeeds, the results that meet the similarity
    threshold are the first [k] of the ranking; the context handed to the
    language model consists of exactly their parts, numbered 1 to [k] and
    separated by rules, and the sources are their citations in the same
    order. *)
Theorem context_cites_top_ranked (fmt : FloatFormat) (query : str)
    (w w1 : World) (results : list SearchResult) :
  search query (rag_top_k (settings w)) None w = (Ok results, w1) →
  ∃ k, (k ≤ length results)%nat ∧
    Forall (meets (rag_similarity_threshold (settings w))) (take k results) ∧
    Forall (λ r, ¬ meets (rag_similarity_threshold (settings w)) r)
      (drop k results) ∧
    retrieve fmt query w
    = (Ok (join context_separator (numbered_parts fmt (take k results)),
           citation <$> take k results), w1).
Proof.
  intros Hsearch.
  destruct (cite_all_prefix fmt (rag_similarity_threshold (settings w))
              results (search_descending _ _ _ _ _ _ Hsearch))
    as (k & Hk & Hm & Hn & Heq).
  exists k. repeat (split; [done|]).
  unfold retrieve, mbind at 1, M_bind at 1, get_settings, try_except,
    mbind, M_bind.
  rewrite Hsearch. cbn [fst snd].
  destruct results as [|r rs].
  { by rewrite take_nil. }
  unfold mret, M_ret, cite_all. rewrite (Heq S).
  by rewrite fst_imap_pair, snd_imap_pair.
Qed.

Lemma context_cites_top_ranked_witness :
  ∃ k, (k ≤ length (retrieved (content question) library_world))%nat ∧
    (retrieve plain_format (content question) library_world).1
    = Ok (join context_separator
            (numbered_parts plain_format
               (take k (retrieved (content question) library_world))),
          citation <$> take k (retrieved (content question) library_world)).
Proof.
  set (res := search (content question) (rag_top_k (settings library_world))
                None library_world).
  assert (res = (Ok (retrieved (content question) library_world), res.2))
    as Hres.
  { rewrite (surjective_pairing res) at 1.
    apply (f_equal (λ x, (x, res.2))). vm_compute. reflexivity. }
  destruct (context_cites_top_ranked plain_format (content question)
              library_world res.2
              (retrieved (content question) library_world) Hres)
    as (k & Hk & _ & _ & Hret).
  exists k. split; [exact Hk|]. by rewrite Hret.
Defined.

(** ** The outcomes of a chat request *)

Lemma retrieve_total fmt query w :
  ∃ context sources w1,
    retrieve fmt query w = (Ok (context, sources), w1) ∧
    collection w1 = collection w ∧ uuid_next w1 = uuid_next w ∧
    settings w1 = settings w ∧
    (emb_model w = None → w1 = w ∧ context = unavailable ∧ sources = []).
Proof.
  unfold retrieve, mbind at 1, M_bind at 1, get_settings, try_except,
    mbind, M_bind.
  cbn [fst snd].
  destruct (search_read_only_bounded_aux query (rag_top_k (settings w)) None w)
    as [Hstate Hhang].
  pose proof (search_outcome query (rag_top_k (settings w)) None w) as Hout.
  cbv zeta in Hout.
  destruct (search query (rag_top_k (settings w)) None w)
    as [[results|e|] w1]; cbn [fst snd] in *.
  - destruct results; eexists _, _, w1; (split; [reflexivity|]);
      (split; [by destruct Hstate as [-> | ->]|]);
      (split; [by destruct Hstate as [-> | ->]|]);
      (split; [by destruct Hstate as [-> | ->]|]);
      intros Hm; by rewrite Hm in Hout.
  - eexists _, _, w1. split; [reflexivity|].
    split; [by destruct Hstate as [-> | ->]|].
    split; [by destruct Hstate as [-> | ->]|].
    split; [by destruct Hstate as [-> | ->]|].
    intros Hm. rewrite Hm in Hout.
    apply (f_equal snd) in Hout. cbn [snd] in Hout.
    split; [done|]. unfold unavailable. split; reflexivity.
  - by destruct Hhang.
Qed.

Lemma relayed_events lines : Forall sse_event (relayed lines).
Proof.
  apply Forall_fmap, Forall_forall. intros line [Hl _]%list_elem_of_filter.
  split; [|by exists line].
  exists (drop 6 line ++ newline ++ newline).
  rewrite <- (take_drop 6 line) at 1. rewrite Hl. by rewrite <- app_assoc.
Qed.

Lemma done_event_event : sse_event done_event.
Proof.
  split; [|by eexists].
  exists (py "[DONE]" ++ newline ++ newline). vm_compute. reflexivity.
Qed.

Lemma sourced_extends fmt sources reply :
  extends_completion reply (sourced fmt sources reply).
Proof.
  unfold sourced.
  destruct sources as [|s sources], (choices reply) as [|first others] eqn:Hch;
    try (by left).
  right. by exists first, others, (source_text fmt (s :: sources)).
Qed.

(** [chat_completions], with the retrieval step already run. *)
Lemma chat_completions_run fmt llm body w :
  ∃ context sources w1,
    retrieve fmt (extract_user_message body) w = (Ok (context, sources), w1) ∧
    collection w1 = collection w ∧ uuid_next w1 = uuid_next w ∧
    chat_completions fmt llm body w
    = if bool_decide (extract_user_message body = []) then
        (Raise (HTTPException 400 (py "Keine User-Nachricht gefunden.")), w)
      else
        (if default false (stream body) then
           Ok (StreamingResponse
                 (_stream_llm_response llm
                    (build_llm_payload (settings w) body context)))
         else
           match post_completion llm
                   (build_llm_payload (settings w) body context) with
           | Reply reply => Ok (JsonResponse (sourced fmt sources reply))
           | Failed msg =>
               Raise (HTTPException 502 (py "LLM nicht erreichbar: " ++ msg))
           | Unreadable msg => Raise (ValueError msg)
           end, w1).
Proof.
  destruct (retrieve_total fmt (extract_user_message body) w)
    as (context & sources & w1 & Hret & Hc & Hu & _).
  exists context, sources, w1. split; [done|]. split; [done|]. split; [done|].
  unfold chat_completions, mbind at 1, M_bind at 1, get_settings.
  cbn [fst snd]. case_bool_decide; [done|].
  unfold mbind at 1, M_bind at 1. rewrite Hret. cbn [fst snd].
  destruct (default false (stream body)); [done|].
  unfold try_except, mbind, M_bind, _complete_llm_response, sourced.
  destruct (post_completion llm _) as [reply|msg|msg]; [|done..].
  by destruct sources, (choices reply).
Qed.

(** X22. The outcomes of a chat request.  [chat_completions] never
    changes the index.  Without a user message it answers 400.  Otherwise
    the retrieval block, whether the search succeeds or not, yields a
    context and a list of sources, and the language model is asked with
    that context.  In streaming mode the call returns the streaming
    response whatever the backend does, since the stream is read only
    afterwards: its events are the [data: ] lines of the backend, each
    closed by an empty line; when the backend's stream ends they are
    followed by [data: [DONE]], and when it breaks the exception leaves the
    stream after the events relayed so far (no 502, no closing event).  In
    batched mode a backend that cannot be reached gives 502 with its error;
    a body that cannot be decoded raises the decoder's error, which is not
    turned into 502; and a completion is returned with the Sources section
    appended to its first choice when there are sources and choices, and
    unchanged otherwise. *)
Theorem chat_completions_outcomes (fmt : FloatFormat) (llm : LlmBackend)
    (body : ChatCompletionRequest) (w : World) :
  let res := chat_completions fmt llm body w in
  collection res.2 = collection w ∧ uuid_next res.2 = uuid_next w ∧
  (extract_user_message body = [] →
   res = (Raise (HTTPException 400 (py "Keine User-Nachricht gefunden.")), w)) ∧
  (extract_user_message body ≠ [] →
   ∃ context sources,
     let payload := build_llm_payload (settings w) body context in
     (retrieve fmt (extract_user_message body) w).1 = Ok (context, sources) ∧
     res.2 = (retrieve fmt (extract_user_message body) w).2 ∧
     (stream body = Some true →
      ∃ s, res.1 = Ok (StreamingResponse s) ∧
           Forall sse_event (events s) ∧
           (stream_failure llm payload = None →
            events s = relayed (stream_lines llm payload) ++ [done_event] ∧
            failure s = None) ∧
           (∀ e, stream_failure llm payload = Some e →
                 events s = relayed (stream_lines llm payload) ∧
                 failure s = Some e)) ∧
     (stream body ≠ Some true →
      (∀ msg, post_completion llm payload = Failed msg →
              res.1 = Raise (HTTPException 502
                               (py "LLM nicht erreichbar: " ++ msg))) ∧
      (∀ msg, post_completion llm payload = Unreadable msg →
              res.1 = Raise (ValueError msg)) ∧
      (∀ reply, post_completion llm payload = Reply reply →
                res.1 = Ok (JsonResponse (sourced fmt sources reply)) ∧
                extends_completion reply (sourced fmt sources reply)))).
Proof.
  cbv zeta.
  destruct (chat_completions_run fmt llm body w)
    as (context & sources & w1 & Hret & Hc & Hu & ->).
  case_bool_decide as Huser; cbn [fst snd].
  { split; [done|]. split; [done|]. split; [done|]. by intros []. }
  split; [done|]. split; [done|]. split; [by intros ?|]. intros _.
  exists context, sources. rewrite Hret. cbn [fst snd].
  split; [done|]. split; [done|]. split.
  - intros ->. cbn [default from_option id fst].
    eexists. split; [reflexivity|]. unfold _stream_llm_response.
    fold (relayed (stream_lines llm
                     (build_llm_payload (settings w) body context))).
    fold done_event.
    destruct (stream_failure llm _) as [e|]; cbn [events failure].
    + split; [apply relayed_events|]. split; [done|]. by intros e' [= <-].
    + split; [|split; [done|by intros e']].
      apply Forall_app. split; [apply relayed_events|].
      repeat constructor; apply done_event_event.
  - intros Hstream.
    assert (default false (stream body) = false) as ->
      by (by destruct (stream body) as [[|]|]).
    cbn [fst]. split; [by intros msg ->|]. split; [by intros msg ->|].
    intros reply ->. split; [reflexivity|]. apply sourced_extends.
Qed.

(** A stream that breaks and a body that is not JSON: the streaming call
    returns the events relayed before the break with the exception behind
    them, the batched call raises the decoder's error. *)
Example chat_with_broken_backend :
  (chat_completions plain_format broken_llm (streamed [question])
     library_world).1
  = Ok (StreamingResponse
          {| events := [py "data: {}" ++ newline ++ newline];
             failure := Some (HTTPError (py "peer closed connection")) |}) ∧
  (chat_completions plain_format broken_llm (request [question])
     library_world).1
  = Raise (ValueError (py "Expecting value")).
Proof. split; vm_compute; reflexivity. Qed.

(** X23. Retrieval degrades instead of failing.  With the embedding
    model not loaded, a chat request with a user message is still
    forwarded: the language model is asked with the notice
    [[Wissensdatenbank nicht verfügbar]] in place of the context, its
    completion is returned as it is (no Sources section), and the state is
    not touched. *)
Theorem retrieval_degrades (fmt : FloatFormat) (llm : LlmBackend)
    (body : ChatCompletionRequest) (w : World) :
  emb_model w = None →
  extract_user_message body ≠ [] →
  chat_completions fmt llm body w
  = (forwarded llm (build_llm_payload (settings w) body unavailable)
       (default false (stream body)), w) ∧
  content <$> head (p_messages
                      (build_llm_payload (settings w) body unavailable))
  = Some (SYSTEM_PROMPT_head ++ unavailable ++ newline).
Proof.
  intros Hm Huser. split.
  - unfold chat_completions, mbind at 1, M_bind at 1, get_settings.
    cbn [fst snd]. rewrite bool_decide_eq_false_2 by done.
    destruct (retrieve_total fmt (extract_user_message body) w)
      as (context & sources & w1 & Hret & _ & _ & _ & Hoff).
    destruct (Hoff Hm) as (-> & -> & ->).
    unfold mbind at 1, M_bind at 1. rewrite Hret. cbn [fst snd].
    unfold forwarded.
    destruct (default false (stream body)); [done|].
    unfold try_except, mbind, M_bind, _complete_llm_response.
    by destruct (post_completion llm _).
  - unfold build_llm_payload. cbn [p_messages head fmap option_fmap option_map
      content].
    rewrite bool_decide_eq_false_2; [done|]. vm_compute. discriminate.
Qed.

Lemma retrieval_degrades_witness :
  chat_completions plain_format answering_llm (request [question])
    offline_world
  = (Ok (JsonResponse {| choices := [answer] |}), offline_world).
Proof.
  refine (proj1 (retrieval_degrades plain_format answering_llm
                   (request [question]) offline_world _ _)).
  - reflexivity.
  - vm_compute. discriminate.
Defined.

(** ** What is sent to the language model *)

(** X24. What reaches the language model.  The messages sent are the
    server's system message followed by the caller's messages without
    those of role [system], in their order; the system message is the
    prompt with the context in the placeholder, or a notice when the
    context is empty.  The model name is the configured one.  A requested
    temperature or token limit of zero counts as not given. *)
Theorem llm_payload_shape (settings : Settings) (body : ChatCompletionRequest)
    (context : str) :
  let payload := build_llm_payload settings body context in
  (∃ sys rest shown,
     p_messages payload = sys :: rest ∧
     role sys = py "system" ∧
     content sys = SYSTEM_PROMPT_head ++ shown ++ newline ∧
     shown ≠ [] ∧ (context ≠ [] → shown = context) ∧
     Forall (λ m, role m ≠ py "system") rest ∧
     rest `sublist_of` messages body ∧
     (∀ m, m ∈ messages body → role m ≠ py "system" → m ∈ rest)) ∧
  p_model payload = llm_model settings ∧
  (∀ q, temperature body = Some q →
        p_temperature payload
        = if Qeq_bool q 0 then llm_temperature settings else q) ∧
  (temperature body = None →
   p_temperature payload = llm_temperature settings) ∧
  (∀ n, max_tokens body = Some n →
        p_max_tokens payload = if n =? 0 then llm_max_tokens settings else n) ∧
  (max_tokens body = None → p_max_tokens payload = llm_max_tokens settings) ∧
  (p_stream payload = true ↔ stream body = Some true).
Proof.
  cbv zeta. unfold build_llm_payload.
  cbn [p_messages p_model p_temperature p_max_tokens p_stream].
  split; [|split; [done|]].
  - eexists _, _, (if bool_decide (context = [])
                   then py "[Keine relevanten Dokumente gefunden]"
                   else context).
    split; [done|]. split; [done|]. split; [done|]. split; [|split; [|split; [|split]]].
    + case_bool_decide; [|done]. vm_compute. discriminate.
    + intros Hc. by rewrite bool_decide_eq_false_2.
    + apply Forall_forall. by intros m [? _]%list_elem_of_filter.
    + apply sublist_filter.
    + intros m Hin Hrole. by apply list_elem_of_filter.
  - split; [by intros q ->|]. split; [by intros ->|].
    split; [by intros n ->|]. split; [by intros ->|].
    destruct (stream body) as [[|]|]; simpl; split; congruence.
Qed.

End ChatMore.
